(** * honcho-clawd: cache layer and context formatter

    A shallow embedding of [src/cache.ts] and [src/context-format.ts].

    Strings.  A JavaScript string is a sequence of UTF-16 code units.  Program
    strings are embedded as Rocq [string]s, one [ascii] per code unit, which
    covers the code units below 256 (Latin-1); this set is closed under every
    operation used here ([trim], [split], [slice], [toLowerCase],
    [JSON.stringify]).  [JSON.parse] can produce any code unit through a
    [\uXXXX] escape, so the strings inside parsed values are lists of code
    units ([list N]).

    Numbers.  Lengths, counters, budgets and millisecond clocks are integers
    well inside the exactly representable range of a double and are embedded
    as [Z] (or [nat] for lengths).  Ratios are exact rationals ([Q]).

    Effects.  The files under [~/.honcho-clawd] are a record of optional
    contents threaded through every operation; the clock ([Date.now()],
    [new Date().toISOString()]) and the configuration ([./config.js]) are
    passed as arguments.  The file system itself does not fail: the cache
    directory can be created, a file that exists can be read, and a write
    goes through.  An exception is [None]; [try]/[catch] is a [match] on
    it. *)

From Stdlib Require Import String Ascii List ZArith NArith QArith Qround Lia Bool.
From Stdlib Require Import Decimal DecimalString.
From stdpp Require Import gmap strings.
Close Scope Q_scope.
Import ListNotations.

(** String concatenation computes under [simpl], as in the Standard
    Library. *)
#[local] Arguments String.append !s1 s2 : simpl nomatch.

(* ===================================================================== *)
(** * JavaScript built-ins used by the two modules                        *)
(* ===================================================================== *)

Module JS.

(** The line feed, and the one-character string ["\n"]. *)
Definition newline : ascii := "010".
Definition nl : string := String newline EmptyString.

(** [WhiteSpace] and [LineTerminator] code units below 256: TAB, LF, VT,
    FF, CR, SP and NBSP.  [String.prototype.trim] and the regular
    expression class [\s] use the same set. *)
Definition isWhiteSpace (c : ascii) : bool :=
  let n := nat_of_ascii c in
  ((9 <=? n) && (n <=? 13)) || (n =? 32) || (n =? 160).

Fixpoint trimStart (s : string) : string :=
  match s with
  | String c rest => if isWhiteSpace c then trimStart rest else s
  | EmptyString => EmptyString
  end.

Fixpoint trimEnd (s : string) : string :=
  match s with
  | String c rest =>
      match trimEnd rest with
      | EmptyString => if isWhiteSpace c then EmptyString else String c EmptyString
      | t => String c t
      end
  | EmptyString => EmptyString
  end.

(** [s.trim()] *)
Definition trim (s : string) : string := trimEnd (trimStart s).

(** [ToBoolean] of a string: only the empty string is falsy. *)
Definition truthy (s : string) : bool :=
  match s with EmptyString => false | String _ _ => true end.

(** [s.split(sep)] for a one-character separator. *)
Fixpoint split (sep : ascii) (s : string) : list string :=
  match s with
  | EmptyString => [EmptyString]
  | String c rest =>
      if Ascii.eqb c sep then EmptyString :: split sep rest
      else match split sep rest with
           | piece :: pieces => String c piece :: pieces
           | [] => [String c EmptyString]
           end
  end.

(** [xs.join(sep)] *)
Fixpoint join (sep : string) (xs : list string) : string :=
  match xs with
  | [] => EmptyString
  | [x] => x
  | x :: rest => x +:+ sep +:+ join sep rest
  end.

(** [hay.includes(needle)] *)
Fixpoint includes (needle hay : string) : bool :=
  String.prefix needle hay
  || match hay with
     | String _ rest => includes needle rest
     | EmptyString => false
     end.

(** Index arithmetic shared by [String.prototype.slice] and
    [Array.prototype.slice]: a negative index counts from the end, both
    ends are clamped to [0 .. len].  Returns the first position and the
    number of elements taken. *)
Definition sliceBounds (len start stop : Z) : nat * nat :=
  let from := if (start <? 0)%Z then Z.max (len + start) 0 else Z.min start len in
  let to := if (stop <? 0)%Z then Z.max (len + stop) 0 else Z.min stop len in
  (Z.to_nat from, Z.to_nat (Z.max (to - from) 0)).

(** [s.slice(start, stop)] *)
Definition sliceString (s : string) (start stop : Z) : string :=
  let '(from, n) := sliceBounds (Z.of_nat (String.length s)) start stop in
  substring from n s.

(** [xs.slice(start, stop)] *)
Definition sliceArray {A : Type} (xs : list A) (start stop : Z) : list A :=
  let '(from, n) := sliceBounds (Z.of_nat (length xs)) start stop in
  firstn n (skipn from xs).

(** [xs.slice(start)] *)
Definition sliceFrom {A : Type} (xs : list A) (start : Z) : list A :=
  sliceArray xs start (Z.of_nat (length xs)).

(** [xs.findIndex(p)], with [-1] when no element satisfies [p]. *)
Fixpoint findIndex {A : Type} (p : A -> bool) (xs : list A) : Z :=
  match xs with
  | [] => (-1)%Z
  | x :: rest =>
      if p x then 0%Z
      else let i := findIndex p rest in
           if (i =? -1)%Z then (-1)%Z else (i + 1)%Z
  end.

(** [c.toLowerCase()] on a Latin-1 code unit: A-Z and the accented
    capitals U+00C0..U+00DE (without the multiplication sign U+00D7) move
    up by 32; everything else is its own lower case. *)
Definition toLowerChar (c : ascii) : ascii :=
  let n := nat_of_ascii c in
  if ((65 <=? n) && (n <=? 90)) || ((192 <=? n) && (n <=? 222) && negb (n =? 215))
  then ascii_of_nat (n + 32) else c.

Fixpoint toLowerCase (s : string) : string :=
  match s with
  | EmptyString => EmptyString
  | String c rest => String (toLowerChar c) (toLowerCase rest)
  end.

(** [s.split(/\s+/)]: the pieces between maximal runs of white space; a
    run at either end leaves an empty piece there.  [inRun] says that the
    previous code unit was white space. *)
Fixpoint splitWs (inRun : bool) (s : string) : list string :=
  match s with
  | EmptyString => [EmptyString]
  | String c rest =>
      if isWhiteSpace c then
        if inRun then splitWs true rest else EmptyString :: splitWs true rest
      else match splitWs false rest with
           | piece :: pieces => String c piece :: pieces
           | [] => [String c EmptyString]
           end
  end.

Definition splitWhitespace (s : string) : list string := splitWs false s.

(** [String(n)] for a non-negative integer. *)
Definition numberToString (n : nat) : string :=
  NilEmpty.string_of_uint (Nat.to_uint n).

(** How a call ends: it returns a value, it throws, or it steps outside
    what is embedded here (the places are named where [Unembedded] is
    given). *)
Inductive Outcome (A : Type) : Type :=
| Returns (a : A)
| Throws
| Unembedded.

Arguments Returns {A} a.
Arguments Throws {A}.
Arguments Unembedded {A}.

Definition andThen {A B : Type} (m : Outcome A) (k : A -> Outcome B) : Outcome B :=
  match m with
  | Returns a => k a
  | Throws => Throws
  | Unembedded => Unembedded
  end.

#[global] Instance outcome_bind : MBind Outcome := fun A B k m => andThen m k.

End JS.

(* ===================================================================== *)
(** * JSON.parse and JSON.stringify                                       *)
(* ===================================================================== *)

Module Json.

(** A parsed JSON text.  A number keeps the exact decimal it was written
    as, [(-1)^negative * mantissa * 10^exponent]; strings and member names
    are lists of UTF-16 code units.  Members are in source order. *)
#[warnings="-register-all"] Inductive value : Type :=
| Null
| Bool (b : bool)
| Number (negative : bool) (mantissa : N) (exponent : Z)
| Str (s : list N)
| Arr (elements : list value)
| Obj (members : list (list N * value)).

Definition codeUnits (s : string) : list N :=
  List.map N_of_ascii (list_ascii_of_string s).

Definition quote : ascii := "034".
Definition backslash : ascii := "092".

(** ** The parser (ECMA-404 grammar, recursive descent) *)

(** JSON white space: TAB, LF, CR, SP. *)
Definition isJsonWs (c : ascii) : bool :=
  let n := nat_of_ascii c in
  (n =? 9) || (n =? 10) || (n =? 13) || (n =? 32).

Fixpoint skipWs (s : string) : string :=
  match s with
  | String c rest => if isJsonWs c then skipWs rest else s
  | EmptyString => EmptyString
  end.

Fixpoint stripPrefix (p s : string) : option string :=
  match p, s with
  | EmptyString, _ => Some s
  | String a p', String b s' => if Ascii.eqb a b then stripPrefix p' s' else None
  | String _ _, EmptyString => None
  end.

Definition digitValue (c : ascii) : option N :=
  let n := N_of_ascii c in
  if ((48 <=? n) && (n <=? 57))%N then Some (n - 48)%N else None.

Definition hexValue (c : ascii) : option N :=
  let n := N_of_ascii c in
  if ((48 <=? n) && (n <=? 57))%N then Some (n - 48)%N
  else if ((97 <=? n) && (n <=? 102))%N then Some (n - 87)%N
  else if ((65 <=? n) && (n <=? 70))%N then Some (n - 55)%N
  else None.

(** The four hexadecimal digits of a [\uXXXX] escape. *)
Definition hex4 (a b c d : ascii) : option N :=
  x3 ← hexValue a; x2 ← hexValue b; x1 ← hexValue c; x0 ← hexValue d;
  Some (((x3 * 16 + x2) * 16 + x1) * 16 + x0)%N.

(** The inside of a string literal, after the opening quote, up to and
    including the closing quote. *)
Fixpoint parseStringBody (s : string) : option (list N * string) :=
  match s with
  | EmptyString => None
  | String c rest =>
      if Ascii.eqb c quote then Some ([], rest)
      else if Ascii.eqb c backslash then
        match rest with
        | String e rest1 =>
            let continue (u : N) (tail : string) :=
              match parseStringBody tail with
              | Some (us, r) => Some (u :: us, r)
              | None => None
              end in
            if Ascii.eqb e quote then continue 34%N rest1
            else if Ascii.eqb e backslash then continue 92%N rest1
            else if Ascii.eqb e "/" then continue 47%N rest1
            else if Ascii.eqb e "b" then continue 8%N rest1
            else if Ascii.eqb e "f" then continue 12%N rest1
            else if Ascii.eqb e "n" then continue 10%N rest1
            else if Ascii.eqb e "r" then continue 13%N rest1
            else if Ascii.eqb e "t" then continue 9%N rest1
            else if Ascii.eqb e "u" then
              match rest1 with
              | String h3 (String h2 (String h1 (String h0 rest2))) =>
                  match hex4 h3 h2 h1 h0 with
                  | Some u => continue u rest2
                  | None => None
                  end
              | _ => None
              end
            else None
        | EmptyString => None
        end
      else if (N_of_ascii c <? 32)%N then None
      else match parseStringBody rest with
           | Some (us, r) => Some (N_of_ascii c :: us, r)
           | None => None
           end
  end.

Fixpoint takeDigits (s : string) : list N * string :=
  match s with
  | String c rest =>
      match digitValue c with
      | Some d => let '(ds, r) := takeDigits rest in (d :: ds, r)
      | None => ([], s)
      end
  | EmptyString => ([], EmptyString)
  end.

Definition digitsToN (ds : list N) : N :=
  fold_left (fun acc d => acc * 10 + d)%N ds 0%N.

Definition isNil {A : Type} (xs : list A) : bool :=
  match xs with [] => true | _ :: _ => false end.

(** A number: an optional minus sign; an integer part that is a single
    zero or starts with a non-zero digit; an optional fraction of at least
    one digit; an optional exponent of at least one digit. *)
Definition parseNumber (s : string) : option (value * string) :=
  let '(neg, s1) := match stripPrefix "-" s with
                    | Some r => (true, r)
                    | None => (false, s)
                    end in
  let '(ints, s2) := takeDigits s1 in
  match ints with
  | [] => None
  | d :: more =>
      if (d =? 0)%N && negb (isNil more) then None
      else (
        '(fracs, s3) ← match stripPrefix "." s2 with
                        | Some r => let '(fs, r') := takeDigits r in
                                    if isNil fs then None else Some (fs, r')
                        | None => Some ([], s2)
                        end;
        '(e, s4) ← match s3 with
                    | String c r =>
                        if Ascii.eqb c "e" || Ascii.eqb c "E" then
                          let '(eneg, r1) :=
                            match r with
                            | String sg r' =>
                                if Ascii.eqb sg "+" then (false, r')
                                else if Ascii.eqb sg "-" then (true, r')
                                else (false, r)
                            | EmptyString => (false, r)
                            end in
                          let '(es, r2) := takeDigits r1 in
                          if isNil es then None
                          else Some (if eneg then (- Z.of_N (digitsToN es))%Z
                                     else Z.of_N (digitsToN es), r2)
                        else Some (0%Z, s3)
                    | EmptyString => Some (0%Z, s3)
                    end;
        Some (Number neg (digitsToN (ints ++ fracs)) (e - Z.of_nat (length fracs))%Z, s4))
  end.

(** One value, then what is left of the input.  [fuel] bounds the number
    of nested calls; [parse] below supplies more than any input needs
    (see [parseValue_fuel_enough]). *)
Fixpoint parseValue (fuel : nat) (s : string) {struct fuel} : option (value * string) :=
  match fuel with
  | O => None
  | S fuel =>
      match skipWs s with
      | EmptyString => None
      | String c rest as s' =>
          if Ascii.eqb c quote then
            '(us, r) ← parseStringBody rest; Some (Str us, r)
          else if Ascii.eqb c "{" then
            match skipWs rest with
            | String c' r => if Ascii.eqb c' "}" then Some (Obj [], r)
                             else '(ms, r') ← parseMembers fuel rest; Some (Obj ms, r')
            | EmptyString => None
            end
          else if Ascii.eqb c "[" then
            match skipWs rest with
            | String c' r => if Ascii.eqb c' "]" then Some (Arr [], r)
                             else '(vs, r') ← parseElements fuel rest; Some (Arr vs, r')
            | EmptyString => None
            end
          else if Ascii.eqb c "t" then r ← stripPrefix "true" s'; Some (Bool true, r)
          else if Ascii.eqb c "f" then r ← stripPrefix "false" s'; Some (Bool false, r)
          else if Ascii.eqb c "n" then r ← stripPrefix "null" s'; Some (Null, r)
          else parseNumber s'
      end
  end
with parseElements (fuel : nat) (s : string) {struct fuel} : option (list value * string) :=
  match fuel with
  | O => None
  | S fuel =>
      '(v, r) ← parseValue fuel s;
      match skipWs r with
      | String c r' =>
          if Ascii.eqb c "," then '(vs, r'') ← parseElements fuel r'; Some (v :: vs, r'')
          else if Ascii.eqb c "]" then Some ([v], r')
          else None
      | EmptyString => None
      end
  end
with parseMembers (fuel : nat) (s : string) {struct fuel}
    : option (list (list N * value) * string) :=
  match fuel with
  | O => None
  | S fuel =>
      match skipWs s with
      | String c rest =>
          if Ascii.eqb c quote then
            '(k, r1) ← parseStringBody rest;
            match skipWs r1 with
            | String c1 r2 =>
                if Ascii.eqb c1 ":" then
                  '(v, r3) ← parseValue fuel r2;
                  match skipWs r3 with
                  | String c3 r4 =>
                      if Ascii.eqb c3 "," then
                        '(ms, r5) ← parseMembers fuel r4; Some ((k, v) :: ms, r5)
                      else if Ascii.eqb c3 "}" then Some ([(k, v)], r4)
                      else None
                  | EmptyString => None
                  end
                else None
            | EmptyString => None
            end
          else None
      | EmptyString => None
      end
  end.

Definition parseFuel (s : string) : nat := 2 * String.length s + 2.

(** [JSON.parse(s)]; [None] stands for the [SyntaxError] it throws. *)
Definition parse (s : string) : option value :=
  '(v, r) ← parseValue (parseFuel s) s;
  match skipWs r with
  | EmptyString => Some v
  | String _ _ => None
  end.

(** ** Reading a parsed value *)

(** The member a property read finds: the last one of that name, as
    [JSON.parse] lets a later duplicate overwrite an earlier one. *)
Fixpoint lookupMember (key : list N) (ms : list (list N * value)) : option value :=
  match ms with
  | [] => None
  | (k, v) :: rest =>
      match lookupMember key rest with
      | Some v' => Some v'
      | None => if bool_decide (k = key) then Some v else None
      end
  end.

(** [v.key] for a [key] that no built-in prototype defines (as [cwd] and
    [uploaded]): the outer [None] is the [TypeError] of reading a property
    of [null], the inner [None] is [undefined]. *)
Definition getProp (v : value) (key : string) : option (option value) :=
  match v with
  | Null => None
  | Obj ms => Some (lookupMember (codeUnits key) ms)
  | Bool _ | Number _ _ _ | Str _ | Arr _ => Some None
  end.

(** A decimal denotes the number zero when its mantissa is zero, or when
    it is so small that the nearest double is zero: at most [2^-1075],
    half of the smallest subnormal (a tie goes to the even side, zero). *)
Definition numberIsZero (mantissa : N) (exponent : Z) : bool :=
  if (0 <=? exponent)%Z then (mantissa =? 0)%N
  else (Z.of_N mantissa * 2 ^ 1075 <=? 10 ^ (- exponent))%Z.

(** [ToBoolean]; [None] is [undefined]. *)
Definition toBoolean (v : option value) : bool :=
  match v with
  | None | Some Null => false
  | Some (Bool b) => b
  | Some (Number _ m e) => negb (numberIsZero m e)
  | Some (Str us) => negb (isNil us)
  | Some (Arr _) | Some (Obj _) => true
  end.

(** [v === s] for a string [s]. *)
Definition strictEqualsString (v : option value) (s : string) : bool :=
  match v with
  | Some (Str us) => bool_decide (us = codeUnits s)
  | _ => false
  end.

(** ** JSON.stringify on strings *)

Definition hexDigit (n : N) : ascii :=
  if (n <? 10)%N then ascii_of_N (48 + n) else ascii_of_N (87 + n).

(** [QuoteJSONString] on one code unit: the quote and the backslash are
    escaped, control characters become [\b \t \n \f \r] or [\u00xx]. *)
Definition quoteChar (c : ascii) : string :=
  let n := N_of_ascii c in
  if Ascii.eqb c quote then String backslash (String quote EmptyString)
  else if Ascii.eqb c backslash then String backslash (String backslash EmptyString)
  else if (n =? 8)%N then "\b"
  else if (n =? 9)%N then "\t"
  else if (n =? 10)%N then "\n"
  else if (n =? 12)%N then "\f"
  else if (n =? 13)%N then "\r"
  else if (n <? 32)%N then
    "\u00" +:+ String (hexDigit (n / 16)) (String (hexDigit (n mod 16)) EmptyString)
  else String c EmptyString.

Fixpoint quoteBody (s : string) : string :=
  match s with
  | EmptyString => EmptyString
  | String c rest => quoteChar c +:+ quoteBody rest
  end.

(** [JSON.stringify(s)] for a string [s]. *)
Definition stringifyString (s : string) : string :=
  String quote (quoteBody s +:+ String quote EmptyString).

(** ** Objects in memory

    The members of an [Obj] are the property definitions in the order they
    were made: those of the JSON text, then those of later assignments.  A
    read finds the last definition of a name ([lookupMember]).  The object
    itself has each name once, and enumerates array indices first. *)

Definition isDigit (u : N) : bool := ((48 <=? u) && (u <=? 57))%N.

(** An array index: the canonical decimal notation of an integer from 0 to
    2^32 - 2. *)
Definition arrayIndex (key : list N) : option N :=
  match key with
  | [] => None
  | d :: more =>
      if forallb isDigit key && negb ((d =? 48)%N && negb (isNil more)) then
        let n := fold_left (fun acc u => acc * 10 + (u - 48))%N key 0%N in
        if (n <? 4294967295)%N then Some n else None
      else None
  end.

(** Defining a property: the value of an existing name is replaced where it
    stands, a new name goes to the end. *)
Fixpoint define (key : list N) (v : value) (props : list (list N * value))
    : list (list N * value) :=
  match props with
  | [] => [(key, v)]
  | (k, x) :: rest =>
      if bool_decide (k = key) then (k, v) :: rest else (k, x) :: define key v rest
  end.

(** The properties in creation order. *)
Definition created (ms : list (list N * value)) : list (list N * value) :=
  fold_left (fun props m => define (fst m) (snd m) props) ms [].

(** A property with an array index put in its place among those sorted by
    index. *)
Fixpoint insertByIndex (i : N) (m : list N * value) (sorted : list (N * (list N * value)))
    : list (N * (list N * value)) :=
  match sorted with
  | [] => [(i, m)]
  | (j, m') :: rest =>
      if (i <? j)%N then (i, m) :: sorted else (j, m') :: insertByIndex i m rest
  end.

Definition byIndex (props : list (list N * value)) : list (N * (list N * value)) :=
  fold_right (fun m sorted =>
                match arrayIndex (fst m) with
                | Some i => insertByIndex i m sorted
                | None => sorted
                end) [] props.

(** [OrdinaryOwnPropertyKeys]: the array indices in ascending order, then
    the other names in creation order. *)
Definition ownProperties (ms : list (list N * value)) : list (list N * value) :=
  let props := created ms in
  List.map snd (byIndex props)
  ++ List.filter (fun m => negb (bool_decide (is_Some (arrayIndex (fst m))))) props.

(** The value with every object in it reduced to its own properties, in
    enumeration order. *)
Fixpoint objectOf (v : value) : value :=
  match v with
  | Arr vs => Arr (List.map objectOf vs)
  | Obj ms => Obj (ownProperties (List.map (fun '(k, x) => (k, objectOf x)) ms))
  | Null | Bool _ | Number _ _ _ | Str _ => v
  end.

(** The names every object inherits from [Object.prototype]. *)
Definition inheritedNames : list string :=
  ["constructor"; "__defineGetter__"; "__defineSetter__"; "hasOwnProperty";
   "__lookupGetter__"; "__lookupSetter__"; "isPrototypeOf"; "propertyIsEnumerable";
   "toString"; "valueOf"; "__proto__"; "toLocaleString"].

Definition inherited (key : string) : bool :=
  existsb (String.eqb key) inheritedNames.

(** [v[key]] for any [key].  On an object an own property is found first;
    a name that is not its own and is inherited gives a built-in function
    or object, which is no JSON value ([Unembedded]); so are the members of
    strings, numbers, booleans and arrays. *)
Definition getIndex (v : value) (key : string) : JS.Outcome (option value) :=
  match v with
  | Null => JS.Throws
  | Obj ms =>
      match lookupMember (codeUnits key) ms with
      | Some x => JS.Returns (Some x)
      | None => if inherited key then JS.Unembedded else JS.Returns None
      end
  | Bool _ | Number _ _ _ | Str _ | Arr _ => JS.Unembedded
  end.

(** [target[key] = v], giving [target] as it is afterwards.  On an object
    the assignment defines an own property, except for [__proto__] when it
    is not an own property already: that goes to the inherited setter,
    which does nothing with a string, a number or a boolean, and replaces
    the prototype by an object or [null] (not embedded: the values here
    have no prototype).  Assignments to the members of strings, numbers,
    booleans and arrays are not embedded. *)
Definition setIndex (target : value) (key : string) (v : value) : JS.Outcome value :=
  match target with
  | Null => JS.Throws
  | Obj ms =>
      match lookupMember (codeUnits key) ms with
      | None =>
          if String.eqb key "__proto__" then
            match v with
            | Bool _ | Number _ _ _ | Str _ => JS.Returns target
            | Null | Arr _ | Obj _ => JS.Unembedded
            end
          else JS.Returns (Obj (ms ++ [(codeUnits key, v)]))
      | Some _ => JS.Returns (Obj (ms ++ [(codeUnits key, v)]))
      end
  | Bool _ | Number _ _ _ | Str _ | Arr _ => JS.Unembedded
  end.

(** ** JSON.stringify with an indentation of two spaces *)

(** The string of code units below 256. *)
Fixpoint latin1 (us : list N) : option string :=
  match us with
  | [] => Some EmptyString
  | u :: rest =>
      if (u <? 256)%N then s ← latin1 rest; Some (String (ascii_of_N u) s) else None
  end.

Definition gap : string := "  ".

(** [SerializeJSONProperty] with the gap of two spaces, at indentation
    [indent], for a value whose objects list their own properties in
    enumeration order.  [None]: the value holds a number or a code unit
    above 255, whose renderings are not embedded. *)
Fixpoint render (indent : string) (v : value) : option string :=
  let inner := indent +:+ gap in
  let separator := "," +:+ JS.nl +:+ inner in
  match v with
  | Null => Some "null"
  | Bool b => Some (if b then "true" else "false")
  | Number _ _ _ => None
  | Str us => s ← latin1 us; Some (stringifyString s)
  | Arr [] => Some "[]"
  | Arr vs =>
      partial ← mapM (render inner) vs;
      Some ("[" +:+ JS.nl +:+ inner +:+ JS.join separator partial
            +:+ JS.nl +:+ indent +:+ "]")
  | Obj [] => Some "{}"
  | Obj ms =>
      partial ← mapM (fun '(k, x) =>
                        name ← latin1 k; strP ← render inner x;
                        Some (stringifyString name +:+ ": " +:+ strP)) ms;
      Some ("{" +:+ JS.nl +:+ inner +:+ JS.join separator partial
            +:+ JS.nl +:+ indent +:+ "}")
  end.

(** [JSON.stringify(v, null, 2)] *)
Definition stringifyPretty (v : value) : option string :=
  render EmptyString (objectOf v).

End Json.

(* ===================================================================== *)
(** * src/cache.ts                                                        *)
(* ===================================================================== *)

Module Cache.

(** ** The cache directory *)

(** The directory [~/.honcho-clawd] and its four files; [None] is a file
    that does not exist.  File contents are the decoded text. *)
Record Files : Type := {
  cacheDirExists : bool;
  idCacheFile : option string;
  contextCacheFile : option string;
  messageQueueFile : option string;
  clawdContextFile : option string
}.

Definition noFiles : Files :=
  {| cacheDirExists := false; idCacheFile := None; contextCacheFile := None;
     messageQueueFile := None; clawdContextFile := None |}.

Definition ensureCacheDir (fs : Files) : Files :=
  if cacheDirExists fs then fs
  else {| cacheDirExists := true; idCacheFile := idCacheFile fs;
          contextCacheFile := contextCacheFile fs;
          messageQueueFile := messageQueueFile fs;
          clawdContextFile := clawdContextFile fs |}.

Definition writeMessageQueue (text : string) (fs : Files) : Files :=
  {| cacheDirExists := cacheDirExists fs; idCacheFile := idCacheFile fs;
     contextCacheFile := contextCacheFile fs;
     messageQueueFile := Some text;
     clawdContextFile := clawdContextFile fs |}.

Definition writeClawdContext (text : string) (fs : Files) : Files :=
  {| cacheDirExists := cacheDirExists fs; idCacheFile := idCacheFile fs;
     contextCacheFile := contextCacheFile fs;
     messageQueueFile := messageQueueFile fs;
     clawdContextFile := Some text |}.

(** ** ID cache and context cache: loading *)

(** The empty object [{}]. *)
Definition emptyDocument : Json.value := Json.Obj [].

(** [try { return JSON.parse(text) } catch { return {} }] *)
Definition parseOrEmpty (text : string) : Json.value :=
  match Json.parse text with
  | Some v => v
  | None => emptyDocument
  end.

Definition loadIdCache (fs : Files) : Json.value * Files :=
  let fs := ensureCacheDir fs in
  match idCacheFile fs with
  | None => (emptyDocument, fs)
  | Some text => (parseOrEmpty text, fs)
  end.

Definition loadContextCache (fs : Files) : Json.value * Files :=
  let fs := ensureCacheDir fs in
  match contextCacheFile fs with
  | None => (emptyDocument, fs)
  | Some text => (parseOrEmpty text, fs)
  end.

(** ** Context cache: the document and its operations

    The operations below read the document that [loadContextCache]
    returns through the fields of [interface ContextCache].  They are
    embedded on that typed view: the state is the document the file
    holds, [loadContextCache()] reads it and [saveContextCache(cache)]
    replaces it. *)

Record CachedSection : Type := {
  data : Json.value;
  fetchedAt : Z
}.

Record ContextCache : Type := {
  userContext : option CachedSection;
  clawdContext : option CachedSection;
  summaries : option CachedSection;
  messageCount : option Z;
  lastRefreshMessageCount : option Z
}.

(** What the operations see when the file is missing or unreadable. *)
Definition emptyContextCache : ContextCache :=
  {| userContext := None; clawdContext := None; summaries := None;
     messageCount := None; lastRefreshMessageCount := None |}.

(** The part of [getContextRefreshConfig()] (from [./config.js]) that the
    cache reads. *)
Record ContextRefreshConfig : Type := {
  ttlSeconds : option Z;
  messageThreshold : option Z
}.

Definition defaultConfig : ContextRefreshConfig :=
  {| ttlSeconds := None; messageThreshold := None |}.

(** [x ?? d] *)
Definition orElse (x : option Z) (d : Z) : Z :=
  match x with Some v => v | None => d end.

(** [x || 0] *)
Definition orZero (x : option Z) : Z :=
  match x with
  | Some v => if (v =? 0)%Z then 0%Z else v
  | None => 0%Z
  end.

(** In milliseconds. *)
Definition getContextTTL (config : ContextRefreshConfig) : Z :=
  (orElse (ttlSeconds config) 300 * 1000)%Z.

Definition getMessageRefreshThreshold (config : ContextRefreshConfig) : Z :=
  orElse (messageThreshold config) 50.

(** [now] is [Date.now()].  A miss is the value [null], as the stored
    data can be. *)
Definition getCachedUserContext (now : Z) (config : ContextRefreshConfig)
    (cache : ContextCache) : Json.value :=
  match userContext cache with
  | Some section =>
      if (now - fetchedAt section <? getContextTTL config)%Z
      then data section else Json.Null
  | None => Json.Null
  end.

Definition setCachedUserContext (now : Z) (d : Json.value) (cache : ContextCache)
    : ContextCache :=
  {| userContext := Some {| data := d; fetchedAt := now |};
     clawdContext := clawdContext cache; summaries := summaries cache;
     messageCount := messageCount cache;
     lastRefreshMessageCount := lastRefreshMessageCount cache |}.

Definition getCachedClawdContext (now : Z) (config : ContextRefreshConfig)
    (cache : ContextCache) : Json.value :=
  match clawdContext cache with
  | Some section =>
      if (now - fetchedAt section <? getContextTTL config)%Z
      then data section else Json.Null
  | None => Json.Null
  end.

Definition setCachedClawdContext (now : Z) (d : Json.value) (cache : ContextCache)
    : ContextCache :=
  {| userContext := userContext cache;
     clawdContext := Some {| data := d; fetchedAt := now |};
     summaries := summaries cache;
     messageCount := messageCount cache;
     lastRefreshMessageCount := lastRefreshMessageCount cache |}.

Definition isContextCacheStale (now : Z) (config : ContextRefreshConfig)
    (cache : ContextCache) : bool :=
  match userContext cache with
  | None => true
  | Some section => (getContextTTL config <=? now - fetchedAt section)%Z
  end.

(** Returns the new count and the saved document. *)
Definition incrementMessageCount (cache : ContextCache) : Z * ContextCache :=
  let count := (orZero (messageCount cache) + 1)%Z in
  (count,
   {| userContext := userContext cache; clawdContext := clawdContext cache;
      summaries := summaries cache;
      messageCount := Some count;
      lastRefreshMessageCount := lastRefreshMessageCount cache |}).

Definition shouldRefreshKnowledgeGraph (config : ContextRefreshConfig)
    (cache : ContextCache) : bool :=
  let currentCount := orZero (messageCount cache) in
  let lastRefresh := orZero (lastRefreshMessageCount cache) in
  (getMessageRefreshThreshold config <=? currentCount - lastRefresh)%Z.

Definition markKnowledgeGraphRefreshed (cache : ContextCache) : ContextCache :=
  {| userContext := userContext cache; clawdContext := clawdContext cache;
     summaries := summaries cache;
     messageCount := messageCount cache;
     lastRefreshMessageCount := Some (orZero (messageCount cache)) |}.

Definition resetMessageCount (cache : ContextCache) : ContextCache :=
  {| userContext := userContext cache; clawdContext := clawdContext cache;
     summaries := summaries cache;
     messageCount := Some 0%Z;
     lastRefreshMessageCount := Some 0%Z |}.

(** ** Message queue *)

Record QueuedMessage : Type := {
  content : string;
  peerId : string;
  cwd : string;
  timestamp : string;
  uploaded : option bool;
  instanceId : option string
}.

(** One ["key":value] member of the serialised object. *)
Definition member (key rendered : string) : string :=
  Json.stringifyString key +:+ ":" +:+ rendered.

Definition optionalMember {A : Type} (key : string) (render : A -> string)
    (x : option A) : list string :=
  match x with
  | Some a => [member key (render a)]
  | None => []
  end.

Definition stringifyBool (b : bool) : string := if b then "true" else "false".

(** [JSON.stringify(message)]: the members in declaration order, a member
    whose value is [undefined] left out. *)
Definition stringifyMessage (m : QueuedMessage) : string :=
  "{" +:+ JS.join ","
            ([member "content" (Json.stringifyString (content m));
              member "peerId" (Json.stringifyString (peerId m));
              member "cwd" (Json.stringifyString (cwd m));
              member "timestamp" (Json.stringifyString (timestamp m))]
             ++ optionalMember "uploaded" stringifyBool (uploaded m)
             ++ optionalMember "instanceId" Json.stringifyString (instanceId m))
      +:+ "}".

(** [a || b] on optional strings: the first one that is defined and not
    empty. *)
Definition firstTruthy (a b : option string) : option string :=
  match a with
  | Some s => if JS.truthy s then Some s else
                match b with
                | Some t => if JS.truthy t then Some t else None
                | None => None
                end
  | None => match b with
            | Some t => if JS.truthy t then Some t else None
            | None => None
            end
  end.

(** [now] is [new Date().toISOString()] and [cachedInstanceId] the result
    of [getClaudeInstanceId()]. *)
Definition queueMessage (now : string) (cachedInstanceId : option string)
    (content peerId cwd : string) (instanceId : option string) (fs : Files) : Files :=
  let fs := ensureCacheDir fs in
  let message :=
    {| content := content; peerId := peerId; cwd := cwd; timestamp := now;
       uploaded := Some false;
       instanceId := firstTruthy instanceId cachedInstanceId |} in
  let old := match messageQueueFile fs with Some text => text | None => EmptyString end in
  writeMessageQueue (old +:+ stringifyMessage message +:+ JS.nl) fs.

(** [content.split("\n").filter((line) => line.trim())] *)
Definition nonBlankLines (text : string) : list string :=
  List.filter (fun line => JS.truthy (JS.trim line)) (JS.split JS.newline text).

(** [xs.map(f)] for an [f] that may throw: the first exception ends it. *)
Fixpoint mapThrowing {A B : Type} (f : A -> option B) (xs : list A) : option (list B) :=
  match xs with
  | [] => Some []
  | x :: rest => y ← f x; ys ← mapThrowing f rest; Some (y :: ys)
  end.

(** [xs.filter(p)] for a [p] that may throw. *)
Fixpoint filterThrowing {A : Type} (p : A -> option bool) (xs : list A) : option (list A) :=
  match xs with
  | [] => Some []
  | x :: rest =>
      keep ← p x; ys ← filterThrowing p rest;
      Some (if keep : bool then x :: ys else ys)
  end.

(** [try { body } catch { return fallback }] *)
Definition tryCatch {A : Type} (body : option A) (fallback : A) : A :=
  match body with
  | Some a => a
  | None => fallback
  end.

(** [if (forCwd)]: the argument was given and is not the empty string. *)
Definition given (forCwd : option string) : option string :=
  match forCwd with
  | Some d => if JS.truthy d then Some d else None
  | None => None
  end.

Definition getQueuedMessages (forCwd : option string) (fs : Files)
    : list Json.value * Files :=
  let fs := ensureCacheDir fs in
  match messageQueueFile fs with
  | None => ([], fs)
  | Some text =>
      (tryCatch
         (let lines := nonBlankLines text in
          parsed ← mapThrowing Json.parse lines;
          messages ← filterThrowing
                       (fun msg => u ← Json.getProp msg "uploaded";
                                   Some (negb (Json.toBoolean u)))
                       parsed;
          match given forCwd with
          | Some d =>
              filterThrowing
                (fun msg => c ← Json.getProp msg "cwd";
                            Some (Json.strictEqualsString c d))
                messages
          | None => Some messages
          end)
         [],
       fs)
  end.

Definition clearMessageQueue (fs : Files) : Files :=
  writeMessageQueue EmptyString (ensureCacheDir fs).

(** The callback of [lines.filter] in [markMessagesUploaded]:
    [try { msg = JSON.parse(line); return msg.cwd !== forCwd }
     catch { return false }]. *)
Definition remainsAfterUpload (forCwd : string) (line : string) : bool :=
  tryCatch
    (msg ← Json.parse line;
     c ← Json.getProp msg "cwd";
     Some (negb (Json.strictEqualsString c forCwd)))
    false.

Definition markMessagesUploaded (forCwd : option string) (fs : Files) : Files :=
  match given forCwd with
  | None => clearMessageQueue fs
  | Some d =>
      let fs := ensureCacheDir fs in
      match messageQueueFile fs with
      | None => fs
      | Some text =>
          let lines := nonBlankLines text in
          let remaining := List.filter (remainsAfterUpload d) lines in
          writeMessageQueue
            (JS.join JS.nl remaining +:+ (if Json.isNil remaining then EmptyString else JS.nl))
            fs
      end
  end.

(** ** Work log ([clawd-context.md]) *)

Definition loadClawdLocalContext (fs : Files) : string * Files :=
  let fs := ensureCacheDir fs in
  match clawdContextFile fs with
  | None => (EmptyString, fs)
  | Some text => (text, fs)
  end.

Definition saveClawdLocalContext (text : string) (fs : Files) : Files :=
  writeClawdContext text (ensureCacheDir fs).

Definition activityHeader : string := "## Recent Activity".

Definition seedDocument : string :=
  "# CLAWD Work Context" +:+ JS.nl +:+ JS.nl
  +:+ "Auto-generated log of CLAWD's recent work." +:+ JS.nl +:+ JS.nl
  +:+ activityHeader +:+ JS.nl.

(** The line a call appends: [`\n- [${timestamp}] ${workDescription}`]. *)
Definition workEntry (now workDescription : string) : string :=
  JS.nl +:+ "- [" +:+ now +:+ "] " +:+ workDescription.

(** [now] is [new Date().toISOString()] and [maxEntries] the value from
    [getLocalContextConfig()] (from [./config.js]). *)
Definition appendClawdWork (now : string) (maxEntries : Z) (workDescription : string)
    (fs : Files) : Files :=
  let fs := ensureCacheDir fs in
  let entry := workEntry now workDescription in
  let '(loaded, fs) := loadClawdLocalContext fs in
  let existing := if JS.truthy loaded then loaded else seedDocument in
  let lines := JS.split JS.newline existing in
  let activityStart := JS.findIndex (JS.includes activityHeader) lines in
  let existing :=
    if (activityStart =? -1)%Z then existing
    else
      let header := JS.sliceArray lines 0 (activityStart + 1) in
      let activities :=
        List.filter (fun l => JS.truthy (JS.trim l)) (JS.sliceFrom lines (activityStart + 1)) in
      let recentActivities := JS.sliceFrom activities (- (maxEntries - 1)) in
      JS.join JS.nl (header ++ recentActivities) in
  saveClawdLocalContext (existing +:+ entry) fs.

(** The activity lines a later call would find under the header. *)
Definition activitiesOf (text : string) : list string :=
  let lines := JS.split JS.newline text in
  let activityStart := JS.findIndex (JS.includes activityHeader) lines in
  List.filter (fun l => JS.truthy (JS.trim l)) (JS.sliceFrom lines (activityStart + 1)).

(** The lines up to and including the header line. *)
Definition preambleOf (text : string) : list string :=
  let lines := JS.split JS.newline text in
  let activityStart := JS.findIndex (JS.includes activityHeader) lines in
  JS.sliceArray lines 0 (activityStart + 1).

(** ** ID cache: the document and its operations

    [cache] is the value [loadIdCache()] returned, with the assignments
    made to it since. *)

Definition writeIdCache (text : string) (fs : Files) : Files :=
  {| cacheDirExists := cacheDirExists fs; idCacheFile := Some text;
     contextCacheFile := contextCacheFile fs;
     messageQueueFile := messageQueueFile fs;
     clawdContextFile := clawdContextFile fs |}.

Definition writeContextCache (text : string) (fs : Files) : Files :=
  {| cacheDirExists := cacheDirExists fs; idCacheFile := idCacheFile fs;
     contextCacheFile := Some text;
     messageQueueFile := messageQueueFile fs;
     clawdContextFile := clawdContextFile fs |}.

Definition saveIdCache (cache : Json.value) (fs : Files) : JS.Outcome unit * Files :=
  let fs := ensureCacheDir fs in
  match Json.stringifyPretty cache with
  | Some text => (JS.Returns tt, writeIdCache text fs)
  | None => (JS.Unembedded, fs)
  end.

(** [v.key] for one of the names [getProp] is for. *)
Definition readField (v : Json.value) (key : string) : JS.Outcome (option Json.value) :=
  match Json.getProp v key with
  | Some x => JS.Returns x
  | None => JS.Throws
  end.

(** [x?.key] and [x?.[key]]: [undefined] when [x] is [undefined] or
    [null]. *)
Definition optionally (x : option Json.value)
    (read : Json.value -> JS.Outcome (option Json.value)) : JS.Outcome (option Json.value) :=
  match x with
  | None | Some Json.Null => JS.Returns None
  | Some v => read v
  end.

(** [x || null] *)
Definition orNull (x : option Json.value) : Json.value :=
  match x with
  | Some v => if Json.toBoolean x then v else Json.Null
  | None => Json.Null
  end.

(** The string [s] as a value. *)
Definition ofString (s : string) : Json.value := Json.Str (Json.codeUnits s).

(** The call returns what [body] gives; the files are as [loadIdCache]
    left them. *)
Definition reading (body : Json.value -> JS.Outcome (option Json.value)) (fs : Files)
    : JS.Outcome (option Json.value) * Files :=
  let '(cache, fs) := loadIdCache fs in (body cache, fs).

(** The call saves the document [body] gives; when [body] does not return,
    nothing is written. *)
Definition updating (body : Json.value -> JS.Outcome Json.value) (fs : Files)
    : JS.Outcome unit * Files :=
  let '(cache, fs) := loadIdCache fs in
  match body cache with
  | JS.Returns cache' => saveIdCache cache' fs
  | JS.Throws => (JS.Throws, fs)
  | JS.Unembedded => (JS.Unembedded, fs)
  end.

(** The result [Some Json.Null] is [null], [None] is [undefined]. *)
Definition getCachedWorkspaceId (workspaceName : string) (fs : Files)
    : JS.Outcome (option Json.value) * Files :=
  reading (fun cache =>
    workspace ← readField cache "workspace";
    name ← optionally workspace (fun w => readField w "name");
    if Json.strictEqualsString name workspaceName then
      workspace ← readField cache "workspace";
      match workspace with
      | Some w => readField w "id"
      | None => JS.Throws
      end
    else JS.Returns (Some Json.Null)) fs.

Definition setCachedWorkspaceId (name id : string) (fs : Files) : JS.Outcome unit * Files :=
  updating (fun cache =>
    Json.setIndex cache "workspace"
      (Json.Obj [(Json.codeUnits "name", ofString name); (Json.codeUnits "id", ofString id)]))
    fs.

Definition getCachedPeerId (peerName : string) (fs : Files)
    : JS.Outcome (option Json.value) * Files :=
  reading (fun cache =>
    peers ← readField cache "peers";
    found ← optionally peers (fun p => Json.getIndex p peerName);
    JS.Returns (Some (orNull found))) fs.

(** [if (!target.key) target.key = {}], giving [target] as it is
    afterwards and the value of [target.key]. *)
Definition ensureObject (target : Json.value) (key : string)
    : JS.Outcome (Json.value * Json.value) :=
  x ← readField target key;
  match x with
  | Some v =>
      if Json.toBoolean x then JS.Returns (target, v)
      else target' ← Json.setIndex target key (Json.Obj []); JS.Returns (target', Json.Obj [])
  | None => target' ← Json.setIndex target key (Json.Obj []); JS.Returns (target', Json.Obj [])
  end.

(** [target.key[name] = v] on the object [held] that [target.key] holds:
    the object is changed in place, so [target.key] holds the changed
    one. *)
Definition setWithin (target : Json.value) (key : string) (held : Json.value)
    (name : string) (v : Json.value) : JS.Outcome Json.value :=
  held' ← Json.setIndex held name v;
  Json.setIndex target key held'.

Definition setCachedPeerId (peerName peerId : string) (fs : Files)
    : JS.Outcome unit * Files :=
  updating (fun cache =>
    '(cache, peers) ← ensureObject cache "peers";
    setWithin cache "peers" peers peerName (ofString peerId)) fs.

Definition getCachedSessionId (cwd : string) (fs : Files)
    : JS.Outcome (option Json.value) * Files :=
  reading (fun cache =>
    sessions ← readField cache "sessions";
    session ← optionally sessions (fun s => Json.getIndex s cwd);
    id ← optionally session (fun s => readField s "id");
    JS.Returns (Some (orNull id))) fs.

(** [now] is [new Date().toISOString()]. *)
Definition setCachedSessionId (now : string) (cwd name id : string) (fs : Files)
    : JS.Outcome unit * Files :=
  updating (fun cache =>
    '(cache, sessions) ← ensureObject cache "sessions";
    setWithin cache "sessions" sessions cwd
      (Json.Obj [(Json.codeUnits "name", ofString name);
                 (Json.codeUnits "id", ofString id);
                 (Json.codeUnits "updatedAt", ofString now)])) fs.

Definition getClaudeInstanceId (fs : Files) : JS.Outcome (option Json.value) * Files :=
  reading (fun cache =>
    instanceId ← readField cache "claudeInstanceId";
    JS.Returns (Some (orNull instanceId))) fs.

Definition setClaudeInstanceId (instanceId : string) (fs : Files)
    : JS.Outcome unit * Files :=
  updating (fun cache => Json.setIndex cache "claudeInstanceId" (ofString instanceId)) fs.

(** ** Summary of a session's work *)

(** One of the characters of [/[.!?\n]/]. *)
Definition endsSentence (c : ascii) : bool :=
  Ascii.eqb c "." || Ascii.eqb c "!" || Ascii.eqb c "?" || Ascii.eqb c JS.newline.

(** [msg.split(/[.!?\n]/)[0]] *)
Fixpoint firstSentence (msg : string) : string :=
  match msg with
  | EmptyString => EmptyString
  | String c rest => if endsSentence c then EmptyString else String c (firstSentence rest)
  end.

(** The loop over [assistantMessages.slice(-10)] that collects
    [actions]. *)
Definition collectActions (assistantMessages : list string) : list string :=
  fold_left
    (fun actions msg =>
       if JS.includes "Created" msg || JS.includes "Updated" msg || JS.includes "Fixed" msg
       then
         let sentence := firstSentence msg in
         if String.length sentence <? 200 then actions ++ [sentence] else actions
       else actions)
    (JS.sliceFrom assistantMessages (-10)) [].

Definition listItem (w : string) : string := "- " +:+ w.

(** [now] is [new Date().toISOString()]. *)
Definition generateClawdSummary (now : string) (sessionName : string)
    (workItems assistantMessages : list string) : string :=
  let actions := collectActions assistantMessages in
  let summary :=
    "# CLAWD Work Context" +:+ JS.nl +:+ JS.nl
    +:+ "Last updated: " +:+ now +:+ JS.nl
    +:+ "Session: " +:+ sessionName +:+ JS.nl +:+ JS.nl
    +:+ "## What CLAWD Was Working On" +:+ JS.nl +:+ JS.nl in
  let summary :=
    if Json.isNil workItems then summary
    else summary +:+ JS.join JS.nl (List.map listItem workItems) +:+ JS.nl +:+ JS.nl in
  let summary :=
    if Json.isNil actions then summary
    else summary +:+ "## Recent Actions" +:+ JS.nl +:+ JS.nl
         +:+ JS.join JS.nl (List.map listItem (JS.sliceFrom actions (-10)))
         +:+ JS.nl +:+ JS.nl in
  summary +:+ activityHeader +:+ JS.nl.

(** ** Clearing the caches *)

Definition clearAllCaches (fs : Files) : Files :=
  let fs := ensureCacheDir fs in
  let fs := match idCacheFile fs with Some _ => writeIdCache "{}" fs | None => fs end in
  let fs := match contextCacheFile fs with Some _ => writeContextCache "{}" fs | None => fs end in
  let fs := match messageQueueFile fs with
            | Some _ => writeMessageQueue EmptyString fs
            | None => fs
            end in
  fs.

(** [queueMessage] with its call of [getClaudeInstanceId()], which is made
    only when no [instanceId] is passed (or an empty one). *)
Definition queueMessageOn (now : string) (content peerId cwd : string)
    (instanceId : option string) (fs : Files) : JS.Outcome unit * Files :=
  match given instanceId with
  | Some _ => (JS.Returns tt, queueMessage now None content peerId cwd instanceId fs)
  | None =>
      match getClaudeInstanceId (ensureCacheDir fs) with
      | (JS.Returns (Some Json.Null), fs) =>
          (JS.Returns tt, queueMessage now None content peerId cwd instanceId fs)
      | (JS.Returns (Some (Json.Str us)), fs) =>
          match Json.latin1 us with
          | Some cached =>
              (JS.Returns tt, queueMessage now (Some cached) content peerId cwd instanceId fs)
          | None => (JS.Unembedded, fs)
          end
      | (JS.Returns _, fs) => (JS.Unembedded, fs)
      | (JS.Throws, fs) => (JS.Throws, fs)
      | (JS.Unembedded, fs) => (JS.Unembedded, fs)
      end
  end.

End Cache.

(* ===================================================================== *)
(** * src/context-format.ts                                               *)
(* ===================================================================== *)

Module ContextFormat.

(** [Math.ceil(text.length / 4)] *)
Definition estimateTokens (text : string) : Z :=
  Qceiling (Z.of_nat (String.length text) # 4).

Definition truncateToTokens (text : string) (maxTokens : Z) : string :=
  let maxChars := (maxTokens * 4)%Z in
  if (Z.of_nat (String.length text) <=? maxChars)%Z then text
  else JS.sliceString text 0 (maxChars - 3) +:+ "...".

(** ** Types *)

Inductive ContextTier : Type := essential | extended | deep.

Record ContextConfig : Type := {
  tier : ContextTier;
  maxTokens : option Z;
  includeDialectic : option bool;
  compressedFormat : option bool
}.

Record ExplicitFact : Type := { content : string; source : option string }.

Record Deduction : Type := { conclusion : string; premises : option (list string) }.

Record UserContext : Type := {
  peerCard : option (list string);
  explicit : option (list ExplicitFact);
  deductive : option (list Deduction)
}.

Record SessionContext : Type := {
  shortSummary : option string;
  longSummary : option string
}.

Record GitContext : Type := {
  branch : option string;
  commit : option string;
  isDirty : option bool;
  dirtyFiles : option (list string)
}.

Inductive Confidence : Type := high | medium | low.

Definition confidenceText (c : Confidence) : string :=
  match c with high => "high" | medium => "medium" | low => "low" end.

Record FeatureContext : Type := {
  type : string;
  description : string;
  keywords : option (list string);
  areas : option (list string);
  confidence : Confidence
}.

Module User.
Record t : Type := {
  name : string;
  context : option UserContext;
  dialectic : option string
}.
End User.

Module Ai.
Record t : Type := {
  name : string;
  context : option UserContext;
  dialectic : option string;
  localWork : option string
}.
End Ai.

Module Session.
Record t : Type := {
  name : string;
  workspace : string;
  cwd : string;
  context : option SessionContext
}.
End Session.

Record FullContext : Type := {
  user : User.t;
  ai : Ai.t;
  session : Session.t;
  git : option GitContext;
  feature : option FeatureContext;
  changes : option (list string)
}.

(** ** Truthiness of optional fields *)

(** [x?.length] is truthy: the array is there and not empty. *)
Definition items {A : Type} (xs : option (list A)) : option (list A) :=
  match xs with
  | Some (x :: rest) => Some (x :: rest)
  | _ => None
  end.

(** An optional string is truthy: it is there and not empty. *)
Definition text (s : option string) : option string :=
  match s with
  | Some t => if JS.truthy t then Some t else None
  | None => None
  end.

(** An optional boolean is truthy. *)
Definition flag (b : option bool) : bool :=
  match b with Some true => true | _ => false end.

(** [xs?.length || 0] *)
Definition countOf {A : Type} (xs : option (list A)) : nat :=
  match xs with Some l => length l | None => 0 end.

(** ** Tier budgets *)

Record UserBudget : Type := { facts : Z; insights : Z; profile : Z }.
Record AiBudget : Type := { aiFacts : Z; work : Z }.
Record SessionBudget : Type := { summary : Z }.

Record Budget : Type := {
  total : Z;
  userBudget : UserBudget;
  aiBudget : AiBudget;
  sessionBudget : SessionBudget;
  header : Z
}.

Definition TIER_BUDGETS (t : ContextTier) : Budget :=
  match t with
  | essential =>
      {| total := 300;
         userBudget := {| facts := 3; insights := 2; profile := 50 |};
         aiBudget := {| aiFacts := 3; work := 100 |};
         sessionBudget := {| summary := 50 |};
         header := 80 |}
  | extended =>
      {| total := 800;
         userBudget := {| facts := 8; insights := 5; profile := 100 |};
         aiBudget := {| aiFacts := 8; work := 200 |};
         sessionBudget := {| summary := 150 |};
         header := 100 |}
  | deep =>
      {| total := 2000;
         userBudget := {| facts := 15; insights := 10; profile := 150 |};
         aiBudget := {| aiFacts := 15; work := 400 |};
         sessionBudget := {| summary := 400 |};
         header := 150 |}
  end.

(** ** Compressed format builders *)

Definition buildCompactHeader (ctx : FullContext) : string :=
  let parts :=
    ["user=" +:+ User.name (user ctx);
     "ai=" +:+ Ai.name (ai ctx);
     "ws=" +:+ Session.workspace (session ctx);
     "session=" +:+ Session.name (session ctx)] in
  let parts :=
    match text (git ctx ≫= branch) with
    | Some b => parts ++ ["branch=" +:+ b]
    | None => parts
    end in
  let parts :=
    match text (git ctx ≫= commit) with
    | Some c => parts ++ ["head=" +:+ JS.sliceString c 0 7]
    | None => parts
    end in
  let parts :=
    if flag (git ctx ≫= isDirty)
    then parts ++ ["dirty=" +:+ JS.numberToString (countOf (git ctx ≫= dirtyFiles))]
    else parts in
  JS.join " | " parts.

(** [if (s) lines.push(prefix + s)] *)
Definition pushIfText (lines : list string) (prefix s : string) : list string :=
  if JS.truthy s then lines ++ [prefix +:+ s] else lines.

Definition buildCompactUserFacts (context : option UserContext)
    (maxFacts maxInsights : Z) : list string :=
  let lines := [] in
  let lines :=
    match items (context ≫= explicit) with
    | Some es =>
        pushIfText lines "facts: "
          (JS.join "; " (List.map content (JS.sliceArray es 0 maxFacts)))
    | None => lines
    end in
  let lines :=
    match items (context ≫= deductive) with
    | Some ds =>
        pushIfText lines "insights: "
          (JS.join "; " (List.map conclusion (JS.sliceArray ds 0 maxInsights)))
    | None => lines
    end in
  let lines :=
    match items (context ≫= peerCard) with
    | Some cs => pushIfText lines "profile: " (JS.join "; " (JS.sliceArray cs 0 3))
    | None => lines
    end in
  lines.

Definition buildCompactAIWork (context : option UserContext)
    (localWork : option string) (maxFacts maxWorkChars : Z) : list string :=
  let lines := [] in
  let lines :=
    match items (context ≫= explicit) with
    | Some es =>
        pushIfText lines "recent: "
          (JS.join "; " (List.map content (JS.sliceArray es 0 maxFacts)))
    | None => lines
    end in
  let lines :=
    match text localWork with
    | Some w => lines ++ ["local: " +:+ JS.sliceString w 0 maxWorkChars]
    | None => lines
    end in
  lines.

Definition buildCompactFeature (feature : option FeatureContext) : string :=
  match feature with
  | None => EmptyString
  | Some f =>
      match confidence f with
      | low => EmptyString
      | _ =>
          let parts := [type f +:+ ": " +:+ description f] in
          let parts :=
            match items (keywords f) with
            | Some ks => parts ++ ["keywords=[" +:+ JS.join "," (JS.sliceArray ks 0 5) +:+ "]"]
            | None => parts
            end in
          let parts :=
            match items (areas f) with
            | Some ars => parts ++ ["areas=[" +:+ JS.join "," (JS.sliceArray ars 0 3) +:+ "]"]
            | None => parts
            end in
          JS.join " " parts
      end
  end.

(** ** Verbose format builders *)

Definition bullet (s : string) : string := "- " +:+ s.

Definition buildVerboseHeader (ctx : FullContext) : list string :=
  let lines :=
    ["## Session Context";
     "- User: " +:+ User.name (user ctx);
     "- AI: " +:+ Ai.name (ai ctx);
     "- Workspace: " +:+ Session.workspace (session ctx);
     "- Session: " +:+ Session.name (session ctx);
     "- Directory: " +:+ Session.cwd (session ctx)] in
  match text (git ctx ≫= branch) with
  | Some b =>
      let lines := lines ++ ["- Branch: " +:+ b] in
      let lines :=
        match text (git ctx ≫= commit) with
        | Some c => lines ++ ["- HEAD: " +:+ c]
        | None => lines
        end in
      if flag (git ctx ≫= isDirty)
      then lines ++ ["- Uncommitted: "
                     +:+ JS.numberToString (countOf (git ctx ≫= dirtyFiles)) +:+ " files"]
      else lines
  | None => lines
  end.

Definition insightLine (d : Deduction) : string :=
  let source :=
    match items (premises d) with
    | Some ps => " (from: " +:+ JS.join ", " ps +:+ ")"
    | None => EmptyString
    end in
  "- " +:+ conclusion d +:+ source.

Definition buildVerboseUserContext (name : string) (context : option UserContext)
    (dialectic : option string) (maxFacts maxInsights : Z) : list string :=
  let sections := [] in
  let sections :=
    match items (context ≫= peerCard) with
    | Some cs => sections ++ [("## " +:+ name +:+ "'s Profile")] ++ List.map bullet cs
    | None => sections
    end in
  let sections :=
    match items (context ≫= explicit) with
    | Some es =>
        sections ++ ["## What I Know About " +:+ name; "### Facts"]
        ++ List.map (fun e => bullet (content e)) (JS.sliceArray es 0 maxFacts)
    | None => sections
    end in
  let sections :=
    match items (context ≫= deductive) with
    | Some ds =>
        sections ++ ["### Insights"]
        ++ List.map insightLine (JS.sliceArray ds 0 maxInsights)
    | None => sections
    end in
  let sections :=
    match text dialectic with
    | Some d => sections ++ ["## AI Summary of " +:+ name; d]
    | None => sections
    end in
  sections.

Definition buildVerboseAIContext (name : string) (context : option UserContext)
    (dialectic localWork : option string) (maxFacts maxWorkChars : Z) : list string :=
  let sections := [] in
  let sections :=
    match text localWork with
    | Some w =>
        sections ++ [("## " +:+ name +:+ "'s Local Context"); JS.sliceString w 0 maxWorkChars]
    | None => sections
    end in
  let sections :=
    match items (context ≫= explicit) with
    | Some es =>
        sections ++ [("## " +:+ name +:+ "'s Work History")]
        ++ List.map (fun e => bullet (content e)) (JS.sliceArray es 0 maxFacts)
    | None => sections
    end in
  let sections :=
    match text dialectic with
    | Some d => sections ++ ["## AI Self-Reflection"; d]
    | None => sections
    end in
  sections.

Definition buildVerboseSessionSummary (session : option SessionContext) : list string :=
  let sections := [] in
  let sections :=
    match text (session ≫= shortSummary) with
    | Some s => sections ++ ["## Recent Session Summary"; s]
    | None => sections
    end in
  let sections :=
    match text (session ≫= longSummary) with
    | Some s => sections ++ ["## Extended History"; s]
    | None => sections
    end in
  sections.

(** ** Main formatters *)

Definition isEssential (t : ContextTier) : bool :=
  match t with essential => true | _ => false end.

Definition isDeep (t : ContextTier) : bool :=
  match t with deep => true | _ => false end.

(** The array [sections] of [formatCompressedContext] before the final
    [join]. *)
Definition compressedSections (ctx : FullContext) (config : ContextConfig) : list string :=
  let budget := TIER_BUDGETS (tier config) in
  let sections := ["[honcho-memory]"; buildCompactHeader ctx] in
  let sections :=
    match feature ctx with
    | Some _ =>
        let featureLine := buildCompactFeature (feature ctx) in
        if JS.truthy featureLine then sections ++ ["feature: " +:+ featureLine] else sections
    | None => sections
    end in
  let sections :=
    match items (changes ctx) with
    | Some cs => sections ++ ["changes: " +:+ JS.join "; " (JS.sliceArray cs 0 3)]
    | None => sections
    end in
  let sections := sections ++ ["[" +:+ User.name (user ctx) +:+ "]"] in
  let sections :=
    sections ++ buildCompactUserFacts (User.context (user ctx))
                  (facts (userBudget budget)) (insights (userBudget budget)) in
  let sections := sections ++ ["[" +:+ Ai.name (ai ctx) +:+ "]"] in
  let sections :=
    sections ++ buildCompactAIWork (Ai.context (ai ctx)) (Ai.localWork (ai ctx))
                  (aiFacts (aiBudget budget)) (work (aiBudget budget)) in
  let sections :=
    if negb (isEssential (tier config)) then
      match text (Session.context (session ctx) ≫= shortSummary) with
      | Some s =>
          sections ++ ["[session]";
                       "summary: " +:+ truncateToTokens s (summary (sessionBudget budget))]
      | None => sections
      end
    else sections in
  let sections :=
    if isDeep (tier config) && flag (includeDialectic config) then
      let sections :=
        match text (User.dialectic (user ctx)) with
        | Some d => sections ++ ["[" +:+ User.name (user ctx) +:+ "/ai-understanding]"; d]
        | None => sections
        end in
      match text (Ai.dialectic (ai ctx)) with
      | Some d => sections ++ ["[" +:+ Ai.name (ai ctx) +:+ "/self-reflection]"; d]
      | None => sections
      end
    else sections in
  sections ++ ["[end-memory]"].

Definition formatCompressedContext (ctx : FullContext) (config : ContextConfig) : string :=
  JS.join JS.nl (compressedSections ctx config).

(** The array [sections] of [formatVerboseContext] before the final
    [join]. *)
Definition verboseSections (ctx : FullContext) (config : ContextConfig) : list string :=
  let budget := TIER_BUDGETS (tier config) in
  let sections := buildVerboseHeader ctx in
  let sections :=
    match feature ctx with
    | Some f =>
        match confidence f with
        | low => sections
        | _ =>
            let sections :=
              sections ++ ["## Inferred Feature Context";
                           "- Type: " +:+ type f;
                           "- Description: " +:+ description f] in
            let sections :=
              match items (keywords f) with
              | Some ks => sections ++ ["- Keywords: " +:+ JS.join ", " ks]
              | None => sections
              end in
            let sections :=
              match items (areas f) with
              | Some ars => sections ++ ["- Areas: " +:+ JS.join ", " ars]
              | None => sections
              end in
            sections ++ ["- Confidence: " +:+ confidenceText (confidence f)]
        end
    | None => sections
    end in
  let sections :=
    match items (changes ctx) with
    | Some cs => sections ++ ["## Git Activity Since Last Session"] ++ List.map bullet cs
    | None => sections
    end in
  let sections :=
    sections ++ buildVerboseUserContext (User.name (user ctx)) (User.context (user ctx))
                  (if flag (includeDialectic config) then User.dialectic (user ctx) else None)
                  (facts (userBudget budget)) (insights (userBudget budget)) in
  let sections :=
    sections ++ buildVerboseAIContext (Ai.name (ai ctx)) (Ai.context (ai ctx))
                  (if flag (includeDialectic config) then Ai.dialectic (ai ctx) else None)
                  (Ai.localWork (ai ctx))
                  (aiFacts (aiBudget budget)) (work (aiBudget budget)) in
  let sections :=
    if negb (isEssential (tier config))
    then sections ++ buildVerboseSessionSummary (Session.context (session ctx))
    else sections in
  sections.

Definition formatVerboseContext (ctx : FullContext) (config : ContextConfig) : string :=
  JS.join JS.nl (verboseSections ctx config).

Definition formatContext (ctx : FullContext) (config : ContextConfig) : string :=
  if flag (compressedFormat config) then formatCompressedContext ctx config
  else formatVerboseContext ctx config.

(** ** Deduplication *)

(** [f.toLowerCase().split(/\s+/).filter((w) => w.length > 3)] *)
Definition keywordsOf (f : string) : list string :=
  List.filter (fun w => 3 <? String.length w) (JS.splitWhitespace (JS.toLowerCase f)).

(** [fact.keywords.filter((k) => seenKeywords.has(k)).length] *)
Definition overlapCount (seen : gset string) (kws : list string) : nat :=
  length (List.filter (fun k => bool_decide (k ∈ seen)) kws).

(** [overlap / Math.max(fact.keywords.length, 1)].  Both operands are
    array lengths, so the double quotient is below one half exactly when
    the rational one is. *)
Definition overlapRatio (seen : gset string) (kws : list string) : Q :=
  (inject_Z (Z.of_nat (overlapCount seen kws))
   / inject_Z (Z.of_nat (Nat.max (length kws) 1)))%Q.

(** [fact.keywords.forEach((k) => seenKeywords.add(k))] *)
Definition addAll (kws : list string) (seen : gset string) : gset string :=
  fold_left (fun acc k => {[k]} ∪ acc) kws seen.

(** One turn of the [for] loop over [normalized]; the state is
    [(unique, seenKeywords)]. *)
Definition dedupStep (st : list string * gset string) (fact : string * list string)
    : list string * gset string :=
  let '(unique, seenKeywords) := st in
  let '(original, kws) := fact in
  if Qlt_le_dec (overlapRatio seenKeywords kws) (1 # 2)
  then (unique ++ [original], addAll kws seenKeywords)
  else st.

Definition deduplicateFacts (facts : list string) : list string :=
  if length facts <=? 1 then facts
  else
    let normalized := List.map (fun f => (f, keywordsOf f)) facts in
    fst (fold_left dedupStep normalized ([], ∅)).

(** ** Prompt context *)

Definition formatPromptContext (peerName : string) (context : option UserContext) : string :=
  let parts := [] in
  let parts :=
    match items (context ≫= explicit) with
    | Some es =>
        parts ++ ["facts: " +:+ JS.join "; " (List.map content (JS.sliceArray es 0 5))]
    | None => parts
    end in
  let parts :=
    match items (context ≫= deductive) with
    | Some ds =>
        parts ++ ["insights: " +:+ JS.join "; " (List.map conclusion (JS.sliceArray ds 0 3))]
    | None => parts
    end in
  let parts :=
    match items (context ≫= peerCard) with
    | Some cs => parts ++ ["profile: " +:+ JS.join "; " (JS.sliceArray cs 0 2)]
    | None => parts
    end in
  if Json.isNil parts then EmptyString
  else "[Honcho/" +:+ peerName +:+ "] " +:+ JS.join " | " parts.

(** ** Memory anchor *)

(** The array [sections] of [formatMemoryAnchor] before the final
    [join]. *)
Definition anchorSections (ctx : FullContext) : list string :=
  let userName := User.name (user ctx) in
  let aiName := Ai.name (ai ctx) in
  let sections :=
    ["## HONCHO MEMORY ANCHOR (Pre-Compaction)";
     "Critical context to preserve in summary:" +:+ JS.nl;
     "### Session Identity (PRESERVE)";
     "- User: " +:+ userName;
     "- AI: " +:+ aiName;
     "- Session: " +:+ Session.name (session ctx)] in
  let sections :=
    match text (git ctx ≫= branch) with
    | Some b => sections ++ ["- Branch: " +:+ b]
    | None => sections
    end in
  let sections :=
    match items (User.context (user ctx) ≫= peerCard) with
    | Some cs =>
        sections ++ [JS.nl +:+ "### " +:+ userName +:+ "'s Profile (PRESERVE)"]
        ++ List.map bullet (JS.sliceArray cs 0 5)
    | None => sections
    end in
  let sections :=
    match items (User.context (user ctx) ≫= explicit) with
    | Some es =>
        sections ++ [JS.nl +:+ "### Key Facts About " +:+ userName +:+ " (PRESERVE)"]
        ++ List.map (fun e => bullet (content e)) (JS.sliceArray es 0 10)
    | None => sections
    end in
  let sections :=
    match items (User.context (user ctx) ≫= deductive) with
    | Some ds =>
        sections ++ [JS.nl +:+ "### " +:+ userName +:+ "'s Patterns (PRESERVE)"]
        ++ List.map (fun d => bullet (conclusion d)) (JS.sliceArray ds 0 5)
    | None => sections
    end in
  let sections :=
    match items (Ai.context (ai ctx) ≫= explicit) with
    | Some es =>
        sections ++ [JS.nl +:+ "### " +:+ aiName +:+ "'s Recent Work (PRESERVE)"]
        ++ List.map (fun e => bullet (content e)) (JS.sliceArray es 0 8)
    | None => sections
    end in
  let sections :=
    match text (Session.context (session ctx) ≫= shortSummary) with
    | Some s => sections ++ [JS.nl +:+ "### Session Context (PRESERVE)"; s]
    | None => sections
    end in
  let sections :=
    match text (User.dialectic (user ctx)) with
    | Some d =>
        sections ++ [JS.nl +:+ "### AI Understanding of " +:+ userName +:+ " (PRESERVE)"; d]
    | None => sections
    end in
  let sections :=
    match text (Ai.dialectic (ai ctx)) with
    | Some d => sections ++ [JS.nl +:+ "### " +:+ aiName +:+ "'s Self-Reflection (PRESERVE)"; d]
    | None => sections
    end in
  sections ++ [JS.nl +:+ "### End Memory Anchor";
               "The above context represents persistent memory from Honcho.";
               "When summarizing, ensure these facts are preserved."].

Definition formatMemoryAnchor (ctx : FullContext) : string :=
  JS.join JS.nl (anchorSections ctx).

End ContextFormat.

(* ===================================================================== *)
(** * src/hooks/session-start.ts                                          *)
(* ===================================================================== *)

Module SessionStart.

(** The characters of the class [a-z0-9-_]. *)
Definition isNameChar (c : ascii) : bool :=
  let n := nat_of_ascii c in
  ((97 <=? n) && (n <=? 122)) || ((48 <=? n) && (n <=? 57)) || (n =? 45) || (n =? 95).

(** [s.replace(/[^a-z0-9-_]/g, "-")] *)
Fixpoint replaceOthers (s : string) : string :=
  match s with
  | EmptyString => EmptyString
  | String c rest => String (if isNameChar c then c else "-") (replaceOthers rest)
  end.

(** [configuredSession] is the result of [getSessionForPath(cwd)] (from
    [../config.js]) and [base] that of [basename(cwd)] (from [path]). *)
Definition getSessionName (configuredSession : option string) (base : string) : string :=
  match ContextFormat.text configuredSession with
  | Some s => s
  | None => replaceOthers (JS.toLowerCase base)
  end.

(** An element of [rep.explicit]: an object with a [content], or a plain
    string. *)
Inductive Observation : Type :=
| Plain (s : string)
| WithContent (content : option string).

(** The argument [rep] of [formatRepresentation], read through the fields
    the function uses. *)
Record Representation : Type := {
  explicit : option (list Observation);
  deductive : option (list ContextFormat.Deduction)
}.

(** [`- ${e.content || e}`]; an object without content prints as
    [[object Object]]. *)
Definition observationLine (e : Observation) : string :=
  "- " +:+ match e with
           | Plain s => s
           | WithContent (Some c) => if JS.truthy c then c else "[object Object]"
           | WithContent None => "[object Object]"
           end.

(** [`- ${d.conclusion} (from: ${d.premises?.join(", ") || "prior observations"})`] *)
Definition deductionLine (d : ContextFormat.Deduction) : string :=
  let source :=
    match ContextFormat.premises d with
    | Some ps => if JS.truthy (JS.join ", " ps) then JS.join ", " ps else "prior observations"
    | None => "prior observations"
    end in
  "- " +:+ ContextFormat.conclusion d +:+ " (from: " +:+ source +:+ ")".

Definition formatRepresentation (rep : option Representation) : string :=
  let parts := [] in
  let parts :=
    match ContextFormat.items (rep ≫= explicit) with
    | Some es =>
        parts ++ ["### Explicit Facts" +:+ JS.nl
                  +:+ JS.join JS.nl (List.map observationLine (JS.sliceArray es 0 15))]
    | None => parts
    end in
  let parts :=
    match ContextFormat.items (rep ≫= deductive) with
    | Some ds =>
        parts ++ ["### Deduced Insights" +:+ JS.nl
                  +:+ JS.join JS.nl (List.map deductionLine (JS.sliceArray ds 0 10))]
    | None => parts
    end in
  JS.join (JS.nl +:+ JS.nl) parts.

End SessionStart.

(* ===================================================================== *)
(** * Specification-level definitions                                     *)
(* ===================================================================== *)

(** Definitions written after the words of the specification, to be
    compared with the embedded code. *)
Module Spec.

(** Whitespace-separated words: the maximal runs of characters that are
    not white space.  [word] is the run being read. *)
Fixpoint wordsFrom (word : string) (s : string) : list string :=
  match s with
  | EmptyString => if JS.truthy word then [word] else []
  | String c rest =>
      if JS.isWhiteSpace c
      then (if JS.truthy word then word :: wordsFrom EmptyString rest
            else wordsFrom EmptyString rest)
      else wordsFrom (word +:+ String c EmptyString) rest
  end.

(** The keywords of a fact: its lowercase whitespace-separated words longer
    than 3 characters. *)
Definition keywords (fact : string) : list string :=
  List.filter (fun w => 3 <? String.length w) (wordsFrom EmptyString (JS.toLowerCase fact)).

(** (keywords already in the seen-set) / max(keyword count, 1) *)
Definition overlapRatio (seen : gset string) (kws : list string) : Q :=
  Z.of_nat (length (List.filter (fun k => bool_decide (k ∈ seen)) kws))
  # Pos.of_nat (Nat.max (length kws) 1).

(** Facts in input order over a running seen-set: a fact is kept, and its
    keywords join the seen-set, only if its overlap ratio is below 0.5;
    otherwise it is dropped. *)
Fixpoint dedupFrom (seen : gset string) (facts : list string) : list string :=
  match facts with
  | [] => []
  | fact :: later =>
      if Qlt_le_dec (overlapRatio seen (keywords fact)) (1 # 2)
      then fact :: dedupFrom (seen ∪ list_to_set (keywords fact)) later
      else dedupFrom seen later
  end.

(** A list of length at most 1 is returned unchanged. *)
Definition dedup (facts : list string) : list string :=
  match facts with
  | [] | [_] => facts
  | _ => dedupFrom ∅ facts
  end.

(** [ctx] with the two dialectic texts replaced. *)
Definition withDialectic (userText aiText : option string) (ctx : ContextFormat.FullContext)
    : ContextFormat.FullContext :=
  let u := ContextFormat.user ctx in
  let a := ContextFormat.ai ctx in
  {| ContextFormat.user :=
       {| ContextFormat.User.name := ContextFormat.User.name u;
          ContextFormat.User.context := ContextFormat.User.context u;
          ContextFormat.User.dialectic := userText |};
     ContextFormat.ai :=
       {| ContextFormat.Ai.name := ContextFormat.Ai.name a;
          ContextFormat.Ai.context := ContextFormat.Ai.context a;
          ContextFormat.Ai.dialectic := aiText;
          ContextFormat.Ai.localWork := ContextFormat.Ai.localWork a |};
     ContextFormat.session := ContextFormat.session ctx;
     ContextFormat.git := ContextFormat.git ctx;
     ContextFormat.feature := ContextFormat.feature ctx;
     ContextFormat.changes := ContextFormat.changes ctx |}.

(** [getUserContext] returns the stored data iff the section is younger
    than the TTL. *)
Definition storedDataIffFresh : Prop :=
  forall (now : Z) (config : Cache.ContextRefreshConfig) (cache : Cache.ContextCache)
         (section : Cache.CachedSection),
    Cache.userContext cache = Some section ->
    Cache.getCachedUserContext now config cache = Cache.data section
    <-> (now - Cache.fetchedAt section < Cache.getContextTTL config)%Z.

(** Dialectic text is included only at the deepest tier and only if
    explicitly requested: in every other configuration the rendering does
    not depend on the dialectic texts. *)
Definition dialecticOnlyAtDeepestTierOnRequest
    (format : ContextFormat.FullContext -> ContextFormat.ContextConfig -> string) : Prop :=
  forall ctx config userText aiText,
    ContextFormat.isDeep (ContextFormat.tier config)
    && ContextFormat.flag (ContextFormat.includeDialectic config) = false ->
    format (withDialectic userText aiText ctx) config = format ctx config.

(** Dialectic text is included only if explicitly requested, whatever the
    tier. *)
Definition dialecticOnlyOnRequest
    (format : ContextFormat.FullContext -> ContextFormat.ContextConfig -> string) : Prop :=
  forall ctx config userText aiText,
    ContextFormat.flag (ContextFormat.includeDialectic config) = false ->
    format (withDialectic userText aiText ctx) config = format ctx config.

(** The two modes differ only in markup density, not in the information
    selected: two contexts that one mode renders alike, the other mode
    renders alike too. *)
Definition sameInformationSelected : Prop :=
  forall ctx ctx' config,
    ContextFormat.formatCompressedContext ctx config
    = ContextFormat.formatCompressedContext ctx' config
    <-> ContextFormat.formatVerboseContext ctx config
        = ContextFormat.formatVerboseContext ctx' config.

(** A peer context cut down to what a budget admits: the first [maxFacts]
    facts and the first [maxInsights] insights. *)
Definition capContext (maxFacts maxInsights : Z) (c : ContextFormat.UserContext)
    : ContextFormat.UserContext :=
  {| ContextFormat.peerCard := ContextFormat.peerCard c;
     ContextFormat.explicit :=
       option_map (fun es => JS.sliceArray es 0 maxFacts) (ContextFormat.explicit c);
     ContextFormat.deductive :=
       option_map (fun ds => JS.sliceArray ds 0 maxInsights) (ContextFormat.deductive c) |}.

(** A peer context with only its first [maxFacts] facts. *)
Definition capFacts (maxFacts : Z) (c : ContextFormat.UserContext)
    : ContextFormat.UserContext :=
  {| ContextFormat.peerCard := ContextFormat.peerCard c;
     ContextFormat.explicit :=
       option_map (fun es => JS.sliceArray es 0 maxFacts) (ContextFormat.explicit c);
     ContextFormat.deductive := ContextFormat.deductive c |}.

(** [ctx] cut down to what the budget of tier [t] admits: user facts and
    insights, AI facts, and the leading characters of the local work text. *)
Definition capToBudget (t : ContextFormat.ContextTier) (ctx : ContextFormat.FullContext)
    : ContextFormat.FullContext :=
  let b := ContextFormat.TIER_BUDGETS t in
  let u := ContextFormat.user ctx in
  let a := ContextFormat.ai ctx in
  {| ContextFormat.user :=
       {| ContextFormat.User.name := ContextFormat.User.name u;
          ContextFormat.User.context :=
            option_map (capContext (ContextFormat.facts (ContextFormat.userBudget b))
                                   (ContextFormat.insights (ContextFormat.userBudget b)))
                       (ContextFormat.User.context u);
          ContextFormat.User.dialectic := ContextFormat.User.dialectic u |};
     ContextFormat.ai :=
       {| ContextFormat.Ai.name := ContextFormat.Ai.name a;
          ContextFormat.Ai.context :=
            option_map (capFacts (ContextFormat.aiFacts (ContextFormat.aiBudget b)))
                       (ContextFormat.Ai.context a);
          ContextFormat.Ai.dialectic := ContextFormat.Ai.dialectic a;
          ContextFormat.Ai.localWork :=
            option_map (fun w => JS.sliceString w 0 (ContextFormat.work (ContextFormat.aiBudget b)))
                       (ContextFormat.Ai.localWork a) |};
     ContextFormat.session := ContextFormat.session ctx;
     ContextFormat.git := ContextFormat.git ctx;
     ContextFormat.feature := ContextFormat.feature ctx;
     ContextFormat.changes := ContextFormat.changes ctx |}.

(** [ctx] with the context of its user peer changed by [change]. *)
Definition withUserContext
    (change : ContextFormat.UserContext -> ContextFormat.UserContext)
    (ctx : ContextFormat.FullContext) : ContextFormat.FullContext :=
  let u := ContextFormat.user ctx in
  {| ContextFormat.user :=
       {| ContextFormat.User.name := ContextFormat.User.name u;
          ContextFormat.User.context := option_map change (ContextFormat.User.context u);
          ContextFormat.User.dialectic := ContextFormat.User.dialectic u |};
     ContextFormat.ai := ContextFormat.ai ctx;
     ContextFormat.session := ContextFormat.session ctx;
     ContextFormat.git := ContextFormat.git ctx;
     ContextFormat.feature := ContextFormat.feature ctx;
     ContextFormat.changes := ContextFormat.changes ctx |}.

(** [ctx] with the context and the local work text of its AI peer changed
    by [change] and [changeWork]. *)
Definition withAiContext
    (change : ContextFormat.UserContext -> ContextFormat.UserContext)
    (changeWork : string -> string)
    (ctx : ContextFormat.FullContext) : ContextFormat.FullContext :=
  let a := ContextFormat.ai ctx in
  {| ContextFormat.user := ContextFormat.user ctx;
     ContextFormat.ai :=
       {| ContextFormat.Ai.name := ContextFormat.Ai.name a;
          ContextFormat.Ai.context := option_map change (ContextFormat.Ai.context a);
          ContextFormat.Ai.dialectic := ContextFormat.Ai.dialectic a;
          ContextFormat.Ai.localWork := option_map changeWork (ContextFormat.Ai.localWork a) |};
     ContextFormat.session := ContextFormat.session ctx;
     ContextFormat.git := ContextFormat.git ctx;
     ContextFormat.feature := ContextFormat.feature ctx;
     ContextFormat.changes := ContextFormat.changes ctx |}.

(** A peer context with its fact at position [i] replaced by [e], and
    with its insight at position [i] replaced by [d]; positions count from
    0, and a context without that position is left as it is. *)
Definition replaceFact (i : nat) (e : ContextFormat.ExplicitFact)
    (c : ContextFormat.UserContext) : ContextFormat.UserContext :=
  {| ContextFormat.peerCard := ContextFormat.peerCard c;
     ContextFormat.explicit := option_map (fun es => <[i := e]> es) (ContextFormat.explicit c);
     ContextFormat.deductive := ContextFormat.deductive c |}.

Definition replaceInsight (i : nat) (d : ContextFormat.Deduction)
    (c : ContextFormat.UserContext) : ContextFormat.UserContext :=
  {| ContextFormat.peerCard := ContextFormat.peerCard c;
     ContextFormat.explicit := ContextFormat.explicit c;
     ContextFormat.deductive :=
       option_map (fun ds => <[i := d]> ds) (ContextFormat.deductive c) |}.

(** [s] with its character at position [i] replaced by [c]. *)
Fixpoint replaceChar (i : nat) (c : ascii) (s : string) : string :=
  match s, i with
  | EmptyString, _ => EmptyString
  | String _ rest, O => String c rest
  | String a rest, S j => String a (replaceChar j c rest)
  end.

(** The rendering reads what [change] replaces: there is a context whose
    rendering changes with the replacement. *)
Definition reads
    (format : ContextFormat.FullContext -> ContextFormat.ContextConfig -> string)
    (config : ContextFormat.ContextConfig)
    (change : ContextFormat.FullContext -> ContextFormat.FullContext) : Prop :=
  exists ctx, format (change ctx) config <> format ctx config.

(** A mode draws its caps from the budget table: at every tier it reads
    the user's facts and insights, the AI's facts and the characters of the
    work text up to the caps the table gives for that tier, and no further.
    No further: the rendering is the same when the context is cut down to
    the caps.  Up to the caps: every position below a cap is read. *)
Definition drawsFromBudgetTable
    (format : ContextFormat.FullContext -> ContextFormat.ContextConfig -> string) : Prop :=
  forall config,
    let b := ContextFormat.TIER_BUDGETS (ContextFormat.tier config) in
    (forall ctx, format (capToBudget (ContextFormat.tier config) ctx) config = format ctx config)
    /\ (forall i, (Z.of_nat i < ContextFormat.facts (ContextFormat.userBudget b))%Z ->
          exists e, reads format config (withUserContext (replaceFact i e)))
    /\ (forall i, (Z.of_nat i < ContextFormat.insights (ContextFormat.userBudget b))%Z ->
          exists d, reads format config (withUserContext (replaceInsight i d)))
    /\ (forall i, (Z.of_nat i < ContextFormat.aiFacts (ContextFormat.aiBudget b))%Z ->
          exists e, reads format config (withAiContext (replaceFact i e) id))
    /\ (forall i, (Z.of_nat i < ContextFormat.work (ContextFormat.aiBudget b))%Z ->
          exists c, reads format config (withAiContext id (replaceChar i c))).

(** The message queue read as the specification words it: each non-blank
    line parsed on its own, a line that does not yield a message dropped,
    the messages with [uploaded] not set kept, then those of the given
    working directory; in file order. *)
Definition pendingOfLine (forCwd : option string) (line : string) : list Json.value :=
  match Json.parse line with
  | Some msg =>
      match Json.getProp msg "uploaded", Json.getProp msg "cwd" with
      | Some u, Some c =>
          if Json.toBoolean u then []
          else match Cache.given forCwd with
               | Some d => if Json.strictEqualsString c d then [msg] else []
               | None => [msg]
               end
      | _, _ => []
      end
  | None => []
  end.

Definition pendingMessages (forCwd : option string) (text : string) : list Json.value :=
  List.concat (List.map (pendingOfLine forCwd) (Cache.nonBlankLines text)).

(** A parse failure on one line is not fatal to the read. *)
Definition readSurvivesBadLines : Prop :=
  forall (fs : Cache.Files) (text : string),
    Cache.messageQueueFile fs = Some text ->
    fst (Cache.getQueuedMessages None fs) = pendingMessages None text.

(** The lines of the queue file. *)
Definition queueLines (fs : Cache.Files) : list string :=
  match Cache.messageQueueFile fs with
  | Some text => Cache.nonBlankLines text
  | None => []
  end.

(** A line that fails to parse is conservatively retained by
    [markUploaded(d)]. *)
Definition uploadRetainsUnparseableLines : Prop :=
  forall (fs : Cache.Files) (d line : string),
    JS.truthy d = true ->
    In line (queueLines fs) ->
    Json.parse line = None ->
    In line (queueLines (Cache.markMessagesUploaded (Some d) fs)).

End Spec.

(* ===================================================================== *)
(** * Auxiliary definitions                                               *)
(* ===================================================================== *)

(** [contains c s]: the code unit [c] occurs in [s]. *)
Fixpoint contains (c : ascii) (s : string) : bool :=
  match s with
  | EmptyString => false
  | String c' rest => Ascii.eqb c' c || contains c rest
  end.

(** A line of a text file: no line feed in it, and not blank. *)
Definition isLine (s : string) : Prop :=
  contains JS.newline s = false /\ JS.truthy (JS.trim s) = true.

(** The text whose lines are [ls], each ended by a line feed. *)
Fixpoint unlines (ls : list string) : string :=
  match ls with
  | [] => EmptyString
  | l :: rest => l +:+ JS.nl +:+ unlines rest
  end.

(** The value [JSON.parse] gives back for a serialised message. *)
Definition messageValue (m : Cache.QueuedMessage) : Json.value :=
  Json.Obj
    ([(Json.codeUnits "content", Json.Str (Json.codeUnits (Cache.content m)));
      (Json.codeUnits "peerId", Json.Str (Json.codeUnits (Cache.peerId m)));
      (Json.codeUnits "cwd", Json.Str (Json.codeUnits (Cache.cwd m)));
      (Json.codeUnits "timestamp", Json.Str (Json.codeUnits (Cache.timestamp m)))]
     ++ match Cache.uploaded m with
        | Some b => [(Json.codeUnits "uploaded", Json.Bool b)]
        | None => []
        end
     ++ match Cache.instanceId m with
        | Some i => [(Json.codeUnits "instanceId", Json.Str (Json.codeUnits i))]
        | None => []
        end).

(** [msg.key] on a value that is not [null] ([None] is [undefined]). *)
Definition propOf (msg : Json.value) (key : string) : option Json.value :=
  match msg with
  | Json.Obj ms => Json.lookupMember (Json.codeUnits key) ms
  | _ => None
  end.

(** The line holds a JSON text other than [null]. *)
Definition holdsValue (line : string) : Prop :=
  exists msg, Json.parse line = Some msg /\ msg <> Json.Null.

(** The line is not a JSON text, or it is the text [null]. *)
Definition holdsNoValue (line : string) : Prop :=
  Json.parse line = None \/ Json.parse line = Some Json.Null.

(** [rendered] is a JSON text of [v], readable in front of any rest. *)
Definition rendersTo (rendered : string) (v : Json.value) : Prop :=
  forall (fuel : nat) (rest : string),
    Json.parseValue (S fuel) (rendered +:+ rest) = Some (v, rest).

(** The members of a serialised message: name, rendering, and value. *)
Definition messageMembers (m : Cache.QueuedMessage) : list (string * string * Json.value) :=
  [("content", Json.stringifyString (Cache.content m), Json.Str (Json.codeUnits (Cache.content m)));
   ("peerId", Json.stringifyString (Cache.peerId m), Json.Str (Json.codeUnits (Cache.peerId m)));
   ("cwd", Json.stringifyString (Cache.cwd m), Json.Str (Json.codeUnits (Cache.cwd m)));
   ("timestamp", Json.stringifyString (Cache.timestamp m),
    Json.Str (Json.codeUnits (Cache.timestamp m)))]
  ++ match Cache.uploaded m with
     | Some b => [("uploaded", Cache.stringifyBool b, Json.Bool b)]
     | None => []
     end
  ++ match Cache.instanceId m with
     | Some i => [("instanceId", Json.stringifyString i, Json.Str (Json.codeUnits i))]
     | None => []
     end.

(** The text of the queue file, empty when there is no file. *)
Definition queueText (fs : Cache.Files) : string :=
  match Cache.messageQueueFile fs with Some text => text | None => EmptyString end.

(** The line an entry occupies in the work log. *)
Definition entryLine (now workDescription : string) : string :=
  "- [" +:+ now +:+ "] " +:+ workDescription.

(** The text [appendClawdWork] works on: the file, or the seed document
    when there is no file or the file is empty. *)
Definition workLog (fs : Cache.Files) : string :=
  match Cache.clawdContextFile fs with
  | Some text => if JS.truthy text then text else Cache.seedDocument
  | None => Cache.seedDocument
  end.

(** The work log has the header line. *)
Definition hasActivityHeader (text : string) : Prop :=
  JS.findIndex (JS.includes Cache.activityHeader) (JS.split JS.newline text) <> (-1)%Z.

(** The context cache after [resetMessageCount()] and [k] calls of
    [incrementMessageCount()]. *)
Definition afterIncrements (k : nat) (cache : Cache.ContextCache) : Cache.ContextCache :=
  Nat.iter k (fun c => snd (Cache.incrementMessageCount c)) (Cache.resetMessageCount cache).

(** The file is not there, or its text is not JSON. *)
Definition missingOrMalformed (file : option string) : Prop :=
  file = None \/ exists text, file = Some text /\ Json.parse text = None.

(** The work-log file after a call of [appendClawdWork]. *)
Definition logAfter (now : string) (maxEntries : Z) (workDescription : string)
    (fs : Cache.Files) : string :=
  match Cache.clawdContextFile (Cache.appendClawdWork now maxEntries workDescription fs) with
  | Some text => text
  | None => EmptyString
  end.

(** The earlier entries a call keeps: [activities.slice(-(maxEntries - 1))]. *)
Definition keptEntries (maxEntries : Z) (fs : Cache.Files) : list string :=
  JS.sliceFrom (Cache.activitiesOf (workLog fs)) (- (maxEntries - 1)).

(** The lines of the work log and the index of its header line. *)
Definition logLines (fs : Cache.Files) : list string := JS.split JS.newline (workLog fs).

Definition headerIndex (fs : Cache.Files) : Z :=
  JS.findIndex (JS.includes Cache.activityHeader) (logLines fs).

(** One call of [queueMessage], with the clock and the cached instance id
    it finds. *)
Record Enqueue : Type := {
  calledAt : string;
  cachedInstanceId : option string;
  message : string;
  peer : string;
  directory : string;
  instance : option string
}.

(** The message a call puts on the queue. *)
Definition queuedBy (e : Enqueue) : Cache.QueuedMessage :=
  {| Cache.content := message e; Cache.peerId := peer e; Cache.cwd := directory e;
     Cache.timestamp := calledAt e; Cache.uploaded := Some false;
     Cache.instanceId := Cache.firstTruthy (instance e) (cachedInstanceId e) |}.

Definition enqueue (fs : Cache.Files) (e : Enqueue) : Cache.Files :=
  Cache.queueMessage (calledAt e) (cachedInstanceId e)
    (message e) (peer e) (directory e) (instance e) fs.

(** The calls made one after the other, oldest first. *)
Definition enqueueAll (es : list Enqueue) (fs : Cache.Files) : Cache.Files :=
  fold_left enqueue es fs.

(** One call on the message queue. *)
Inductive QueueCall : Type :=
| QueueMessage (e : Enqueue)
| MarkMessagesUploaded (forCwd : option string)
| ClearMessageQueue.

Definition perform (fs : Cache.Files) (c : QueueCall) : Cache.Files :=
  match c with
  | QueueMessage e => enqueue fs e
  | MarkMessagesUploaded forCwd => Cache.markMessagesUploaded forCwd fs
  | ClearMessageQueue => Cache.clearMessageQueue fs
  end.

(** The calls made one after the other. *)
Definition performAll (cs : list QueueCall) (fs : Cache.Files) : Cache.Files :=
  fold_left perform cs fs.

(** The queue as a list of messages, oldest first: a queued message goes to
    the end, an upload mark for a directory takes the messages of that
    directory out, an upload mark without a directory and a clear take
    all out. *)
Definition waitingAfter (waiting : list Cache.QueuedMessage) (c : QueueCall)
    : list Cache.QueuedMessage :=
  match c with
  | QueueMessage e => waiting ++ [queuedBy e]
  | MarkMessagesUploaded forCwd =>
      match Cache.given forCwd with
      | Some d => List.filter (fun m => negb (String.eqb (Cache.cwd m) d)) waiting
      | None => []
      end
  | ClearMessageQueue => []
  end.

Definition waiting (cs : list QueueCall) : list Cache.QueuedMessage :=
  fold_left waitingAfter cs [].

(** The messages a read for [forCwd] selects. *)
Definition selectedBy (forCwd : option string) (m : Cache.QueuedMessage) : bool :=
  match Cache.given forCwd with
  | Some d => String.eqb (Cache.cwd m) d
  | None => true
  end.

(** The text of the queue file after [markMessagesUploaded(d)]. *)
Definition textAfterUpload (d text : string) : string :=
  unlines (List.filter (Cache.remainsAfterUpload d) (Cache.nonBlankLines text)).

(** A fact with a keyword: one of its words is longer than 3 characters. *)
Definition hasKeywords (fact : string) : bool :=
  negb (Json.isNil (ContextFormat.keywordsOf fact)).

(** The context cache after [markKnowledgeGraphRefreshed()] and [k] calls of
    [incrementMessageCount()]. *)
Definition sinceRefresh (k : nat) (cache : Cache.ContextCache) : Cache.ContextCache :=
  Nat.iter k (fun c => snd (Cache.incrementMessageCount c))
    (Cache.markKnowledgeGraphRefreshed cache).

(** [ctx] with another feature. *)
Definition withFeature (f : option ContextFormat.FeatureContext)
    (ctx : ContextFormat.FullContext) : ContextFormat.FullContext :=
  {| ContextFormat.user := ContextFormat.user ctx;
     ContextFormat.ai := ContextFormat.ai ctx;
     ContextFormat.session := ContextFormat.session ctx;
     ContextFormat.git := ContextFormat.git ctx;
     ContextFormat.feature := f;
     ContextFormat.changes := ContextFormat.changes ctx |}.

(** [ctx] with other session summaries. *)
Definition withSummaries (summaries : option ContextFormat.SessionContext)
    (ctx : ContextFormat.FullContext) : ContextFormat.FullContext :=
  let s := ContextFormat.session ctx in
  {| ContextFormat.user := ContextFormat.user ctx;
     ContextFormat.ai := ContextFormat.ai ctx;
     ContextFormat.session :=
       {| ContextFormat.Session.name := ContextFormat.Session.name s;
          ContextFormat.Session.workspace := ContextFormat.Session.workspace s;
          ContextFormat.Session.cwd := ContextFormat.Session.cwd s;
          ContextFormat.Session.context := summaries |};
     ContextFormat.git := ContextFormat.git ctx;
     ContextFormat.feature := ContextFormat.feature ctx;
     ContextFormat.changes := ContextFormat.changes ctx |}.

(** A peer context cut down to its first profile lines, facts and
    insights. *)
Definition firstEntries (profileLines facts insights : Z) (c : ContextFormat.UserContext)
    : ContextFormat.UserContext :=
  {| ContextFormat.peerCard :=
       option_map (fun cs => JS.sliceArray cs 0 profileLines) (ContextFormat.peerCard c);
     ContextFormat.explicit :=
       option_map (fun es => JS.sliceArray es 0 facts) (ContextFormat.explicit c);
     ContextFormat.deductive :=
       option_map (fun ds => JS.sliceArray ds 0 insights) (ContextFormat.deductive c) |}.

(** What the memory anchor shows of a context: the three names, the
    branch, the first 5 profile lines, 10 facts and 5 insights of the user,
    the first 8 facts of the AI, the short summary and the two dialectic
    texts. *)
Definition anchorView (ctx : ContextFormat.FullContext) : ContextFormat.FullContext :=
  let u := ContextFormat.user ctx in
  let a := ContextFormat.ai ctx in
  let s := ContextFormat.session ctx in
  {| ContextFormat.user :=
       {| ContextFormat.User.name := ContextFormat.User.name u;
          ContextFormat.User.context :=
            option_map (firstEntries 5 10 5) (ContextFormat.User.context u);
          ContextFormat.User.dialectic := ContextFormat.User.dialectic u |};
     ContextFormat.ai :=
       {| ContextFormat.Ai.name := ContextFormat.Ai.name a;
          ContextFormat.Ai.context :=
            option_map (fun c =>
                          {| ContextFormat.peerCard := None;
                             ContextFormat.explicit :=
                               option_map (fun es => JS.sliceArray es 0 8)
                                          (ContextFormat.explicit c);
                             ContextFormat.deductive := None |})
                       (ContextFormat.Ai.context a);
          ContextFormat.Ai.dialectic := ContextFormat.Ai.dialectic a;
          ContextFormat.Ai.localWork := None |};
     ContextFormat.session :=
       {| ContextFormat.Session.name := ContextFormat.Session.name s;
          ContextFormat.Session.workspace := EmptyString;
          ContextFormat.Session.cwd := EmptyString;
          ContextFormat.Session.context :=
            option_map (fun sc =>
                          {| ContextFormat.shortSummary := ContextFormat.shortSummary sc;
                             ContextFormat.longSummary := None |})
                       (ContextFormat.Session.context s) |};
     ContextFormat.git :=
       option_map (fun g =>
                     {| ContextFormat.branch := ContextFormat.branch g;
                        ContextFormat.commit := None;
                        ContextFormat.isDirty := None;
                        ContextFormat.dirtyFiles := None |})
                  (ContextFormat.git ctx);
     ContextFormat.feature := None;
     ContextFormat.changes := None |}.

(** The optional lines of the compressed rendering: feature, changes,
    session summary, dialectic. *)
Definition compressedFeature (ctx : ContextFormat.FullContext) : list string :=
  match ContextFormat.feature ctx with
  | Some _ =>
      let featureLine := ContextFormat.buildCompactFeature (ContextFormat.feature ctx) in
      if JS.truthy featureLine then ["feature: " +:+ featureLine] else []
  | None => []
  end.

Definition compressedChanges (ctx : ContextFormat.FullContext) : list string :=
  match ContextFormat.items (ContextFormat.changes ctx) with
  | Some cs => ["changes: " +:+ JS.join "; " (JS.sliceArray cs 0 3)]
  | None => []
  end.

Definition compressedSummary (ctx : ContextFormat.FullContext)
    (config : ContextFormat.ContextConfig) : list string :=
  if negb (ContextFormat.isEssential (ContextFormat.tier config)) then
    match ContextFormat.text (ContextFormat.Session.context (ContextFormat.session ctx)
                              ≫= ContextFormat.shortSummary) with
    | Some s =>
        ["[session]";
         "summary: " +:+ ContextFormat.truncateToTokens s
                           (ContextFormat.summary
                              (ContextFormat.sessionBudget
                                 (ContextFormat.TIER_BUDGETS (ContextFormat.tier config))))]
    | None => []
    end
  else [].

Definition compressedDialectic (ctx : ContextFormat.FullContext)
    (config : ContextFormat.ContextConfig) : list string :=
  if ContextFormat.isDeep (ContextFormat.tier config)
     && ContextFormat.flag (ContextFormat.includeDialectic config)
  then
    match ContextFormat.text (ContextFormat.User.dialectic (ContextFormat.user ctx)) with
    | Some d =>
        ["[" +:+ ContextFormat.User.name (ContextFormat.user ctx) +:+ "/ai-understanding]"; d]
    | None => []
    end
    ++ match ContextFormat.text (ContextFormat.Ai.dialectic (ContextFormat.ai ctx)) with
       | Some d =>
           ["[" +:+ ContextFormat.Ai.name (ContextFormat.ai ctx) +:+ "/self-reflection]"; d]
       | None => []
       end
  else [].

(** The optional lines of the verbose rendering: feature and changes. *)
Definition verboseFeature (ctx : ContextFormat.FullContext) : list string :=
  match ContextFormat.feature ctx with
  | Some f =>
      match ContextFormat.confidence f with
      | ContextFormat.low => []
      | _ =>
          ["## Inferred Feature Context";
           "- Type: " +:+ ContextFormat.type f;
           "- Description: " +:+ ContextFormat.description f]
          ++ match ContextFormat.items (ContextFormat.keywords f) with
             | Some ks => ["- Keywords: " +:+ JS.join ", " ks]
             | None => []
             end
          ++ match ContextFormat.items (ContextFormat.areas f) with
             | Some ars => ["- Areas: " +:+ JS.join ", " ars]
             | None => []
             end
          ++ ["- Confidence: " +:+ ContextFormat.confidenceText (ContextFormat.confidence f)]
      end
  | None => []
  end.

Definition verboseChanges (ctx : ContextFormat.FullContext) : list string :=
  match ContextFormat.items (ContextFormat.changes ctx) with
  | Some cs => ["## Git Activity Since Last Session"] ++ List.map ContextFormat.bullet cs
  | None => []
  end.

(** Every code unit of [s] satisfies [p]. *)
Fixpoint everyChar (p : ascii -> bool) (s : string) : bool :=
  match s with
  | EmptyString => true
  | String c rest => p c && everyChar p rest
  end.

(** A representation cut down to its first 15 observations and 10
    deductions. *)
Definition firstObservations (rep : SessionStart.Representation)
    : SessionStart.Representation :=
  {| SessionStart.explicit :=
       option_map (fun es => JS.sliceArray es 0 15) (SessionStart.explicit rep);
     SessionStart.deductive :=
       option_map (fun ds => JS.sliceArray ds 0 10) (SessionStart.deductive rep) |}.

(** The number of values and members in [v]: fuel enough to parse a
    rendering of it. *)
Fixpoint size (v : Json.value) : nat :=
  match v with
  | Json.Arr vs => S (list_sum (List.map (fun x => S (size x)) vs))
  | Json.Obj ms => S (list_sum (List.map (fun '(_, x) => S (size x)) ms))
  | Json.Null | Json.Bool _ | Json.Number _ _ _ | Json.Str _ => 1
  end.

Definition isLatin1 (u : N) : bool := (u <? 256)%N.

(** A value without numbers whose strings and names are made of code
    units below 256: the values [Json.stringifyPretty] is embedded for. *)
Fixpoint plain (v : Json.value) : bool :=
  match v with
  | Json.Null | Json.Bool _ => true
  | Json.Number _ _ _ => false
  | Json.Str us => forallb isLatin1 us
  | Json.Arr vs => forallb plain vs
  | Json.Obj ms => forallb (fun '(k, x) => forallb isLatin1 k && plain x) ms
  end.

(** [text], followed by anything, parses as [v] with fuel [n] or more. *)
Definition readsBack (text : string) (v : Json.value) (n : nat) : Prop :=
  forall (fuel : nat) (rest : string),
    n <= fuel -> Json.parseValue fuel (text +:+ rest) = Some (v, rest).

(** [text] starts with a character that is neither white space nor a
    closing bracket. *)
Definition startsValue (text : string) : bool :=
  match text with
  | String c _ => negb (Json.isJsonWs c) && negb (Ascii.eqb c "]") && negb (Ascii.eqb c "}")
  | EmptyString => false
  end.


(** ** Calls on the ID cache *)

(** A call of one of the four setters. *)
Inductive IdCacheSet : Type :=
| SetWorkspace (name id : string)
| SetPeer (peerName peerId : string)
| SetSession (now cwd name id : string)
| SetInstance (instanceId : string).

Definition performSet (call : IdCacheSet) (fs : Cache.Files) : JS.Outcome unit * Cache.Files :=
  match call with
  | SetWorkspace name id => Cache.setCachedWorkspaceId name id fs
  | SetPeer peerName peerId => Cache.setCachedPeerId peerName peerId fs
  | SetSession now cwd name id => Cache.setCachedSessionId now cwd name id fs
  | SetInstance instanceId => Cache.setClaudeInstanceId instanceId fs
  end.

(** A call of one of the four getters, and what it returns. *)
Inductive IdCacheGet : Type :=
| GetWorkspace (workspaceName : string)
| GetPeer (peerName : string)
| GetSession (cwd : string)
| GetInstance.

Definition performGet (call : IdCacheGet) (fs : Cache.Files) : JS.Outcome (option Json.value) :=
  match call with
  | GetWorkspace workspaceName => fst (Cache.getCachedWorkspaceId workspaceName fs)
  | GetPeer peerName => fst (Cache.getCachedPeerId peerName fs)
  | GetSession cwd => fst (Cache.getCachedSessionId cwd fs)
  | GetInstance => fst (Cache.getClaudeInstanceId fs)
  end.

(** The member of [interface IdCache] a call works on. *)
Definition memberSet (call : IdCacheSet) : string :=
  match call with
  | SetWorkspace _ _ => "workspace"
  | SetPeer _ _ => "peers"
  | SetSession _ _ _ _ => "sessions"
  | SetInstance _ => "claudeInstanceId"
  end.

Definition memberGet (call : IdCacheGet) : string :=
  match call with
  | GetWorkspace _ => "workspace"
  | GetPeer _ => "peers"
  | GetSession _ => "sessions"
  | GetInstance => "claudeInstanceId"
  end.

(** [x] is [undefined], falsy, or an object. *)
Definition objectOrFalsy (x : option Json.value) : bool :=
  match x with
  | Some (Json.Obj _) => true
  | _ => negb (Json.toBoolean x)
  end.

(** A document the setters work on: an object without numbers and code
    units above 255, whose [peers] and [sessions] are objects where they
    are set. *)
Definition wellFormed (cache : Json.value) : bool :=
  plain cache
  && match cache with
     | Json.Obj ms =>
         objectOrFalsy (Json.lookupMember (Json.codeUnits "peers") ms)
         && objectOrFalsy (Json.lookupMember (Json.codeUnits "sessions") ms)
     | _ => false
     end.
(* ===================================================================== *)
(** * Inputs of the examples                                              *)
(* ===================================================================== *)

Module Examples.

(** Two cache files whose content is not JSON. *)
Definition corruptedFiles : Cache.Files :=
  {| Cache.cacheDirExists := true;
     Cache.idCacheFile := Some "{ not json at all \x00";
     Cache.contextCacheFile := Some "[1, 2,";
     Cache.messageQueueFile := None;
     Cache.clawdContextFile := None |}.

(** A session whose user and AI peers both carry dialectic text. *)
Definition reflectiveContext : ContextFormat.FullContext :=
  {| ContextFormat.user :=
       {| ContextFormat.User.name := "eri";
          ContextFormat.User.context := None;
          ContextFormat.User.dialectic := Some "prefers small commits" |};
     ContextFormat.ai :=
       {| ContextFormat.Ai.name := "clawd";
          ContextFormat.Ai.context := None;
          ContextFormat.Ai.dialectic := Some "tends to over-explain";
          ContextFormat.Ai.localWork := None |};
     ContextFormat.session :=
       {| ContextFormat.Session.name := "repo";
          ContextFormat.Session.workspace := "ws";
          ContextFormat.Session.cwd := "/home/eri/repo";
          ContextFormat.Session.context := None |};
     ContextFormat.git := None;
     ContextFormat.feature := None;
     ContextFormat.changes := None |}.

(** The same session, seen from another working directory. *)
Definition movedContext : ContextFormat.FullContext :=
  {| ContextFormat.user := ContextFormat.user reflectiveContext;
     ContextFormat.ai := ContextFormat.ai reflectiveContext;
     ContextFormat.session :=
       {| ContextFormat.Session.name := "repo";
          ContextFormat.Session.workspace := "ws";
          ContextFormat.Session.cwd := "/tmp/checkout";
          ContextFormat.Session.context := None |};
     ContextFormat.git := None;
     ContextFormat.feature := None;
     ContextFormat.changes := None |}.

(** The shallowest tier, with dialectic text requested. *)
Definition essentialWithDialectic : ContextFormat.ContextConfig :=
  {| ContextFormat.tier := ContextFormat.essential;
     ContextFormat.maxTokens := None;
     ContextFormat.includeDialectic := Some true;
     ContextFormat.compressedFormat := Some false |}.

(** A session with as many facts, insights and characters of work text as
    the deepest tier admits, all alike. *)
Definition busyContext : ContextFormat.FullContext :=
  let fact := {| ContextFormat.content := "a"; ContextFormat.source := None |} in
  let insight := {| ContextFormat.conclusion := "a"; ContextFormat.premises := None |} in
  {| ContextFormat.user :=
       {| ContextFormat.User.name := "eri";
          ContextFormat.User.context :=
            Some {| ContextFormat.peerCard := None;
                    ContextFormat.explicit := Some (List.repeat fact 15);
                    ContextFormat.deductive := Some (List.repeat insight 10) |};
          ContextFormat.User.dialectic := None |};
     ContextFormat.ai :=
       {| ContextFormat.Ai.name := "clawd";
          ContextFormat.Ai.context :=
            Some {| ContextFormat.peerCard := None;
                    ContextFormat.explicit := Some (List.repeat fact 15);
                    ContextFormat.deductive := None |};
          ContextFormat.Ai.dialectic := None;
          ContextFormat.Ai.localWork := Some (Nat.iter 400 (String "a") EmptyString) |};
     ContextFormat.session :=
       {| ContextFormat.Session.name := "repo";
          ContextFormat.Session.workspace := "ws";
          ContextFormat.Session.cwd := "/home/eri/repo";
          ContextFormat.Session.context := None |};
     ContextFormat.git := None;
     ContextFormat.feature := None;
     ContextFormat.changes := None |}.

Definition otherFact : ContextFormat.ExplicitFact :=
  {| ContextFormat.content := "b"; ContextFormat.source := None |}.

Definition otherInsight : ContextFormat.Deduction :=
  {| ContextFormat.conclusion := "b"; ContextFormat.premises := None |}.

(** A queue file with a damaged first line and a pending message for
    [/b] on the second. *)
Definition damagedLine : string := "{ not json".

Definition intactMessage : Cache.QueuedMessage :=
  {| Cache.content := "run the tests"; Cache.peerId := "eri"; Cache.cwd := "/b";
     Cache.timestamp := "2026-01-05T10:00:00.000Z"; Cache.uploaded := Some false;
     Cache.instanceId := None |}.

Definition intactQueue : Cache.Files :=
  Cache.writeMessageQueue (Cache.stringifyMessage intactMessage +:+ JS.nl) Cache.noFiles.

Definition damagedQueue : Cache.Files :=
  Cache.writeMessageQueue
    (damagedLine +:+ JS.nl +:+ Cache.stringifyMessage intactMessage +:+ JS.nl)
    Cache.noFiles.

(** Three calls for [/a] and two for [/b], interleaved. *)
Definition call (at_ text dir : string) : Enqueue :=
  {| calledAt := at_; cachedInstanceId := Some "instance-1"; message := text;
     peer := "eri"; directory := dir; instance := None |}.

Definition fiveCalls : list Enqueue :=
  [call "2026-01-05T10:00:00.000Z" "first in a" "/a";
   call "2026-01-05T10:00:01.000Z" "first in b" "/b";
   call "2026-01-05T10:00:02.000Z" "second in a, with a
line break and a \ backslash" "/a";
   call "2026-01-05T10:00:03.000Z" "second in b" "/b";
   call "2026-01-05T10:00:04.000Z" "third in a" "/a"].

(** A work log with a preamble, the header, and two entries. *)
Definition twoEntryLog : string :=
  "# Notes" +:+ JS.nl +:+ "kept by hand" +:+ JS.nl +:+ JS.nl
  +:+ "## Recent Activity" +:+ JS.nl
  +:+ "- [2026-01-05T10:00:00.000Z] one" +:+ JS.nl
  +:+ "- [2026-01-05T10:05:00.000Z] two".

Definition twoEntryFiles : Cache.Files := Cache.writeClawdContext twoEntryLog Cache.noFiles.

(** Ten calls, the [i]-th at minute [i] with description [step i]. *)
Definition tenSteps : list (string * string) :=
  [("2026-01-05T10:00:00.000Z", "step 0"); ("2026-01-05T10:01:00.000Z", "step 1");
   ("2026-01-05T10:02:00.000Z", "step 2"); ("2026-01-05T10:03:00.000Z", "step 3");
   ("2026-01-05T10:04:00.000Z", "step 4"); ("2026-01-05T10:05:00.000Z", "step 5");
   ("2026-01-05T10:06:00.000Z", "step 6"); ("2026-01-05T10:07:00.000Z", "step 7");
   ("2026-01-05T10:08:00.000Z", "step 8"); ("2026-01-05T10:09:00.000Z", "step 9")].

Definition appendAll (maxEntries : Z) (steps : list (string * string)) (fs : Cache.Files)
    : Cache.Files :=
  fold_left (fun fs' step => Cache.appendClawdWork (fst step) maxEntries (snd step) fs')
    steps fs.


(** The cache directory after a workspace, three peers and a session were
    cached, starting without files. *)
Definition cachedIds : Cache.Files :=
  let fs := snd (Cache.setCachedWorkspaceId "honcho" "w1" Cache.noFiles) in
  let fs := snd (Cache.setCachedPeerId "eri" "p1" fs) in
  let fs := snd (Cache.setCachedPeerId "42" "p2" fs) in
  let fs := snd (Cache.setCachedPeerId "7" "p3" fs) in
  snd (Cache.setCachedSessionId "2026-01-05T10:00:00.000Z" "/a" "a" "s1" fs).

(** A cache directory whose [cache.json] holds [null]. *)
Definition nullIdCache : Cache.Files := Cache.writeIdCache "null" Cache.noFiles.
End Examples.

(* ===================================================================== *)
(** * Facts about the built-ins                                           *)
(* ===================================================================== *)

Lemma length_append (s t : string) :
  String.length (s +:+ t) = String.length s + String.length t.
Proof. induction s as [|c s IH]; simpl; [reflexivity | now rewrite IH]. Qed.

Lemma length_substring_0 (n : nat) (s : string) :
  n <= String.length s -> String.length (substring 0 n s) = n.
Proof.
  revert s; induction n as [|n IH]; intros [|c s] H; simpl in *; try lia; try reflexivity.
  rewrite IH; lia.
Qed.

(** Taking a prefix that fits: [s.slice(0, n)] has exactly [n] code units. *)
Lemma length_sliceString_prefix (s : string) (n : Z) :
  (0 <= n <= Z.of_nat (String.length s))%Z ->
  String.length (JS.sliceString s 0 n) = Z.to_nat n.
Proof.
  intros Hn. unfold JS.sliceString, JS.sliceBounds.
  replace (0 <? 0)%Z with false by reflexivity.
  destruct (n <? 0)%Z eqn:E; [lia|].
  rewrite Z.min_l by lia. rewrite Z.min_l by lia.
  replace (Z.to_nat 0) with 0 by reflexivity.
  rewrite length_substring_0; lia.
Qed.

Lemma estimateTokens_spec (text : string) (k : Z) :
  (ContextFormat.estimateTokens text <= k <-> Z.of_nat (String.length text) <= 4 * k)%Z.
Proof.
  unfold ContextFormat.estimateTokens, Qceiling, Qfloor, Qopp. simpl.
  generalize (Z.of_nat (String.length text)); intros n.
  Z.div_mod_to_equations. lia.
Qed.

(* ===================================================================== *)
(** * Token estimation and truncation                                     *)
(* ===================================================================== *)

(** C10. For every text and every token budget [maxTokens >= 1], the
    truncated text is estimated at no more than [maxTokens] tokens, and
    [truncateToTokens] returns its argument unchanged exactly when the
    argument is already estimated at no more than [maxTokens] tokens. *)
Theorem truncateToTokens_within_budget (text : string) (maxTokens : Z) :
  (1 <= maxTokens)%Z ->
  (ContextFormat.estimateTokens (ContextFormat.truncateToTokens text maxTokens) <= maxTokens)%Z
  /\ (ContextFormat.truncateToTokens text maxTokens = text
      <-> (ContextFormat.estimateTokens text <= maxTokens)%Z).
Proof.
  intros Hmax. unfold ContextFormat.truncateToTokens.
  destruct (Z.of_nat (String.length text) <=? maxTokens * 4)%Z eqn:E.
  - apply Z.leb_le in E. split.
    + apply estimateTokens_spec. lia.
    + split; [intros _; apply estimateTokens_spec; lia | reflexivity].
  - apply Z.leb_gt in E.
    assert (Hlen : String.length (JS.sliceString text 0 (maxTokens * 4 - 3) +:+ "...")
                   = Z.to_nat (maxTokens * 4)).
    { rewrite length_append, length_sliceString_prefix by lia. simpl. lia. }
    split.
    + apply estimateTokens_spec. rewrite Hlen. lia.
    + split.
      * intros Heq. rewrite Heq in Hlen. lia.
      * intros Hle. apply estimateTokens_spec in Hle. lia.
Qed.

Lemma truncateToTokens_within_budget_witness :
  (ContextFormat.estimateTokens
     (ContextFormat.truncateToTokens "the quick brown fox jumps" 2) <= 2)%Z
  /\ (ContextFormat.truncateToTokens "the quick brown fox jumps" 2 = "the quick brown fox jumps"
      <-> (ContextFormat.estimateTokens "the quick brown fox jumps" <= 2)%Z).
Proof. apply (truncateToTokens_within_budget "the quick brown fox jumps" 2). lia. Defined.

(* ===================================================================== *)
(** * Context cache: time-to-live and message threshold                   *)
(* ===================================================================== *)

Section ContextCacheFacts.
Import Cache.

Variable config : ContextRefreshConfig.

(** C4 as stated fails for a section whose data is [null]: the miss is
    [null] too, so at the TTL and later the stored data is what comes
    back. *)
Lemma stored_null_reads_as_miss : ~ Spec.storedDataIffFresh.
Proof.
  intros Hclaim.
  destruct (Hclaim 300000%Z defaultConfig
              (setCachedUserContext 0 Json.Null emptyContextCache)
              {| data := Json.Null; fetchedAt := 0 |} eq_refl) as [Hfresh _].
  specialize (Hfresh eq_refl). vm_compute in Hfresh. discriminate Hfresh.
Qed.

(** C4, amended.  For every stored user-context section,
    [getCachedUserContext] returns the stored data when
    [now - fetchedAt < TTL] and [null] at exactly the TTL or later; so for
    stored data other than [null] it returns the stored data iff
    [now - fetchedAt < TTL], and [null] iff the TTL is reached.  Without a
    section it returns [null].  [isContextCacheStale] is true iff there is
    no user-context section or its age has reached the TTL. *)
Theorem user_context_fresh_iff_within_ttl (now : Z) (cache : ContextCache) :
  match userContext cache with
  | Some section =>
      ((now - fetchedAt section < getContextTTL config)%Z ->
       getCachedUserContext now config cache = data section)
      /\ ((getContextTTL config <= now - fetchedAt section)%Z ->
          getCachedUserContext now config cache = Json.Null)
      /\ (data section <> Json.Null ->
          (getCachedUserContext now config cache = data section
           <-> (now - fetchedAt section < getContextTTL config)%Z)
          /\ (getCachedUserContext now config cache = Json.Null
              <-> (getContextTTL config <= now - fetchedAt section)%Z))
  | None => getCachedUserContext now config cache = Json.Null
  end
  /\ (isContextCacheStale now config cache = true
      <-> userContext cache = None
          \/ exists section, userContext cache = Some section
               /\ (getContextTTL config <= now - fetchedAt section)%Z).
Proof.
  unfold getCachedUserContext, isContextCacheStale.
  destruct (userContext cache) as [section|].
  - rewrite Z.leb_le.
    assert (Hstale : (getContextTTL config <= now - fetchedAt section)%Z
                     <-> Some section = None
                         \/ exists s, Some section = Some s
                              /\ (getContextTTL config <= now - fetchedAt s)%Z).
    { split.
      - intros H. right. exists section. split; [reflexivity | exact H].
      - intros [H | [s [Hs Hle]]]; [discriminate | injection Hs as <-; exact Hle]. }
    split; [|exact Hstale].
    destruct (Z.ltb_spec (now - fetchedAt section) (getContextTTL config)) as [Hlt|Hge].
    + split; [reflexivity|]. split; [lia|]. intros Hdata.
      split; split; intros H; try reflexivity; try lia; contradiction.
    + split; [lia|]. split; [reflexivity|]. intros Hdata.
      split; split; intros H; try reflexivity; try lia. now symmetry in H.
  - split; [reflexivity|]. split; [intros _; left; reflexivity | reflexivity].
Qed.

Lemma afterIncrements_counters (k : nat) (cache : ContextCache) :
  messageCount (afterIncrements k cache) = Some (Z.of_nat k)
  /\ lastRefreshMessageCount (afterIncrements k cache) = Some 0%Z.
Proof.
  unfold afterIncrements. induction k as [|k [IHc IHl]].
  - split; reflexivity.
  - rewrite Nat.iter_succ. unfold incrementMessageCount at 1 3.
    cbn [snd messageCount lastRefreshMessageCount].
    rewrite IHc, IHl. split; [|reflexivity].
    unfold orZero. destruct (Z.eqb_spec (Z.of_nat k) 0) as [E|E]; f_equal; lia.
Qed.

(** After the reset and [k] increments the refresh test compares [k] with
    the threshold. *)
Lemma refresh_after_increments (k : nat) (cache : ContextCache) :
  shouldRefreshKnowledgeGraph config (afterIncrements k cache) = true
  <-> (getMessageRefreshThreshold config <= Z.of_nat k)%Z.
Proof.
  unfold shouldRefreshKnowledgeGraph.
  destruct (afterIncrements_counters k cache) as [-> ->].
  rewrite Z.leb_le. unfold orZero.
  destruct (Z.eqb_spec (Z.of_nat k) 0) as [E|E]; cbn; lia.
Qed.

End ContextCacheFacts.

(** TTL boundary: with the default TTL of 300 s a section stored at time 0 is
    returned at 299 999 ms and missed at 300 000 ms and at 300 001 ms. *)
Example ttl_boundary_default (d : Json.value) :
  let cache := Cache.setCachedUserContext 0 d Cache.emptyContextCache in
  Cache.getCachedUserContext 299999 Cache.defaultConfig cache = d
  /\ Cache.getCachedUserContext 300000 Cache.defaultConfig cache = Json.Null
  /\ Cache.getCachedUserContext 300001 Cache.defaultConfig cache = Json.Null
  /\ Cache.isContextCacheStale 299999 Cache.defaultConfig cache = false
  /\ Cache.isContextCacheStale 300000 Cache.defaultConfig cache = true.
Proof. cbv zeta. repeat split. Qed.

(** C5. With refresh threshold [T], after [resetMessageCount()] followed by
    [k] calls to [incrementMessageCount()], [shouldRefreshKnowledgeGraph()]
    returns true iff [k >= T]; for [T = 50] (configured, or the default) it
    is true after 50 increments and false after 49. *)
Theorem refresh_iff_threshold_reached :
  (forall (config : Cache.ContextRefreshConfig) (k : nat) (cache : Cache.ContextCache),
      Cache.shouldRefreshKnowledgeGraph config (afterIncrements k cache) = true
      <-> (Cache.getMessageRefreshThreshold config <= Z.of_nat k)%Z)
  /\ (forall (ttl : option Z) (threshold : option Z) (cache : Cache.ContextCache),
        threshold = Some 50%Z \/ threshold = None ->
        let config := {| Cache.ttlSeconds := ttl; Cache.messageThreshold := threshold |} in
        Cache.shouldRefreshKnowledgeGraph config (afterIncrements 50 cache) = true
        /\ Cache.shouldRefreshKnowledgeGraph config (afterIncrements 49 cache) = false).
Proof.
  split.
  - intros config k cache. apply refresh_after_increments.
  - intros ttl threshold cache Hthr config. split.
    + apply refresh_after_increments. destruct Hthr as [-> | ->]; cbn; lia.
    + apply not_true_is_false. intros H. apply refresh_after_increments in H.
      destruct Hthr as [-> | ->]; cbn in H; lia.
Qed.

Lemma refresh_iff_threshold_reached_witness :
  Cache.shouldRefreshKnowledgeGraph Cache.defaultConfig
    (afterIncrements 50 Cache.emptyContextCache) = true
  /\ Cache.shouldRefreshKnowledgeGraph Cache.defaultConfig
       (afterIncrements 49 Cache.emptyContextCache) = false.
Proof.
  exact (proj2 refresh_iff_threshold_reached None None Cache.emptyContextCache
           (or_intror eq_refl)).
Defined.

(* ===================================================================== *)
(** * Loading a cache file                                                *)
(* ===================================================================== *)

(** C9. Loading never fails: a missing cache file, or one whose content is
    not JSON, yields the empty document.  (The embedded loaders are total
    functions: the [catch] of the source is the [None] branch of
    [Cache.parseOrEmpty].) *)
Theorem load_missing_or_malformed_is_empty (fs : Cache.Files) :
  (missingOrMalformed (Cache.idCacheFile fs) ->
   fst (Cache.loadIdCache fs) = Cache.emptyDocument)
  /\ (missingOrMalformed (Cache.contextCacheFile fs) ->
      fst (Cache.loadContextCache fs) = Cache.emptyDocument).
Proof.
  assert (Hdir : forall fs', Cache.idCacheFile (Cache.ensureCacheDir fs') = Cache.idCacheFile fs'
                  /\ Cache.contextCacheFile (Cache.ensureCacheDir fs') = Cache.contextCacheFile fs').
  { intros fs'. unfold Cache.ensureCacheDir. destruct (Cache.cacheDirExists fs'); split; reflexivity. }
  destruct (Hdir fs) as [Hid Hctx].
  unfold Cache.loadIdCache, Cache.loadContextCache, Cache.parseOrEmpty.
  rewrite Hid, Hctx. split.
  - intros [-> | [text [-> Hparse]]]; [reflexivity | rewrite Hparse; reflexivity].
  - intros [-> | [text [-> Hparse]]]; [reflexivity | rewrite Hparse; reflexivity].
Qed.

Lemma load_missing_or_malformed_is_empty_witness :
  fst (Cache.loadIdCache Examples.corruptedFiles) = Cache.emptyDocument
  /\ fst (Cache.loadContextCache Examples.corruptedFiles) = Cache.emptyDocument.
Proof.
  destruct (load_missing_or_malformed_is_empty Examples.corruptedFiles) as [Hid Hctx].
  split.
  - apply Hid. right. eexists. split; [reflexivity | vm_compute; reflexivity].
  - apply Hctx. right. eexists. split; [reflexivity | vm_compute; reflexivity].
Defined.

(* ===================================================================== *)
(** * Deduplication                                                       *)
(* ===================================================================== *)

Lemma splitWs_not_nil (b : bool) (s : string) : JS.splitWs b s <> [].
Proof.
  revert b; induction s as [|c s IH]; intros b; simpl; [discriminate|].
  destruct (JS.isWhiteSpace c).
  - destruct b; [apply IH | discriminate].
  - destruct (JS.splitWs false s); discriminate.
Qed.

Lemma splitWs_run_irrelevant (s : string) :
  List.filter JS.truthy (JS.splitWs true s) = List.filter JS.truthy (JS.splitWs false s).
Proof. destruct s as [|c s]; simpl; [reflexivity|]. destruct (JS.isWhiteSpace c); reflexivity. Qed.

Lemma append_empty_r (s : string) : s +:+ EmptyString = s.
Proof. induction s as [|c s IH]; simpl; [reflexivity | now rewrite IH]. Qed.

Lemma append_assoc (s t u : string) : (s +:+ t) +:+ u = s +:+ (t +:+ u).
Proof. induction s as [|c s IH]; simpl; [reflexivity | now rewrite IH]. Qed.

Lemma truthy_append_char (w : string) (c : ascii) (p : string) :
  JS.truthy (w +:+ String c p) = true.
Proof. destruct w; reflexivity. Qed.

(** The words of the specification are the non-empty pieces of
    [split(/\s+/)]. *)
Lemma wordsFrom_splitWs (s : string) (word : string) :
  Spec.wordsFrom word s
  = match JS.splitWs false s with
    | piece :: pieces => List.filter JS.truthy ((word +:+ piece) :: pieces)
    | [] => []
    end.
Proof.
  revert word; induction s as [|c s IH]; intros word.
  - simpl. rewrite append_empty_r. reflexivity.
  - simpl. destruct (JS.isWhiteSpace c) eqn:Hc.
    + rewrite append_empty_r. rewrite (IH EmptyString).
      rewrite splitWs_run_irrelevant.
      destruct (JS.splitWs false s) as [|p ps] eqn:Hs; [now apply splitWs_not_nil in Hs|].
      reflexivity.
    + rewrite (IH (word +:+ String c EmptyString)).
      destruct (JS.splitWs false s) as [|p ps] eqn:Hs; [now apply splitWs_not_nil in Hs|].
      rewrite append_assoc. reflexivity.
Qed.

Lemma filter_filter_implied {A : Type} (p q : A -> bool) (xs : list A) :
  (forall x, p x = true -> q x = true) ->
  List.filter p (List.filter q xs) = List.filter p xs.
Proof.
  intros Himp. induction xs as [|x xs IH]; simpl; [reflexivity|].
  destruct (q x) eqn:Hq; simpl.
  - now rewrite IH.
  - destruct (p x) eqn:Hp; [apply Himp in Hp; congruence | exact IH].
Qed.

Lemma keywordsOf_spec (fact : string) : ContextFormat.keywordsOf fact = Spec.keywords fact.
Proof.
  unfold ContextFormat.keywordsOf, Spec.keywords, JS.splitWhitespace.
  rewrite wordsFrom_splitWs.
  destruct (JS.splitWs false (JS.toLowerCase fact)) as [|p ps] eqn:Hs;
    [now apply splitWs_not_nil in Hs|].
  simpl (EmptyString +:+ p).
  symmetry. apply filter_filter_implied.
  intros [|c w] H; [discriminate | reflexivity].
Qed.

Lemma addAll_union (kws : list string) (seen : gset string) :
  ContextFormat.addAll kws seen = seen ∪ list_to_set kws.
Proof.
  unfold ContextFormat.addAll. revert seen.
  induction kws as [|k kws IH]; intros seen; simpl.
  - now rewrite (right_id_L ∅ (∪)).
  - rewrite IH. rewrite (comm_L (∪) {[k]} seen). now rewrite (assoc_L (∪)).
Qed.

(** The quotient the code computes is the fraction of the specification. *)
Lemma overlapRatio_spec (seen : gset string) (kws : list string) :
  (ContextFormat.overlapRatio seen kws == Spec.overlapRatio seen kws)%Q.
Proof.
  unfold ContextFormat.overlapRatio, Spec.overlapRatio, ContextFormat.overlapCount.
  rewrite (Qmake_Qdiv _ (Pos.of_nat _)).
  replace (Z.pos (Pos.of_nat (Nat.max (length kws) 1)))
    with (Z.of_nat (Nat.max (length kws) 1)); [reflexivity|].
  destruct (Nat.max (length kws) 1) eqn:E; [lia|].
  rewrite <- E. lia.
Qed.

(** The test of the loop in integers: strictly fewer than half of the
    keywords (or of one, for a fact without keywords) are already seen. *)
Lemma overlapRatio_below_half (seen : gset string) (kws : list string) :
  (ContextFormat.overlapRatio seen kws < 1 # 2)%Q
  <-> 2 * ContextFormat.overlapCount seen kws < Nat.max (length kws) 1.
Proof.
  rewrite overlapRatio_spec. unfold Spec.overlapRatio, Qlt, ContextFormat.overlapCount. simpl.
  destruct (Nat.max (length kws) 1) eqn:E; [lia|]. rewrite <- E. lia.
Qed.

Lemma dedup_loop_spec (facts : list string) (unique : list string) (seen : gset string) :
  fst (fold_left ContextFormat.dedupStep
         (List.map (fun f => (f, ContextFormat.keywordsOf f)) facts) (unique, seen))
  = unique ++ Spec.dedupFrom seen facts.
Proof.
  revert unique seen. induction facts as [|f facts IH]; intros unique seen; simpl.
  - now rewrite app_nil_r.
  - rewrite <- keywordsOf_spec.
    destruct (Qlt_le_dec (ContextFormat.overlapRatio seen (ContextFormat.keywordsOf f)) (1 # 2))
      as [Hlt|Hge];
      destruct (Qlt_le_dec (Spec.overlapRatio seen (ContextFormat.keywordsOf f)) (1 # 2))
      as [Hlt'|Hge'].
    + rewrite IH, addAll_union, <- app_assoc. reflexivity.
    + rewrite overlapRatio_spec in Hlt. exfalso. eapply Qlt_not_le; eauto.
    + rewrite overlapRatio_spec in Hge. exfalso. eapply Qlt_not_le; eauto.
    + apply IH.
Qed.

(** C8. [deduplicateFacts] is the deduplication of the specification: facts
    in input order, a fact kept and its keywords (lowercase
    whitespace-separated words longer than 3 characters) added to the
    seen-set iff the ratio of its already-seen keywords to
    [max(keyword count, 1)] is strictly below 0.5, dropped otherwise; a list
    of length at most 1 is returned unchanged; and of the three example
    facts the first and the third are retained. *)
Theorem deduplicateFacts_meets_spec :
  (forall facts : list string, ContextFormat.deduplicateFacts facts = Spec.dedup facts)
  /\ ContextFormat.deduplicateFacts [] = []
  /\ (forall fact : string, ContextFormat.deduplicateFacts [fact] = [fact])
  /\ ContextFormat.deduplicateFacts
       ["the quick brown fox"; "the quick brown dog"; "completely unrelated sentence"]
     = ["the quick brown fox"; "completely unrelated sentence"].
Proof.
  split; [|split; [reflexivity | split; [reflexivity | vm_compute; reflexivity]]].
  intros facts. unfold ContextFormat.deduplicateFacts.
  destruct facts as [|f1 [|f2 facts]]; [reflexivity | reflexivity |].
  change (length (f1 :: f2 :: facts) <=? 1) with false. cbv iota.
  rewrite dedup_loop_spec. reflexivity.
Qed.

(** One step of the specification, spelled out: a fact whose keywords are
    at least half seen is dropped together with its keywords; a fact below
    one half is kept and its keywords are seen from then on. *)
Lemma dedupFrom_step (seen : gset string) (fact : string) (later : list string) :
  (2 * ContextFormat.overlapCount seen (ContextFormat.keywordsOf fact)
   < Nat.max (length (ContextFormat.keywordsOf fact)) 1 ->
   Spec.dedupFrom seen (fact :: later)
   = fact :: Spec.dedupFrom (seen ∪ list_to_set (ContextFormat.keywordsOf fact)) later)
  /\ (Nat.max (length (ContextFormat.keywordsOf fact)) 1
      <= 2 * ContextFormat.overlapCount seen (ContextFormat.keywordsOf fact) ->
      Spec.dedupFrom seen (fact :: later) = Spec.dedupFrom seen later).
Proof.
  simpl. rewrite <- keywordsOf_spec.
  destruct (Qlt_le_dec (Spec.overlapRatio seen (ContextFormat.keywordsOf fact)) (1 # 2))
    as [Hlt|Hge].
  - rewrite <- overlapRatio_spec in Hlt. apply overlapRatio_below_half in Hlt.
    split; [reflexivity | lia].
  - split; [|reflexivity]. intros H. apply overlapRatio_below_half in H.
    rewrite overlapRatio_spec in H. exfalso. eapply Qlt_not_le; eauto.
Qed.

(* ===================================================================== *)
(** * The two rendering modes                                             *)
(* ===================================================================== *)

Lemma sliceBounds_prefix (len n : Z) :
  (0 <= len)%Z -> (0 <= n)%Z ->
  JS.sliceBounds len 0 n = (0, Z.to_nat (Z.min n len)).
Proof.
  intros Hlen Hn. unfold JS.sliceBounds.
  replace (0 <? 0)%Z with false by reflexivity.
  destruct (n <? 0)%Z eqn:E; [lia|].
  rewrite (Z.min_l 0 len) by lia. f_equal. lia.
Qed.

Lemma sliceArray_prefix {A : Type} (xs : list A) (n : Z) :
  (0 <= n)%Z -> JS.sliceArray xs 0 n = firstn (Z.to_nat n) xs.
Proof.
  intros Hn. unfold JS.sliceArray. rewrite sliceBounds_prefix by lia.
  rewrite skipn_O. destruct (Z.le_ge_cases n (Z.of_nat (length xs))) as [H|H].
  - rewrite Z.min_l by lia. reflexivity.
  - rewrite Z.min_r by lia. rewrite Nat2Z.id.
    rewrite (firstn_all2 (n := length xs) xs) by lia.
    rewrite (firstn_all2 (n := Z.to_nat n) xs) by lia. reflexivity.
Qed.

Lemma sliceArray_prefix_idempotent {A : Type} (xs : list A) (n : Z) :
  (0 <= n)%Z -> JS.sliceArray (JS.sliceArray xs 0 n) 0 n = JS.sliceArray xs 0 n.
Proof.
  intros Hn. rewrite !sliceArray_prefix by lia.
  rewrite firstn_firstn. f_equal. lia.
Qed.

Lemma items_sliceArray {A : Type} (xs : option (list A)) (n : Z) :
  (1 <= n)%Z ->
  ContextFormat.items (option_map (fun es => JS.sliceArray es 0 n) xs)
  = option_map (fun es => JS.sliceArray es 0 n) (ContextFormat.items xs).
Proof.
  intros Hn. destruct xs as [[|x xs]|]; simpl; try reflexivity.
  - rewrite sliceArray_prefix by lia. now destruct (Z.to_nat n).
  - rewrite sliceArray_prefix by lia.
    destruct (Z.to_nat n) as [|m] eqn:E; [lia | reflexivity].
Qed.

Lemma substring_0_substring_0 (n : nat) (s : string) :
  substring 0 n (substring 0 n s) = substring 0 n s.
Proof.
  revert s; induction n as [|n IH]; intros [|c s]; simpl; try reflexivity.
  now rewrite IH.
Qed.

Lemma substring_0_all (n : nat) (s : string) :
  String.length s <= n -> substring 0 n s = s.
Proof.
  revert s; induction n as [|n IH]; intros [|c s] H; simpl in *; try reflexivity; try lia.
  rewrite IH; [reflexivity | lia].
Qed.

Lemma sliceString_prefix (s : string) (n : Z) :
  (0 <= n)%Z -> JS.sliceString s 0 n = substring 0 (Z.to_nat n) s.
Proof.
  intros Hn. unfold JS.sliceString. rewrite sliceBounds_prefix by lia.
  destruct (Z.le_ge_cases n (Z.of_nat (String.length s))) as [H|H].
  - rewrite Z.min_l by lia. reflexivity.
  - rewrite Z.min_r by lia. rewrite Nat2Z.id.
    rewrite (substring_0_all (String.length s) s) by lia.
    rewrite (substring_0_all (Z.to_nat n) s) by lia. reflexivity.
Qed.

Lemma sliceString_prefix_idempotent (s : string) (n : Z) :
  (0 <= n)%Z -> JS.sliceString (JS.sliceString s 0 n) 0 n = JS.sliceString s 0 n.
Proof. intros Hn. rewrite !sliceString_prefix by lia. apply substring_0_substring_0. Qed.

Lemma text_sliceString (w : option string) (n : Z) :
  (1 <= n)%Z ->
  ContextFormat.text (option_map (fun s => JS.sliceString s 0 n) w)
  = option_map (fun s => JS.sliceString s 0 n) (ContextFormat.text w).
Proof.
  intros Hn. destruct w as [[|c s]|]; simpl; try reflexivity.
  - rewrite sliceString_prefix by lia. now destruct (Z.to_nat n).
  - rewrite sliceString_prefix by lia.
    destruct (Z.to_nat n) as [|m] eqn:E; [lia | reflexivity].
Qed.

Lemma budgets_positive (t : ContextFormat.ContextTier) :
  let b := ContextFormat.TIER_BUDGETS t in
  (1 <= ContextFormat.facts (ContextFormat.userBudget b))%Z
  /\ (1 <= ContextFormat.insights (ContextFormat.userBudget b))%Z
  /\ (1 <= ContextFormat.aiFacts (ContextFormat.aiBudget b))%Z
  /\ (1 <= ContextFormat.work (ContextFormat.aiBudget b))%Z.
Proof. destruct t; cbn; lia. Qed.

Section Capping.
Import ContextFormat.

Variables maxFacts maxInsights maxWorkChars : Z.
Hypothesis facts_positive : (1 <= maxFacts)%Z.
Hypothesis insights_positive : (1 <= maxInsights)%Z.
Hypothesis work_positive : (1 <= maxWorkChars)%Z.

Ltac cap_cases :=
  rewrite ?items_sliceArray, ?text_sliceString by assumption;
  repeat match goal with
         | |- context [items ?x] => destruct (items x); cbn [option_map]
         | |- context [text ?x] => destruct (text x); cbn [option_map]
         end;
  rewrite ?sliceArray_prefix_idempotent, ?sliceString_prefix_idempotent by lia;
  reflexivity.

Lemma buildCompactUserFacts_capped (context : option UserContext) :
  buildCompactUserFacts (option_map (Spec.capContext maxFacts maxInsights) context)
    maxFacts maxInsights
  = buildCompactUserFacts context maxFacts maxInsights.
Proof.
  destruct context as [[pc ex de]|]; [|reflexivity].
  unfold buildCompactUserFacts, Spec.capContext.
  cbn [option_map mbind option_bind peerCard explicit deductive]. cap_cases.
Qed.

Lemma buildVerboseUserContext_capped (name : string) (context : option UserContext)
    (dialectic : option string) :
  buildVerboseUserContext name
    (option_map (Spec.capContext maxFacts maxInsights) context) dialectic
    maxFacts maxInsights
  = buildVerboseUserContext name context dialectic maxFacts maxInsights.
Proof.
  destruct context as [[pc ex de]|]; [|reflexivity].
  unfold buildVerboseUserContext, Spec.capContext.
  cbn [option_map mbind option_bind peerCard explicit deductive]. cap_cases.
Qed.

Lemma buildCompactAIWork_capped (context : option UserContext) (localWork : option string) :
  buildCompactAIWork (option_map (Spec.capFacts maxFacts) context)
    (option_map (fun w => JS.sliceString w 0 maxWorkChars) localWork)
    maxFacts maxWorkChars
  = buildCompactAIWork context localWork maxFacts maxWorkChars.
Proof.
  unfold buildCompactAIWork.
  destruct context as [[pc ex de]|];
    unfold Spec.capFacts;
    cbn [option_map mbind option_bind peerCard explicit deductive]; cap_cases.
Qed.

Lemma buildVerboseAIContext_capped (name : string) (context : option UserContext)
    (dialectic localWork : option string) :
  buildVerboseAIContext name (option_map (Spec.capFacts maxFacts) context) dialectic
    (option_map (fun w => JS.sliceString w 0 maxWorkChars) localWork)
    maxFacts maxWorkChars
  = buildVerboseAIContext name context dialectic localWork maxFacts maxWorkChars.
Proof.
  unfold buildVerboseAIContext.
  destruct context as [[pc ex de]|];
    unfold Spec.capFacts;
    cbn [option_map mbind option_bind peerCard explicit deductive]; cap_cases.
Qed.

End Capping.

Ltac unfold_formatters :=
  unfold ContextFormat.formatCompressedContext, ContextFormat.formatVerboseContext,
    ContextFormat.compressedSections, ContextFormat.verboseSections,
    ContextFormat.buildCompactHeader, ContextFormat.buildVerboseHeader,
    Spec.withDialectic, Spec.capToBudget;
  cbn [ContextFormat.user ContextFormat.ai ContextFormat.session ContextFormat.git
       ContextFormat.feature ContextFormat.changes
       ContextFormat.User.name ContextFormat.User.context ContextFormat.User.dialectic
       ContextFormat.Ai.name ContextFormat.Ai.context ContextFormat.Ai.dialectic
       ContextFormat.Ai.localWork].

Lemma compressed_dialectic_gate :
  Spec.dialecticOnlyAtDeepestTierOnRequest ContextFormat.formatCompressedContext.
Proof.
  intros ctx config userText aiText Hgate. unfold_formatters.
  rewrite Hgate. reflexivity.
Qed.

Lemma verbose_dialectic_gate :
  Spec.dialecticOnlyOnRequest ContextFormat.formatVerboseContext.
Proof.
  intros ctx config userText aiText Hflag. unfold_formatters.
  rewrite Hflag. reflexivity.
Qed.

(** Nothing beyond the caps is read. *)
Lemma compressed_reads_no_further (ctx : ContextFormat.FullContext)
    (config : ContextFormat.ContextConfig) :
  ContextFormat.formatCompressedContext (Spec.capToBudget (ContextFormat.tier config) ctx) config
  = ContextFormat.formatCompressedContext ctx config.
Proof.
  unfold_formatters.
  destruct (budgets_positive (ContextFormat.tier config)) as (Hf & Hi & Ha & Hw).
  rewrite buildCompactUserFacts_capped by assumption.
  rewrite (buildCompactAIWork_capped _ _ Ha Hw).
  reflexivity.
Qed.

Lemma verbose_reads_no_further (ctx : ContextFormat.FullContext)
    (config : ContextFormat.ContextConfig) :
  ContextFormat.formatVerboseContext (Spec.capToBudget (ContextFormat.tier config) ctx) config
  = ContextFormat.formatVerboseContext ctx config.
Proof.
  unfold_formatters.
  destruct (budgets_positive (ContextFormat.tier config)) as (Hf & Hi & Ha & Hw).
  rewrite buildVerboseUserContext_capped by assumption.
  rewrite (buildVerboseAIContext_capped _ _ Ha Hw).
  reflexivity.
Qed.

(** Every position below a cap is read: checked position by position on
    [Examples.busyContext]. *)
Lemma reads_below
    (format : ContextFormat.FullContext -> ContextFormat.ContextConfig -> string)
    (config : ContextFormat.ContextConfig)
    (change : nat -> ContextFormat.FullContext -> ContextFormat.FullContext)
    (ctx : ContextFormat.FullContext) (cap : Z) :
  forallb (fun i => negb (String.eqb (format (change i ctx) config) (format ctx config)))
    (seq 0 (Z.to_nat cap)) = true ->
  forall i, (Z.of_nat i < cap)%Z -> Spec.reads format config (change i).
Proof.
  intros Hall i Hi. exists ctx. rewrite forallb_forall in Hall.
  assert (Hin : In i (seq 0 (Z.to_nat cap))) by (apply in_seq; lia).
  specialize (Hall i Hin). apply negb_true_iff in Hall. now apply String.eqb_neq.
Qed.

Ltac reads_every_position :=
  repeat split; intros i Hi;
  [ exists Examples.otherFact | exists Examples.otherInsight
  | exists Examples.otherFact | exists "b"%char ];
  revert i Hi;
  match goal with
  | |- forall i, _ -> Spec.reads ?format ?config (?outer (@?inner i)) =>
      apply (reads_below format config (fun i => outer (inner i)) Examples.busyContext)
  | |- forall i, _ -> Spec.reads ?format ?config (?outer ?f (@?inner i)) =>
      apply (reads_below format config (fun i => outer f (inner i)) Examples.busyContext)
  | |- forall i, _ -> Spec.reads ?format ?config (?outer (@?inner i) ?g) =>
      apply (reads_below format config (fun i => outer (inner i) g) Examples.busyContext)
  end;
  vm_compute; reflexivity.

Lemma compressed_draws_from_budget :
  Spec.drawsFromBudgetTable ContextFormat.formatCompressedContext.
Proof.
  intros config. cbv zeta. split; [intros ctx; apply compressed_reads_no_further|].
  destruct config as [t maxTokens [[|]|] compressedFormat]; destruct t;
    cbn [ContextFormat.tier ContextFormat.TIER_BUDGETS ContextFormat.userBudget
         ContextFormat.aiBudget ContextFormat.facts ContextFormat.insights
         ContextFormat.aiFacts ContextFormat.work];
    reads_every_position.
Qed.

Lemma verbose_draws_from_budget :
  Spec.drawsFromBudgetTable ContextFormat.formatVerboseContext.
Proof.
  intros config. cbv zeta. split; [intros ctx; apply verbose_reads_no_further|].
  destruct config as [t maxTokens [[|]|] compressedFormat]; destruct t;
    cbn [ContextFormat.tier ContextFormat.TIER_BUDGETS ContextFormat.userBudget
         ContextFormat.aiBudget ContextFormat.facts ContextFormat.insights
         ContextFormat.aiFacts ContextFormat.work];
    reads_every_position.
Qed.

Lemma in_verbose_user_dialectic (name : string) (context : option ContextFormat.UserContext)
    (dialectic : option string) (maxFacts maxInsights : Z) (d : string) :
  ContextFormat.text dialectic = Some d ->
  In d (ContextFormat.buildVerboseUserContext name context dialectic maxFacts maxInsights).
Proof.
  intros Hd. unfold ContextFormat.buildVerboseUserContext. rewrite Hd.
  apply in_or_app. right. right. left. reflexivity.
Qed.

Lemma in_verbose_ai_dialectic (name : string) (context : option ContextFormat.UserContext)
    (dialectic localWork : option string) (maxFacts maxWorkChars : Z) (d : string) :
  ContextFormat.text dialectic = Some d ->
  In d (ContextFormat.buildVerboseAIContext name context dialectic localWork
          maxFacts maxWorkChars).
Proof.
  intros Hd. unfold ContextFormat.buildVerboseAIContext. rewrite Hd.
  apply in_or_app. right. right. left. reflexivity.
Qed.

(** In verbose mode a requested dialectic text is a line block of the
    output at every tier. *)
Lemma verbose_includes_requested_dialectic
    (ctx : ContextFormat.FullContext) (config : ContextFormat.ContextConfig) (d : string) :
  ContextFormat.flag (ContextFormat.includeDialectic config) = true ->
  ContextFormat.text (ContextFormat.User.dialectic (ContextFormat.user ctx)) = Some d
  \/ ContextFormat.text (ContextFormat.Ai.dialectic (ContextFormat.ai ctx)) = Some d ->
  In d (ContextFormat.verboseSections ctx config).
Proof.
  intros Hflag Hd. unfold ContextFormat.verboseSections. rewrite Hflag.
  cbv zeta.
  match goal with
  | |- In d (if ?c then ?a ++ ?b else ?a) =>
      assert (Hin : In d a); [|destruct c; [apply in_or_app; left|]; exact Hin]
  end.
  destruct Hd as [Hu|Ha].
  - apply in_or_app. left. apply in_or_app. right.
    now apply in_verbose_user_dialectic.
  - apply in_or_app. right. now apply in_verbose_ai_dialectic.
Qed.

(** The verbose mode includes dialectic text below the deepest tier: at the
    essential tier, with dialectic requested, the verbose rendering of a
    context changes when its dialectic texts are removed. *)
Lemma verbose_dialectic_not_tier_gated :
  ~ Spec.dialecticOnlyAtDeepestTierOnRequest ContextFormat.formatVerboseContext.
Proof.
  intros Hclaim.
  specialize (Hclaim Examples.reflectiveContext Examples.essentialWithDialectic
                None None eq_refl).
  vm_compute in Hclaim. discriminate Hclaim.
Qed.

(** The modes do not select the same information: the working directory is
    printed by the verbose mode only, so two sessions that differ in it are
    rendered alike in compressed mode and differently in verbose mode. *)
Lemma modes_select_different_information : ~ Spec.sameInformationSelected.
Proof.
  intros Hclaim.
  destruct (Hclaim Examples.reflectiveContext Examples.movedContext
              Examples.essentialWithDialectic) as [Hverbose _].
  specialize (Hverbose eq_refl). vm_compute in Hverbose. discriminate Hverbose.
Qed.

(** C6, as stated, fails on both counts: the two modes do not select the
    same information, and the verbose mode includes dialectic text below
    the deepest tier. *)
Lemma rendering_modes_differ_beyond_markup :
  ~ Spec.sameInformationSelected
  /\ ~ Spec.dialecticOnlyAtDeepestTierOnRequest ContextFormat.formatVerboseContext.
Proof.
  split; [exact modes_select_different_information | exact verbose_dialectic_not_tier_gated].
Qed.

Example verbose_essential_rendering :
  ContextFormat.verboseSections Examples.reflectiveContext Examples.essentialWithDialectic
  = ["## Session Context"; "- User: eri"; "- AI: clawd"; "- Workspace: ws";
     "- Session: repo"; "- Directory: /home/eri/repo";
     "## AI Summary of eri"; "prefers small commits";
     "## AI Self-Reflection"; "tends to over-explain"]
  /\ ContextFormat.compressedSections Examples.reflectiveContext Examples.essentialWithDialectic
     = ["[honcho-memory]"; "user=eri | ai=clawd | ws=ws | session=repo";
        "[eri]"; "[clawd]"; "[end-memory]"].
Proof. split; vm_compute; reflexivity. Qed.

(** C6, amended.  Both rendering modes draw the fact, insight, AI-fact and
    work-text caps from the same budget table.  In compressed mode dialectic
    text is included only at the deepest tier and only if requested; in
    verbose mode it is included only if requested, and then at every
    tier. *)
Theorem rendering_modes_budget_and_dialectic :
  Spec.drawsFromBudgetTable ContextFormat.formatCompressedContext
  /\ Spec.drawsFromBudgetTable ContextFormat.formatVerboseContext
  /\ Spec.dialecticOnlyAtDeepestTierOnRequest ContextFormat.formatCompressedContext
  /\ Spec.dialecticOnlyOnRequest ContextFormat.formatVerboseContext
  /\ (forall ctx config d,
         ContextFormat.flag (ContextFormat.includeDialectic config) = true ->
         ContextFormat.text (ContextFormat.User.dialectic (ContextFormat.user ctx)) = Some d
         \/ ContextFormat.text (ContextFormat.Ai.dialectic (ContextFormat.ai ctx)) = Some d ->
         In d (ContextFormat.verboseSections ctx config)).
Proof.
  split; [|split; [|split; [|split]]].
  - apply compressed_draws_from_budget.
  - apply verbose_draws_from_budget.
  - apply compressed_dialectic_gate.
  - apply verbose_dialectic_gate.
  - apply verbose_includes_requested_dialectic.
Qed.

(** The caps are exact.  At the essential tier, which admits 3 facts, the
    third fact of the user is read by both modes and the fourth by
    neither. *)
Example essential_tier_reads_three_facts :
  let third := Spec.withUserContext (Spec.replaceFact 2 Examples.otherFact) in
  let fourth := Spec.withUserContext (Spec.replaceFact 3 Examples.otherFact) in
  ContextFormat.formatCompressedContext (third Examples.busyContext)
    Examples.essentialWithDialectic
  <> ContextFormat.formatCompressedContext Examples.busyContext Examples.essentialWithDialectic
  /\ ContextFormat.formatVerboseContext (third Examples.busyContext)
       Examples.essentialWithDialectic
     <> ContextFormat.formatVerboseContext Examples.busyContext Examples.essentialWithDialectic
  /\ ContextFormat.formatCompressedContext (fourth Examples.busyContext)
       Examples.essentialWithDialectic
     = ContextFormat.formatCompressedContext Examples.busyContext
         Examples.essentialWithDialectic
  /\ ContextFormat.formatVerboseContext (fourth Examples.busyContext)
       Examples.essentialWithDialectic
     = ContextFormat.formatVerboseContext Examples.busyContext Examples.essentialWithDialectic.
Proof.
  cbv zeta. repeat split; try (vm_compute; reflexivity);
    intros H; vm_compute in H; discriminate H.
Qed.

Lemma rendering_modes_budget_and_dialectic_witness :
  In "prefers small commits"
     (ContextFormat.verboseSections Examples.reflectiveContext Examples.essentialWithDialectic)
  /\ ContextFormat.formatCompressedContext
       (Spec.withDialectic None None Examples.reflectiveContext)
       Examples.essentialWithDialectic
     = ContextFormat.formatCompressedContext Examples.reflectiveContext
         Examples.essentialWithDialectic.
Proof.
  destruct rendering_modes_budget_and_dialectic as (_ & _ & Hcompressed & _ & Hverbose).
  split.
  - apply Hverbose; [reflexivity | left; reflexivity].
  - apply Hcompressed. reflexivity.
Defined.

(* ===================================================================== *)
(** * Lines of a text file                                                *)
(* ===================================================================== *)

Lemma contains_append (c : ascii) (s t : string) :
  contains c (s +:+ t) = contains c s || contains c t.
Proof.
  induction s as [|a s IH]; simpl; [reflexivity|].
  rewrite IH. now rewrite orb_assoc.
Qed.

Lemma split_line (l rest : string) :
  contains JS.newline l = false ->
  JS.split JS.newline (l +:+ String JS.newline rest) = l :: JS.split JS.newline rest.
Proof.
  induction l as [|c l IH]; intros Hl.
  - reflexivity.
  - simpl in Hl. apply orb_false_elim in Hl as [Hc Hl].
    simpl. rewrite Hc. rewrite (IH Hl). reflexivity.
Qed.

Lemma split_unlines (ls : list string) :
  Forall (fun l => contains JS.newline l = false) ls ->
  JS.split JS.newline (unlines ls) = ls ++ [EmptyString].
Proof.
  induction 1 as [|l ls Hl _ IH]; simpl; [reflexivity|].
  rewrite split_line by assumption. now rewrite IH.
Qed.

Lemma split_pieces_no_newline (text : string) :
  Forall (fun l => contains JS.newline l = false) (JS.split JS.newline text).
Proof.
  induction text as [|c text IH]; simpl.
  - repeat constructor.
  - destruct (Ascii.eqb c JS.newline) eqn:Hc.
    + constructor; [reflexivity | exact IH].
    + destruct (JS.split JS.newline text) as [|p ps]; inversion IH; subst.
      * repeat constructor. simpl. now rewrite Hc.
      * constructor; [simpl; now rewrite Hc | assumption].
Qed.

Lemma nonBlankLines_are_lines (text : string) : Forall isLine (Cache.nonBlankLines text).
Proof.
  unfold Cache.nonBlankLines.
  pose proof (split_pieces_no_newline text) as H.
  induction H as [|l ls Hl _ IH]; simpl; [constructor|].
  destruct (JS.truthy (JS.trim l)) eqn:Ht; [|exact IH].
  constructor; [split; assumption | exact IH].
Qed.

Lemma filter_lines (p : string -> bool) (ls : list string) :
  Forall isLine ls -> Forall isLine (List.filter p ls).
Proof.
  induction 1 as [|l ls Hl _ IH]; simpl; [constructor|].
  destruct (p l); [constructor; assumption | exact IH].
Qed.

(** Reading back what was written line by line. *)
Lemma nonBlankLines_unlines (ls : list string) :
  Forall isLine ls -> Cache.nonBlankLines (unlines ls) = ls.
Proof.
  intros Hls. unfold Cache.nonBlankLines.
  rewrite split_unlines by (eapply Forall_impl; [exact Hls|]; now intros l [H _]).
  rewrite List.filter_app. simpl. rewrite app_nil_r.
  induction Hls as [|l ls [_ Hl] _ IH]; simpl; [reflexivity|].
  rewrite Hl. now rewrite IH.
Qed.

Lemma join_lines (ls : list string) :
  JS.join JS.nl ls +:+ (if Json.isNil ls then EmptyString else JS.nl) = unlines ls.
Proof.
  induction ls as [|l [|l' ls] IH].
  - reflexivity.
  - reflexivity.
  - change (JS.join JS.nl (l :: l' :: ls)) with (l +:+ JS.nl +:+ JS.join JS.nl (l' :: ls)).
    change (unlines (l :: l' :: ls)) with (l +:+ JS.nl +:+ unlines (l' :: ls)).
    rewrite <- IH. cbn [Json.isNil]. now rewrite !append_assoc.
Qed.

Lemma unlines_app (xs ys : list string) : unlines (xs ++ ys) = unlines xs +:+ unlines ys.
Proof.
  induction xs as [|x xs IH]; simpl; [reflexivity|].
  rewrite IH. now rewrite !append_assoc.
Qed.

(* ===================================================================== *)
(** * Message queue                                                       *)
(* ===================================================================== *)

Lemma messageQueueFile_ensureCacheDir (fs : Cache.Files) :
  Cache.messageQueueFile (Cache.ensureCacheDir fs) = Cache.messageQueueFile fs.
Proof. unfold Cache.ensureCacheDir. now destruct (Cache.cacheDirExists fs). Qed.

Lemma getProp_not_null (msg : Json.value) (key : string) :
  msg <> Json.Null -> Json.getProp msg key = Some (propOf msg key).
Proof. destruct msg; intros H; try reflexivity. now contradict H. Qed.

(** Which lines stay: those holding a value other than [null] whose [cwd]
    is not the string [d]. *)
Lemma remainsAfterUpload_iff (d line : string) :
  Cache.remainsAfterUpload d line = true
  <-> exists msg, Json.parse line = Some msg /\ msg <> Json.Null
                  /\ Json.strictEqualsString (propOf msg "cwd") d = false.
Proof.
  unfold Cache.remainsAfterUpload. destruct (Json.parse line) as [msg|]; cbn.
  - destruct (Json.getProp msg "cwd") as [c|] eqn:Hc; cbn.
    + assert (Hnn : msg <> Json.Null) by (intros ->; discriminate).
      rewrite getProp_not_null in Hc by assumption. injection Hc as <-.
      rewrite negb_true_iff. split.
      * intros H. exists msg. auto.
      * intros (m & Hm & _ & H). now injection Hm as <-.
    + split; [discriminate|]. intros (m & Hm & Hnn & _). injection Hm as <-.
      rewrite getProp_not_null in Hc by assumption. discriminate.
  - split; [discriminate|]. intros (m & Hm & _). discriminate.
Qed.

Lemma remainsAfterUpload_unparseable (d line : string) :
  Json.parse line = None -> Cache.remainsAfterUpload d line = false.
Proof. intros H. unfold Cache.remainsAfterUpload. now rewrite H. Qed.

Lemma queueLines_markMessagesUploaded (fs : Cache.Files) (d text : string) :
  JS.truthy d = true ->
  Cache.messageQueueFile fs = Some text ->
  Spec.queueLines (Cache.markMessagesUploaded (Some d) fs)
  = List.filter (Cache.remainsAfterUpload d) (Cache.nonBlankLines text).
Proof.
  intros Hd Hfile. unfold Cache.markMessagesUploaded, Cache.given. rewrite Hd.
  rewrite messageQueueFile_ensureCacheDir, Hfile.
  unfold Spec.queueLines, Cache.writeMessageQueue. cbn [Cache.messageQueueFile].
  rewrite join_lines. apply nonBlankLines_unlines.
  apply filter_lines, nonBlankLines_are_lines.
Qed.

(** C1, as stated, fails: a line that does not parse is removed by
    [markUploaded("/a")], here the damaged first line of a queue whose other
    line belongs to [/b]. *)
Lemma markUploaded_removes_unparseable_line : ~ Spec.uploadRetainsUnparseableLines.
Proof.
  intros Hclaim.
  specialize (Hclaim Examples.damagedQueue "/a" Examples.damagedLine eq_refl).
  assert (Hin : In Examples.damagedLine (Spec.queueLines Examples.damagedQueue))
    by (vm_compute; left; reflexivity).
  specialize (Hclaim Hin eq_refl).
  vm_compute in Hclaim. destruct Hclaim as [H|[]]. discriminate H.
Qed.

Example markUploaded_on_damaged_queue :
  Cache.messageQueueFile (Cache.markMessagesUploaded (Some "/a") Examples.damagedQueue)
  = Some (Cache.stringifyMessage Examples.intactMessage +:+ JS.nl).
Proof. vm_compute. reflexivity. Qed.

(** C1, amended.  For a given (non-empty) working directory [d],
    [markMessagesUploaded(d)] rewrites the queue file with exactly those of
    its non-blank lines, in their order, that hold a JSON value other than
    [null] whose [cwd] is not [d].  A line that does not parse is removed
    with the lines of [d]; it does not stop the other lines from being
    judged, each on its own. *)
Theorem markMessagesUploaded_keeps_other_directories
    (fs : Cache.Files) (d text : string) :
  JS.truthy d = true ->
  Cache.messageQueueFile fs = Some text ->
  Spec.queueLines (Cache.markMessagesUploaded (Some d) fs)
  = List.filter (Cache.remainsAfterUpload d) (Cache.nonBlankLines text)
  /\ (forall line,
         In line (Spec.queueLines (Cache.markMessagesUploaded (Some d) fs))
         <-> In line (Cache.nonBlankLines text)
             /\ exists msg, Json.parse line = Some msg /\ msg <> Json.Null
                            /\ Json.strictEqualsString (propOf msg "cwd") d = false)
  /\ (forall line,
         Json.parse line = None ->
         ~ In line (Spec.queueLines (Cache.markMessagesUploaded (Some d) fs))).
Proof.
  intros Hd Hfile.
  pose proof (queueLines_markMessagesUploaded fs d text Hd Hfile) as Hlines.
  split; [exact Hlines|]. rewrite Hlines. split.
  - intros line. rewrite filter_In, remainsAfterUpload_iff. reflexivity.
  - intros line Hparse Hin. apply filter_In in Hin as [_ Hkeep].
    rewrite remainsAfterUpload_unparseable in Hkeep by assumption. discriminate.
Qed.

Lemma markMessagesUploaded_keeps_other_directories_witness :
  Spec.queueLines (Cache.markMessagesUploaded (Some "/a") Examples.damagedQueue)
  = List.filter (Cache.remainsAfterUpload "/a")
      (Cache.nonBlankLines
         (Examples.damagedLine +:+ JS.nl
          +:+ Cache.stringifyMessage Examples.intactMessage +:+ JS.nl)).
Proof.
  exact (proj1 (markMessagesUploaded_keeps_other_directories Examples.damagedQueue "/a"
                  (Examples.damagedLine +:+ JS.nl
                   +:+ Cache.stringifyMessage Examples.intactMessage +:+ JS.nl)
                  eq_refl eq_refl)).
Defined.

Lemma mapThrowing_all {A B : Type} (f : A -> option B) (g : A -> B) (xs : list A) :
  Forall (fun x => f x = Some (g x)) xs ->
  Cache.mapThrowing f xs = Some (List.map g xs).
Proof.
  induction 1 as [|x xs Hx _ IH]; simpl; [reflexivity|].
  rewrite Hx, IH. reflexivity.
Qed.

Lemma mapThrowing_throws {A B : Type} (f : A -> option B) (xs : list A) :
  Exists (fun x => f x = None) xs -> Cache.mapThrowing f xs = None.
Proof.
  induction 1 as [x xs Hx | x xs _ IH]; simpl.
  - now rewrite Hx.
  - rewrite IH. now destruct (f x).
Qed.

Lemma filterThrowing_all {A : Type} (p : A -> option bool) (q : A -> bool) (xs : list A) :
  Forall (fun x => p x = Some (q x)) xs ->
  Cache.filterThrowing p xs = Some (List.filter q xs).
Proof.
  induction 1 as [|x xs Hx _ IH]; simpl; [reflexivity|].
  rewrite Hx, IH. cbn. now destruct (q x).
Qed.

Lemma filterThrowing_throws {A : Type} (p : A -> option bool) (xs : list A) :
  Exists (fun x => p x = None) xs -> Cache.filterThrowing p xs = None.
Proof.
  induction 1 as [x xs Hx | x xs _ IH]; simpl.
  - now rewrite Hx.
  - rewrite IH. now destruct (p x).
Qed.

Lemma mapThrowing_inv {A B : Type} (f : A -> option B) (xs : list A) (ys : list B) :
  Cache.mapThrowing f xs = Some ys -> Forall2 (fun x y => f x = Some y) xs ys.
Proof.
  revert ys; induction xs as [|x xs IH]; intros ys H; simpl in H.
  - injection H as <-. constructor.
  - destruct (f x) as [y|] eqn:Hx; [|discriminate]. cbn in H.
    destruct (Cache.mapThrowing f xs) as [ys'|]; [|discriminate]. cbn in H.
    injection H as <-. constructor; [exact Hx | now apply IH].
Qed.

(** The body of the [try] block in [getQueuedMessages]. *)
Lemma pending_when_all_lines_hold_values (forCwd : option string) (lines : list string) :
  Forall holdsValue lines ->
  (parsed ← Cache.mapThrowing Json.parse lines;
   messages ← Cache.filterThrowing
                (fun msg => u ← Json.getProp msg "uploaded"; Some (negb (Json.toBoolean u)))
                parsed;
   match Cache.given forCwd with
   | Some d =>
       Cache.filterThrowing
         (fun msg => c ← Json.getProp msg "cwd"; Some (Json.strictEqualsString c d))
         messages
   | None => Some messages
   end)
  = Some (List.concat (List.map (Spec.pendingOfLine forCwd) lines)).
Proof.
  intros Hlines.
  set (force := fun line => match Json.parse line with Some v => v | None => Json.Null end).
  assert (Hparse : Forall (fun line => Json.parse line = Some (force line)) lines).
  { eapply Forall_impl; [exact Hlines|]. intros line (msg & Hmsg & _).
    unfold force. now rewrite Hmsg. }
  assert (Hvalues : Forall (fun msg => msg <> Json.Null) (List.map force lines)).
  { apply Forall_map. eapply Forall_impl; [exact Hlines|]. intros line (msg & Hmsg & Hnn).
    unfold force. now rewrite Hmsg. }
  rewrite (mapThrowing_all _ force) by exact Hparse. cbn [mbind option_bind].
  rewrite (filterThrowing_all _ (fun msg => negb (Json.toBoolean (propOf msg "uploaded")))).
  2:{ eapply Forall_impl; [exact Hvalues|]. intros msg Hnn.
      now rewrite getProp_not_null by assumption. }
  cbn [mbind option_bind].
  assert (Hone : forall line, holdsValue line ->
            Spec.pendingOfLine forCwd line
            = if Json.toBoolean (propOf (force line) "uploaded") then []
              else match Cache.given forCwd with
                   | Some d => if Json.strictEqualsString (propOf (force line) "cwd") d
                               then [force line] else []
                   | None => [force line]
                   end).
  { intros line (msg & Hmsg & Hnn). unfold Spec.pendingOfLine, force. rewrite Hmsg.
    now rewrite !getProp_not_null by assumption. }
  destruct (Cache.given forCwd) as [d|].
  - rewrite (filterThrowing_all _ (fun msg => Json.strictEqualsString (propOf msg "cwd") d)).
    2:{ apply List.Forall_forall. intros msg Hin. apply filter_In in Hin as [Hin _].
        rewrite List.Forall_forall in Hvalues.
        now rewrite getProp_not_null by (apply Hvalues, Hin). }
    f_equal. clear Hparse Hvalues.
    induction Hlines as [|line lines Hline _ IH]; [reflexivity|].
    cbn [List.map List.concat List.filter]. rewrite (Hone line Hline), <- IH.
    destruct (Json.toBoolean (propOf (force line) "uploaded")); cbn [negb List.filter]; [reflexivity|].
    destruct (Json.strictEqualsString (propOf (force line) "cwd") d); reflexivity.
  - f_equal. clear Hparse Hvalues.
    induction Hlines as [|line lines Hline _ IH]; [reflexivity|].
    cbn [List.map List.concat List.filter]. rewrite (Hone line Hline), <- IH.
    destruct (Json.toBoolean (propOf (force line) "uploaded")); reflexivity.
Qed.

Lemma nothing_when_a_line_holds_no_value (forCwd : option string) (lines : list string) :
  Exists holdsNoValue lines ->
  (parsed ← Cache.mapThrowing Json.parse lines;
   messages ← Cache.filterThrowing
                (fun msg => u ← Json.getProp msg "uploaded"; Some (negb (Json.toBoolean u)))
                parsed;
   match Cache.given forCwd with
   | Some d =>
       Cache.filterThrowing
         (fun msg => c ← Json.getProp msg "cwd"; Some (Json.strictEqualsString c d))
         messages
   | None => Some messages
   end)
  = None.
Proof.
  intros Hbad.
  destruct (Cache.mapThrowing Json.parse lines) as [parsed|] eqn:Hparsed; [|reflexivity].
  cbn [mbind option_bind].
  rewrite filterThrowing_throws; [reflexivity|].
  apply mapThrowing_inv in Hparsed.
  induction Hparsed as [|line msg lines parsed Hline _ IH].
  - inversion Hbad.
  - inversion Hbad as [? ? [Hnone|Hnull] | ? ? Hrest]; subst.
    + congruence.
    + left. rewrite Hline in Hnull. injection Hnull as ->. reflexivity.
    + right. now apply IH.
Qed.

Lemma getQueuedMessages_reads_all (fs : Cache.Files) (forCwd : option string) (text : string) :
  Cache.messageQueueFile fs = Some text ->
  Forall holdsValue (Cache.nonBlankLines text) ->
  fst (Cache.getQueuedMessages forCwd fs) = Spec.pendingMessages forCwd text.
Proof.
  intros Hfile Hall. unfold Cache.getQueuedMessages.
  rewrite messageQueueFile_ensureCacheDir, Hfile. cbn [fst].
  rewrite pending_when_all_lines_hold_values by assumption. reflexivity.
Qed.

Lemma getQueuedMessages_reads_nothing (fs : Cache.Files) (forCwd : option string)
    (text : string) :
  Cache.messageQueueFile fs = Some text ->
  Exists holdsNoValue (Cache.nonBlankLines text) ->
  fst (Cache.getQueuedMessages forCwd fs) = [].
Proof.
  intros Hfile Hbad. unfold Cache.getQueuedMessages.
  rewrite messageQueueFile_ensureCacheDir, Hfile. cbn [fst].
  rewrite nothing_when_a_line_holds_no_value by assumption. reflexivity.
Qed.

(** C2, as stated, fails: one damaged line is fatal to the read.  The
    pending message on the other line of the damaged queue is not
    returned. *)
Lemma damaged_line_empties_the_read : ~ Spec.readSurvivesBadLines.
Proof.
  intros Hclaim.
  specialize (Hclaim Examples.damagedQueue _ eq_refl).
  vm_compute in Hclaim. discriminate Hclaim.
Qed.

Example getQueuedMessages_on_damaged_queue :
  fst (Cache.getQueuedMessages None Examples.damagedQueue) = []
  /\ Spec.pendingMessages None
       (Examples.damagedLine +:+ JS.nl
        +:+ Cache.stringifyMessage Examples.intactMessage +:+ JS.nl)
     = [messageValue Examples.intactMessage].
Proof. split; vm_compute; reflexivity. Qed.

(** C2, amended.  [getQueuedMessages] reads the queue all or nothing.  When
    every non-blank line holds a JSON value other than [null], it returns
    the messages whose [uploaded] is not set (of the given directory, when
    one is given) in file order, oldest first.  When some non-blank line
    does not parse (or is [null]), the read yields the empty list: the
    failure is caught, and is silent, but the messages on the other lines
    are not returned. *)
Theorem getQueuedMessages_all_or_nothing
    (fs : Cache.Files) (forCwd : option string) (text : string) :
  Cache.messageQueueFile fs = Some text ->
  (Forall holdsValue (Cache.nonBlankLines text) ->
   fst (Cache.getQueuedMessages forCwd fs) = Spec.pendingMessages forCwd text)
  /\ (Exists holdsNoValue (Cache.nonBlankLines text) ->
      fst (Cache.getQueuedMessages forCwd fs) = []).
Proof.
  intros Hfile. split.
  - now apply getQueuedMessages_reads_all.
  - now apply getQueuedMessages_reads_nothing.
Qed.

Lemma getQueuedMessages_all_or_nothing_witness :
  fst (Cache.getQueuedMessages None Examples.intactQueue)
  = Spec.pendingMessages None (Cache.stringifyMessage Examples.intactMessage +:+ JS.nl)
  /\ fst (Cache.getQueuedMessages None Examples.damagedQueue) = [].
Proof.
  split.
  - refine (proj1 (getQueuedMessages_all_or_nothing Examples.intactQueue None _ eq_refl) _).
    constructor; [|constructor].
    eexists. split; [vm_compute; reflexivity | discriminate].
  - refine (proj2 (getQueuedMessages_all_or_nothing Examples.damagedQueue None _ eq_refl) _).
    left. left. vm_compute. reflexivity.
Defined.

(* ===================================================================== *)
(** * JSON round trip of a queued message                                 *)
(* ===================================================================== *)

Lemma parseStringBody_quoteChar (c : ascii) (tail : string) :
  Json.parseStringBody (Json.quoteChar c +:+ tail)
  = match Json.parseStringBody tail with
    | Some (us, r) => Some (N_of_ascii c :: us, r)
    | None => None
    end.
Proof. destruct c as [[] [] [] [] [] [] [] []]; reflexivity. Qed.

Lemma contains_newline_quoteChar (c : ascii) :
  contains JS.newline (Json.quoteChar c) = false.
Proof. destruct c as [[] [] [] [] [] [] [] []]; reflexivity. Qed.

(** A quoted string body reads back as the code units of the string. *)
Lemma parseStringBody_quoteBody (s rest : string) :
  Json.parseStringBody (Json.quoteBody s +:+ String Json.quote rest)
  = Some (Json.codeUnits s, rest).
Proof.
  induction s as [|c s IH].
  - reflexivity.
  - cbn [Json.quoteBody]. rewrite append_assoc, parseStringBody_quoteChar, IH. reflexivity.
Qed.

Lemma contains_newline_quoteBody (s : string) :
  contains JS.newline (Json.quoteBody s) = false.
Proof.
  induction s as [|c s IH]; [reflexivity|].
  cbn [Json.quoteBody]. now rewrite contains_append, contains_newline_quoteChar, IH.
Qed.

Lemma stringifyString_append (s rest : string) :
  Json.stringifyString s +:+ rest
  = String Json.quote (Json.quoteBody s +:+ String Json.quote rest).
Proof. unfold Json.stringifyString. cbn [String.append]. now rewrite append_assoc. Qed.

Lemma stringifyString_renders (s : string) :
  rendersTo (Json.stringifyString s) (Json.Str (Json.codeUnits s)).
Proof.
  intros fuel rest. rewrite stringifyString_append.
  change (Json.parseValue (S fuel) (String Json.quote ?x))
    with (Json.parseStringBody x ≫= λ '(us, r), Some (Json.Str us, r)).
  now rewrite parseStringBody_quoteBody.
Qed.

Lemma stringifyBool_renders (b : bool) :
  rendersTo (Cache.stringifyBool b) (Json.Bool b).
Proof. intros fuel rest. destruct b; reflexivity. Qed.

(** A serialised member list reads back member by member. *)
Lemma parseMembers_rendered (ms : list (string * string * Json.value))
    (fuel : nat) (rest : string) :
  ms <> [] ->
  length ms <= fuel ->
  Forall (fun m => rendersTo (snd (fst m)) (snd m)) ms ->
  Json.parseMembers (S fuel)
    (JS.join "," (List.map (fun m => Cache.member (fst (fst m)) (snd (fst m))) ms)
     +:+ String "}" rest)
  = Some (List.map (fun m => (Json.codeUnits (fst (fst m)), snd m)) ms, rest).
Proof.
  intros Hne Hfuel Hms. revert fuel Hfuel.
  induction Hms as [|[[k r] v] ms Hm Hms IH]; [contradiction|]. clear Hne.
  intros fuel Hfuel. cbn [length] in Hfuel.
  destruct fuel as [|fuel]; [lia|].
  cbn [fst snd] in Hm.
  assert (Hhead : forall tail,
             Json.parseMembers (S (S fuel)) (Cache.member k r +:+ tail)
             = '(v', r3) ← Json.parseValue (S fuel) (r +:+ tail);
               match Json.skipWs r3 with
               | String c3 r4 =>
                   if Ascii.eqb c3 ","
                   then '(ms', r5) ← Json.parseMembers (S fuel) r4;
                        Some ((Json.codeUnits k, v') :: ms', r5)
                   else if Ascii.eqb c3 "}" then Some ([(Json.codeUnits k, v')], r4)
                   else None
               | EmptyString => None
               end).
  { intros tail. unfold Cache.member. rewrite !append_assoc, stringifyString_append.
    change (Json.parseMembers (S (S fuel)) (String Json.quote ?x))
      with ('(k', r1) ← Json.parseStringBody x;
            match Json.skipWs r1 with
            | String c1 r2 =>
                if Ascii.eqb c1 ":" then
                  '(v', r3) ← Json.parseValue (S fuel) r2;
                  match Json.skipWs r3 with
                  | String c3 r4 =>
                      if Ascii.eqb c3 ","
                      then '(ms', r5) ← Json.parseMembers (S fuel) r4;
                           Some ((k', v') :: ms', r5)
                      else if Ascii.eqb c3 "}" then Some ([(k', v')], r4)
                      else None
                  | EmptyString => None
                  end
                else None
            | EmptyString => None
            end).
    rewrite parseStringBody_quoteBody. reflexivity. }
  destruct ms as [|m' ms].
  - cbn [List.map JS.join fst snd]. rewrite Hhead, Hm. reflexivity.
  - change (JS.join "," (List.map ?f ((k, r, v) :: m' :: ms)))
      with (Cache.member k r +:+ "," +:+ JS.join "," (List.map f (m' :: ms))).
    rewrite !append_assoc. rewrite Hhead, Hm.
    cbn [mbind option_bind String.append Json.skipWs].
    change (Json.isJsonWs ",") with false. cbv iota beta.
    change (Ascii.eqb "," ",") with true. cbv iota.
    rewrite IH by (cbn [length] in *; first [discriminate | lia]).
    reflexivity.
Qed.

Lemma messageMembers_render (m : Cache.QueuedMessage) :
  Forall (fun x => rendersTo (snd (fst x)) (snd x)) (messageMembers m).
Proof.
  unfold messageMembers.
  repeat first [apply Forall_cons; split | apply Forall_app; split
               | apply Forall_nil; exact I ];
    cbn [fst snd]; try apply stringifyString_renders.
  - destruct (Cache.uploaded m); repeat constructor. apply stringifyBool_renders.
  - destruct (Cache.instanceId m); repeat constructor. apply stringifyString_renders.
Qed.

Lemma stringifyMessage_members (m : Cache.QueuedMessage) :
  Cache.stringifyMessage m
  = String "{" (JS.join "," (List.map (fun x => Cache.member (fst (fst x)) (snd (fst x)))
                               (messageMembers m))
                +:+ String "}" EmptyString)
  /\ messageValue m
     = Json.Obj (List.map (fun x => (Json.codeUnits (fst (fst x)), snd x)) (messageMembers m)).
Proof.
  unfold Cache.stringifyMessage, messageValue, messageMembers, Cache.optionalMember.
  destruct (Cache.uploaded m), (Cache.instanceId m); split; reflexivity.
Qed.

Lemma length_stringifyMessage (m : Cache.QueuedMessage) :
  3 <= String.length (Cache.stringifyMessage m).
Proof.
  destruct (stringifyMessage_members m) as [-> _]. unfold messageMembers.
  cbn [app List.map JS.join fst snd]. unfold Cache.member at 1.
  rewrite !append_assoc, stringifyString_append. cbn [String.length].
  rewrite length_append. cbn [String.length]. lia.
Qed.

Lemma join_members_starts_with_quote (ms : list (string * string * Json.value))
    (tail : string) :
  ms <> [] ->
  exists x,
    JS.join "," (List.map (fun m => Cache.member (fst (fst m)) (snd (fst m))) ms) +:+ tail
    = String Json.quote x.
Proof.
  destruct ms as [|[[k r] v] [|m' ms]]; [contradiction| |]; intros _.
  - cbn [List.map JS.join fst snd]. unfold Cache.member.
    rewrite append_assoc, stringifyString_append. eauto.
  - change (JS.join "," (List.map ?f ((k, r, v) :: m' :: ms)))
      with (Cache.member k r +:+ "," +:+ JS.join "," (List.map f (m' :: ms))).
    unfold Cache.member at 1. rewrite !append_assoc, stringifyString_append. eauto.
Qed.

(** A serialised object reads back as the object of its members. *)
Lemma parseValue_rendered_object (ms : list (string * string * Json.value))
    (fuel : nat) (rest : string) :
  ms <> [] ->
  length ms <= fuel ->
  Forall (fun m => rendersTo (snd (fst m)) (snd m)) ms ->
  Json.parseValue (S (S fuel))
    (String "{" (JS.join "," (List.map (fun m => Cache.member (fst (fst m)) (snd (fst m))) ms)
                 +:+ String "}" rest))
  = Some (Json.Obj (List.map (fun m => (Json.codeUnits (fst (fst m)), snd m)) ms), rest).
Proof.
  intros Hne Hfuel Hms.
  pose proof (parseMembers_rendered ms fuel rest Hne Hfuel Hms) as Hparse.
  destruct (join_members_starts_with_quote ms (String "}" rest) Hne) as [x Hx].
  rewrite Hx in *.
  change (Json.parseValue (S (S fuel)) (String "{" (String Json.quote x)))
    with ('(ms', r') ← Json.parseMembers (S fuel) (String Json.quote x);
          Some (Json.Obj ms', r')).
  rewrite Hparse. reflexivity.
Qed.

(** [JSON.parse(JSON.stringify(message))] gives the message back. *)
Lemma parse_stringifyMessage (m : Cache.QueuedMessage) :
  Json.parse (Cache.stringifyMessage m) = Some (messageValue m).
Proof.
  unfold Json.parse, Json.parseFuel.
  pose proof (length_stringifyMessage m) as Hlen.
  destruct (2 * String.length (Cache.stringifyMessage m) + 2) as [|[|fuel]] eqn:Hfuel; try lia.
  destruct (stringifyMessage_members m) as [-> ->].
  rewrite parseValue_rendered_object.
  - reflexivity.
  - unfold messageMembers. discriminate.
  - assert (length (messageMembers m) <= 6); [|lia].
    unfold messageMembers. rewrite !length_app.
    destruct (Cache.uploaded m), (Cache.instanceId m); cbn; lia.
  - apply messageMembers_render.
Qed.

Lemma contains_join (c : ascii) (sep : string) (xs : list string) :
  contains c sep = false ->
  Forall (fun x => contains c x = false) xs ->
  contains c (JS.join sep xs) = false.
Proof.
  intros Hsep. induction 1 as [|x xs Hx Hxs IH]; [reflexivity|].
  destruct xs as [|y ys]; [exact Hx|].
  change (JS.join sep (x :: y :: ys)) with (x +:+ sep +:+ JS.join sep (y :: ys)).
  now rewrite !contains_append, Hx, Hsep, IH.
Qed.

Lemma contains_newline_stringifyString (s : string) :
  contains JS.newline (Json.stringifyString s) = false.
Proof.
  unfold Json.stringifyString. cbn [contains].
  rewrite contains_append, contains_newline_quoteBody. reflexivity.
Qed.

Lemma truthy_trim_starts_with (c : ascii) (s : string) :
  JS.isWhiteSpace c = false -> JS.truthy (JS.trim (String c s)) = true.
Proof.
  intros Hc. unfold JS.trim. cbn [JS.trimStart]. rewrite Hc.
  cbn [JS.trimEnd]. destruct (JS.trimEnd s); [now rewrite Hc | reflexivity].
Qed.

(** A serialised message is one line of the queue file. *)
Lemma stringifyMessage_is_line (m : Cache.QueuedMessage) : isLine (Cache.stringifyMessage m).
Proof.
  destruct (stringifyMessage_members m) as [-> _]. split.
  - cbn [contains]. rewrite contains_append, contains_join; [reflexivity | reflexivity |].
    apply Forall_map. unfold messageMembers, Cache.member.
    repeat first [apply Forall_cons; split | apply Forall_app; split];
      cbn [fst snd]; rewrite ?contains_append, ?contains_newline_stringifyString;
      try reflexivity.
    + destruct (Cache.uploaded m) as [[]|]; repeat constructor.
    + destruct (Cache.instanceId m); repeat constructor. cbn [fst snd].
      now rewrite !contains_append, !contains_newline_stringifyString.
  - now apply truthy_trim_starts_with.
Qed.

Lemma codeUnits_inj (s t : string) : Json.codeUnits s = Json.codeUnits t -> s = t.
Proof.
  unfold Json.codeUnits. revert t; induction s as [|a s IH]; intros [|b t] H;
    cbn in H; try discriminate; [reflexivity|].
  injection H as Hab Hst. f_equal; [|now apply IH].
  rewrite <- (ascii_N_embedding a), <- (ascii_N_embedding b). now rewrite Hab.
Qed.

Lemma strictEqualsString_codeUnits (s d : string) :
  Json.strictEqualsString (Some (Json.Str (Json.codeUnits s))) d = String.eqb s d.
Proof.
  cbn [Json.strictEqualsString].
  destruct (String.eqb_spec s d) as [->|Hne].
  - now apply bool_decide_eq_true.
  - apply bool_decide_eq_false. intros H. now apply codeUnits_inj in H.
Qed.

Lemma propOf_messageValue (m : Cache.QueuedMessage) :
  propOf (messageValue m) "cwd" = Some (Json.Str (Json.codeUnits (Cache.cwd m)))
  /\ propOf (messageValue m) "uploaded" = option_map Json.Bool (Cache.uploaded m).
Proof.
  unfold messageValue. destruct (Cache.uploaded m), (Cache.instanceId m); split; reflexivity.
Qed.

Lemma messageValue_not_null (m : Cache.QueuedMessage) : messageValue m <> Json.Null.
Proof. discriminate. Qed.

(** A serialised message stays iff it belongs to another directory. *)
Lemma remainsAfterUpload_stringifyMessage (d : string) (m : Cache.QueuedMessage) :
  Cache.remainsAfterUpload d (Cache.stringifyMessage m) = negb (String.eqb (Cache.cwd m) d).
Proof.
  unfold Cache.remainsAfterUpload. rewrite parse_stringifyMessage. cbn [mbind option_bind].
  rewrite getProp_not_null by apply messageValue_not_null. cbn [mbind option_bind Cache.tryCatch].
  destruct (propOf_messageValue m) as [-> _].
  now rewrite strictEqualsString_codeUnits.
Qed.

Lemma pendingOfLine_stringifyMessage (m : Cache.QueuedMessage) :
  Cache.uploaded m = Some false ->
  Spec.pendingOfLine None (Cache.stringifyMessage m) = [messageValue m].
Proof.
  intros Hup. unfold Spec.pendingOfLine. rewrite parse_stringifyMessage.
  rewrite !getProp_not_null by apply messageValue_not_null.
  destruct (propOf_messageValue m) as [_ ->]. rewrite Hup. reflexivity.
Qed.

Lemma holdsValue_stringifyMessage (m : Cache.QueuedMessage) :
  holdsValue (Cache.stringifyMessage m).
Proof. exists (messageValue m). split; [apply parse_stringifyMessage | discriminate]. Qed.

Lemma enqueue_appends (fs : Cache.Files) (e : Enqueue) :
  Cache.messageQueueFile (enqueue fs e)
  = Some (queueText fs +:+ unlines [Cache.stringifyMessage (queuedBy e)]).
Proof.
  unfold enqueue, Cache.queueMessage, queueText, Cache.writeMessageQueue.
  cbn [Cache.messageQueueFile]. rewrite messageQueueFile_ensureCacheDir.
  cbn [unlines]. now rewrite append_empty_r.
Qed.

Lemma enqueueAll_appends (es : list Enqueue) (fs : Cache.Files) :
  queueText (enqueueAll es fs)
  = queueText fs +:+ unlines (List.map (fun e => Cache.stringifyMessage (queuedBy e)) es).
Proof.
  unfold enqueueAll. revert fs. induction es as [|e es IH]; intros fs.
  - cbn. now rewrite append_empty_r.
  - cbn [fold_left List.map]. rewrite IH. unfold queueText at 1.
    rewrite enqueue_appends. cbn [unlines]. rewrite !append_assoc. reflexivity.
Qed.

Lemma enqueueAll_file (es : list Enqueue) (fs : Cache.Files) :
  es <> [] -> Cache.messageQueueFile (enqueueAll es fs) = Some (queueText (enqueueAll es fs)).
Proof.
  intros Hne. unfold queueText.
  destruct (Cache.messageQueueFile (enqueueAll es fs)) eqn:H; [reflexivity|].
  exfalso. revert fs H. unfold enqueueAll.
  induction es as [|e es IH] using rev_ind; [contradiction|]. intros fs.
  rewrite fold_left_app. cbn [fold_left]. now rewrite enqueue_appends.
Qed.

Lemma getQueuedMessages_no_file (forCwd : option string) (fs : Cache.Files) :
  Cache.messageQueueFile fs = None -> fst (Cache.getQueuedMessages forCwd fs) = [].
Proof.
  intros H. unfold Cache.getQueuedMessages. now rewrite messageQueueFile_ensureCacheDir, H.
Qed.

Lemma markMessagesUploaded_no_file (d : string) (fs : Cache.Files) :
  Cache.messageQueueFile fs = None ->
  Cache.messageQueueFile (Cache.markMessagesUploaded (Some d) fs) = None
  \/ Cache.messageQueueFile (Cache.markMessagesUploaded (Some d) fs) = Some EmptyString.
Proof.
  intros H. unfold Cache.markMessagesUploaded, Cache.given.
  destruct (JS.truthy d).
  - left. now rewrite messageQueueFile_ensureCacheDir, H, messageQueueFile_ensureCacheDir.
  - right. reflexivity.
Qed.

(** After the calls [es] on a fresh queue and [markMessagesUploaded(d)],
    the read returns the messages of the other directories, oldest first. *)
Lemma pending_after_selective_delete (es : list Enqueue) (fs : Cache.Files) (d : string) :
  Cache.messageQueueFile fs = None ->
  JS.truthy d = true ->
  fst (Cache.getQueuedMessages None (Cache.markMessagesUploaded (Some d) (enqueueAll es fs)))
  = List.map (fun e => messageValue (queuedBy e))
      (List.filter (fun e => negb (String.eqb (directory e) d)) es).
Proof.
  intros Hfresh Hd. destruct es as [|e0 es0] eqn:Hes.
  - cbn [enqueueAll fold_left List.filter List.map].
    destruct (markMessagesUploaded_no_file d fs Hfresh) as [H|H].
    + now apply getQueuedMessages_no_file.
    + unfold Cache.getQueuedMessages. rewrite messageQueueFile_ensureCacheDir, H. reflexivity.
  - rewrite <- Hes. assert (Hne : es <> []) by (rewrite Hes; discriminate). clear Hes e0 es0.
    pose proof (enqueueAll_file es fs Hne) as Hfile.
    rewrite enqueueAll_appends in Hfile. unfold queueText at 1 in Hfile.
    rewrite Hfresh in Hfile. cbn [String.append] in Hfile.
    set (lines := List.map (fun e => Cache.stringifyMessage (queuedBy e)) es) in *.
    assert (Hlines : Forall isLine lines).
    { apply Forall_map, List.Forall_forall. intros e _. apply stringifyMessage_is_line. }
    pose proof (queueLines_markMessagesUploaded _ d _ Hd Hfile) as Hremaining.
    rewrite nonBlankLines_unlines in Hremaining by assumption.
    unfold Spec.queueLines in Hremaining.
    destruct (Cache.messageQueueFile (Cache.markMessagesUploaded (Some d) (enqueueAll es fs)))
      as [text'|] eqn:Hfile'.
    + rewrite (getQueuedMessages_reads_all _ None _ Hfile').
      * unfold Spec.pendingMessages. rewrite Hremaining. unfold lines. clear.
        induction es as [|e es IH]; [reflexivity|].
        cbn [List.map List.filter]. rewrite remainsAfterUpload_stringifyMessage.
        cbn [queuedBy Cache.cwd].
        destruct (negb (String.eqb (directory e) d)); [|exact IH].
        cbn [List.map List.concat]. rewrite IH.
        now rewrite pendingOfLine_stringifyMessage.
      * rewrite Hremaining. apply List.Forall_forall. intros line Hin.
        apply filter_In in Hin as [Hin _]. unfold lines in Hin.
        apply in_map_iff in Hin as (e & <- & _). apply holdsValue_stringifyMessage.
    + rewrite getQueuedMessages_no_file by assumption.
      symmetry in Hremaining. revert Hremaining. unfold lines. clear.
      induction es as [|e es IH]; [reflexivity|].
      cbn [List.map List.filter]. rewrite remainsAfterUpload_stringifyMessage.
      cbn [queuedBy Cache.cwd].
      destruct (negb (String.eqb (directory e) d)); [discriminate | exact IH].
Qed.

(** C3. For every queue built by enqueuing messages for the working
    directories [/a] and [/b] on a fresh queue, after
    [markMessagesUploaded("/a")] the read returns exactly the messages whose
    [cwd] is [/b], in their insertion order. *)
Theorem selective_delete_leaves_other_directory (es : list Enqueue) (fs : Cache.Files) :
  Cache.messageQueueFile fs = None ->
  Forall (fun e => directory e = "/a" \/ directory e = "/b") es ->
  fst (Cache.getQueuedMessages None
         (Cache.markMessagesUploaded (Some "/a") (enqueueAll es fs)))
  = List.map (fun e => messageValue (queuedBy e))
      (List.filter (fun e => String.eqb (directory e) "/b") es).
Proof.
  intros Hfresh Hdirs. rewrite pending_after_selective_delete by (assumption || reflexivity).
  f_equal. induction Hdirs as [|e es [He|He] _ IH]; [reflexivity | |];
    cbn [List.filter]; rewrite He, IH; reflexivity.
Qed.

Lemma selective_delete_leaves_other_directory_witness :
  fst (Cache.getQueuedMessages None
         (Cache.markMessagesUploaded (Some "/a") (enqueueAll Examples.fiveCalls Cache.noFiles)))
  = [messageValue (queuedBy (Examples.call "2026-01-05T10:00:01.000Z" "first in b" "/b"));
     messageValue (queuedBy (Examples.call "2026-01-05T10:00:03.000Z" "second in b" "/b"))].
Proof.
  apply (selective_delete_leaves_other_directory Examples.fiveCalls Cache.noFiles).
  - reflexivity.
  - unfold Examples.fiveCalls.
    repeat (apply Forall_cons; split; [first [left; reflexivity | right; reflexivity]|]).
    apply Forall_nil. exact I.
Defined.

(* ===================================================================== *)
(** * Work log                                                            *)
(* ===================================================================== *)

Lemma findIndex_range {A : Type} (p : A -> bool) (xs : list A) :
  JS.findIndex p xs = (-1)%Z \/ (0 <= JS.findIndex p xs < Z.of_nat (length xs))%Z.
Proof.
  induction xs as [|x xs IH]; [left; reflexivity|].
  cbn [JS.findIndex length]. destruct (p x); [right; lia|].
  destruct IH as [-> | IH]; [left; reflexivity|].
  destruct (Z.eqb_spec (JS.findIndex p xs) (-1)); [lia | right; lia].
Qed.

(** The index found stays the index found when the list is cut after it
    and continued in any way. *)
Lemma findIndex_prefix {A : Type} (p : A -> bool) (xs ys : list A) :
  (0 <= JS.findIndex p xs)%Z ->
  JS.findIndex p (firstn (Z.to_nat (JS.findIndex p xs + 1)) xs ++ ys) = JS.findIndex p xs.
Proof.
  induction xs as [|x xs IH]; cbn [JS.findIndex]; [lia|].
  destruct (p x) eqn:Hp.
  - intros _. change (Z.to_nat (0 + 1)) with 1%nat.
    cbn [firstn app JS.findIndex]. now rewrite Hp.
  - destruct (Z.eqb_spec (JS.findIndex p xs) (-1)) as [|Hne]; [lia|]. intros Hi.
    destruct (findIndex_range p xs) as [|Hr]; [contradiction|].
    replace (Z.to_nat (JS.findIndex p xs + 1 + 1)) with (S (Z.to_nat (JS.findIndex p xs + 1)))
      by lia.
    cbn [firstn app JS.findIndex]. rewrite Hp, IH by lia.
    destruct (Z.eqb_spec (JS.findIndex p xs) (-1)); [contradiction | reflexivity].
Qed.

Lemma sliceFrom_skipn {A : Type} (xs : list A) (k : Z) :
  (0 <= k <= Z.of_nat (length xs))%Z -> JS.sliceFrom xs k = skipn (Z.to_nat k) xs.
Proof.
  intros Hk. unfold JS.sliceFrom, JS.sliceArray, JS.sliceBounds.
  destruct (Z.ltb_spec k 0); [lia|].
  destruct (Z.ltb_spec (Z.of_nat (length xs)) 0); [lia|].
  rewrite !Z.min_l by lia.
  apply firstn_all2. rewrite length_skipn. lia.
Qed.

(** [xs.slice(-k)] for a positive [k]: the last [k] elements. *)
Lemma sliceFrom_last {A : Type} (xs : list A) (k : Z) :
  (0 < k)%Z -> JS.sliceFrom xs (- k) = skipn (length xs - Z.to_nat k) xs.
Proof.
  intros Hk. unfold JS.sliceFrom, JS.sliceArray, JS.sliceBounds.
  destruct (Z.ltb_spec (- k) 0); [|lia].
  destruct (Z.ltb_spec (Z.of_nat (length xs)) 0); [lia|].
  rewrite Z.min_l by lia.
  replace (Z.to_nat (Z.max (Z.of_nat (length xs) + - k) 0)) with (length xs - Z.to_nat k) by lia.
  apply firstn_all2. rewrite length_skipn. lia.
Qed.

(** [xs.slice(-0)] is [xs.slice(0)]: the whole array. *)
Lemma sliceFrom_zero {A : Type} (xs : list A) : JS.sliceFrom xs (- 0) = xs.
Proof. rewrite sliceFrom_skipn by (cbn; lia). reflexivity. Qed.

Lemma join_snoc (sep : string) (xs : list string) (x : string) :
  xs <> [] -> JS.join sep (xs ++ [x]) = JS.join sep xs +:+ sep +:+ x.
Proof.
  induction xs as [|y [|z xs] IH]; [contradiction | reflexivity |]. intros _.
  change (JS.join sep ((y :: z :: xs) ++ [x]))
    with (y +:+ sep +:+ JS.join sep ((z :: xs) ++ [x])).
  rewrite IH by discriminate.
  change (JS.join sep (y :: z :: xs)) with (y +:+ sep +:+ JS.join sep (z :: xs)).
  now rewrite !append_assoc.
Qed.

Lemma split_no_newline (l : string) :
  contains JS.newline l = false -> JS.split JS.newline l = [l].
Proof.
  induction l as [|c l IH]; [reflexivity|]. intros Hl.
  cbn [contains] in Hl. apply orb_false_elim in Hl as [Hc Hl].
  cbn [JS.split]. rewrite Hc, IH by assumption. reflexivity.
Qed.

Lemma split_join (ls : list string) :
  Forall (fun l => contains JS.newline l = false) ls ->
  ls <> [] ->
  JS.split JS.newline (JS.join JS.nl ls) = ls.
Proof.
  induction 1 as [|l ls Hl Hls IH]; [contradiction|]. intros _.
  destruct ls as [|l' ls].
  - now apply split_no_newline.
  - change (JS.join JS.nl (l :: l' :: ls))
      with (l +:+ String JS.newline (JS.join JS.nl (l' :: ls))).
    rewrite split_line by assumption. rewrite IH by discriminate. reflexivity.
Qed.

Lemma filter_all {A : Type} (p : A -> bool) (xs : list A) :
  Forall (fun x => p x = true) xs -> List.filter p xs = xs.
Proof. induction 1 as [|x xs Hx _ IH]; cbn; [reflexivity | now rewrite Hx, IH]. Qed.

Lemma Forall_skipn {A : Type} (P : A -> Prop) (n : nat) (xs : list A) :
  Forall P xs -> Forall P (skipn n xs).
Proof.
  intros H. revert n. induction H as [|x xs Hx Hxs IH]; intros [|n]; cbn;
    try constructor; auto.
Qed.

Lemma Forall_firstn {A : Type} (P : A -> Prop) (n : nat) (xs : list A) :
  Forall P xs -> Forall P (firstn n xs).
Proof.
  intros H. revert n. induction H as [|x xs Hx Hxs IH]; intros [|n]; cbn;
    try constructor; auto.
Qed.

Lemma entryLine_is_line (now workDescription : string) :
  contains JS.newline now = false ->
  contains JS.newline workDescription = false ->
  isLine (entryLine now workDescription).
Proof.
  intros Hnow Hdesc. unfold entryLine. split.
  - rewrite !contains_append, Hnow, Hdesc. reflexivity.
  - now apply truthy_trim_starts_with.
Qed.

Section AppendEntry.

Variables (now workDescription : string) (maxEntries : Z) (fs : Cache.Files).

Hypothesis now_one_line : contains JS.newline now = false.
Hypothesis description_one_line : contains JS.newline workDescription = false.
Hypothesis header_present : hasActivityHeader (workLog fs).

Lemma clawdContextFile_ensureCacheDir (fs' : Cache.Files) :
  Cache.clawdContextFile (Cache.ensureCacheDir fs') = Cache.clawdContextFile fs'.
Proof. unfold Cache.ensureCacheDir. now destruct (Cache.cacheDirExists fs'). Qed.

(** What the call writes. *)
Lemma appendClawdWork_text :
  logAfter now maxEntries workDescription fs
  = JS.join JS.nl (Cache.preambleOf (workLog fs) ++ keptEntries maxEntries fs
                   ++ [entryLine now workDescription]).
Proof.
  unfold logAfter, keptEntries, Cache.appendClawdWork, Cache.loadClawdLocalContext,
    Cache.saveClawdLocalContext, Cache.writeClawdContext.
  rewrite !clawdContextFile_ensureCacheDir.
  assert (Hlog : (let '(loaded, _) :=
                    match Cache.clawdContextFile fs with
                    | Some text => (text, Cache.ensureCacheDir (Cache.ensureCacheDir fs))
                    | None => (EmptyString, Cache.ensureCacheDir (Cache.ensureCacheDir fs))
                    end in
                  if JS.truthy loaded then loaded else Cache.seedDocument) = workLog fs).
  { unfold workLog. destruct (Cache.clawdContextFile fs); reflexivity. }
  destruct (Cache.clawdContextFile fs) as [text|] eqn:Hfile;
    cbn [Cache.clawdContextFile] in *; cbv beta iota in Hlog; rewrite Hlog;
    unfold hasActivityHeader in header_present;
    (destruct (Z.eqb_spec (JS.findIndex (JS.includes Cache.activityHeader)
                             (JS.split JS.newline (workLog fs))) (-1)) as [E|_];
     [contradiction|]);
    unfold Cache.workEntry, Cache.preambleOf, Cache.activitiesOf;
    rewrite app_assoc, join_snoc; try reflexivity.
  all: intros Happ; apply app_eq_nil in Happ as [Hpre _]; revert Hpre.
  all: destruct (findIndex_range (JS.includes Cache.activityHeader)
                   (JS.split JS.newline (workLog fs))) as [E|Hr]; [contradiction|].
  all: rewrite sliceArray_prefix by lia.
  all: destruct (JS.split JS.newline (workLog fs)); cbn [length] in Hr; [lia|].
  all: destruct (Z.to_nat _) eqn:En; [lia | discriminate].
Qed.

Lemma headerIndex_in_range : (0 <= headerIndex fs < Z.of_nat (length (logLines fs)))%Z.
Proof.
  destruct (findIndex_range (JS.includes Cache.activityHeader) (logLines fs)) as [E|Hr];
    [contradiction | exact Hr].
Qed.

Lemma preamble_is_prefix :
  Cache.preambleOf (workLog fs) = firstn (Z.to_nat (headerIndex fs + 1)) (logLines fs)
  /\ length (Cache.preambleOf (workLog fs)) = Z.to_nat (headerIndex fs + 1).
Proof.
  pose proof headerIndex_in_range as Hr.
  unfold Cache.preambleOf. fold (logLines fs). fold (headerIndex fs).
  rewrite sliceArray_prefix by lia. split; [reflexivity|].
  rewrite length_firstn. lia.
Qed.

Lemma kept_are_lines : Forall isLine (keptEntries maxEntries fs).
Proof.
  unfold keptEntries, JS.sliceFrom, JS.sliceArray.
  destruct (JS.sliceBounds _ _ _) as [from n].
  apply Forall_firstn, Forall_skipn.
  unfold Cache.activitiesOf. fold (logLines fs). fold (headerIndex fs).
  pose proof (split_pieces_no_newline (workLog fs)) as Hsplit. fold (logLines fs) in Hsplit.
  assert (Hrest : Forall (fun l => contains JS.newline l = false)
                    (JS.sliceFrom (logLines fs) (headerIndex fs + 1))).
  { unfold JS.sliceFrom, JS.sliceArray. destruct (JS.sliceBounds _ _ _) as [from' n'].
    now apply Forall_firstn, Forall_skipn. }
  induction Hrest as [|l ls Hl _ IH]; cbn [List.filter]; [constructor|].
  destruct (JS.truthy (JS.trim l)) eqn:Ht; [|exact IH].
  constructor; [split; assumption | exact IH].
Qed.

(** The lines of the log once the call is done: the preamble up to the
    header, the entries the call keeps, the new entry. *)
Lemma lines_after_append :
  JS.split JS.newline (logAfter now maxEntries workDescription fs)
  = Cache.preambleOf (workLog fs) ++ keptEntries maxEntries fs
    ++ [entryLine now workDescription].
Proof.
  rewrite appendClawdWork_text. apply split_join.
  - destruct preamble_is_prefix as [-> _].
    apply Forall_app; split; [|apply Forall_app; split].
    + apply Forall_firstn, split_pieces_no_newline.
    + eapply Forall_impl; [apply kept_are_lines|]. now intros l [H _].
    + repeat constructor. now apply entryLine_is_line.
  - intros H. apply app_eq_nil in H as [_ H]. apply app_eq_nil in H as [_ H]. discriminate.
Qed.

(** One call: the preamble is untouched, and the activity section holds
    the entries that [slice(-(maxEntries - 1))] keeps, then the new one. *)
Lemma appendClawdWork_sections :
  Cache.preambleOf (logAfter now maxEntries workDescription fs)
  = Cache.preambleOf (workLog fs)
  /\ Cache.activitiesOf (logAfter now maxEntries workDescription fs)
     = keptEntries maxEntries fs ++ [entryLine now workDescription].
Proof.
  pose proof headerIndex_in_range as Hr.
  destruct preamble_is_prefix as [Hpre Hlen].
  assert (Hstart : JS.findIndex (JS.includes Cache.activityHeader)
                     (Cache.preambleOf (workLog fs) ++ keptEntries maxEntries fs
                      ++ [entryLine now workDescription])
                   = headerIndex fs).
  { rewrite Hpre. apply findIndex_prefix. fold (headerIndex fs). lia. }
  unfold Cache.preambleOf at 1, Cache.activitiesOf at 1.
  rewrite lines_after_append, Hstart. split.
  - rewrite sliceArray_prefix by lia. rewrite <- Hlen.
    rewrite firstn_app, Nat.sub_diag, firstn_all. cbn [firstn]. now rewrite app_nil_r.
  - rewrite sliceFrom_skipn by (rewrite length_app; lia).
    rewrite <- Hlen, skipn_app, Nat.sub_diag, skipn_all. cbn [skipn app].
    apply filter_all. apply Forall_app; split.
    + eapply Forall_impl; [apply kept_are_lines|]. now intros l [_ H].
    + repeat constructor. now apply entryLine_is_line.
Qed.

End AppendEntry.

(** The call leaves a file that is not empty, so the next call works on
    it and not on the seed document. *)
Lemma workLog_after_append (now workDescription : string) (maxEntries : Z) (fs : Cache.Files) :
  workLog (Cache.appendClawdWork now maxEntries workDescription fs)
  = logAfter now maxEntries workDescription fs.
Proof.
  unfold logAfter, workLog, Cache.appendClawdWork.
  destruct (Cache.loadClawdLocalContext (Cache.ensureCacheDir fs)) as [loaded fs'].
  unfold Cache.saveClawdLocalContext, Cache.writeClawdContext. cbn [Cache.clawdContextFile].
  unfold Cache.workEntry.
  match goal with
  | |- (if JS.truthy ?e then _ else _) = _ => replace (JS.truthy e) with true; [reflexivity|]
  end.
  symmetry. apply (truthy_append_char _ JS.newline).
Qed.

(** With [maxEntries >= 2] one call leaves at most [maxEntries] entries: the
    last [maxEntries - 1] earlier ones and the new one. *)
Lemma appendClawdWork_bounded (now workDescription : string) (maxEntries : Z)
    (fs : Cache.Files) :
  contains JS.newline now = false ->
  contains JS.newline workDescription = false ->
  hasActivityHeader (workLog fs) ->
  (2 <= maxEntries)%Z ->
  let after := workLog (Cache.appendClawdWork now maxEntries workDescription fs) in
  let before := Cache.activitiesOf (workLog fs) in
  Cache.preambleOf after = Cache.preambleOf (workLog fs)
  /\ Cache.activitiesOf after
     = skipn (length before - Z.to_nat (maxEntries - 1)) before
       ++ [entryLine now workDescription]
  /\ (Z.of_nat (length (Cache.activitiesOf after)) <= maxEntries)%Z.
Proof.
  intros Hnow Hdesc Hheader Hmax after before.
  pose proof (appendClawdWork_text now workDescription maxEntries fs Hheader) as Htext.
  destruct (appendClawdWork_sections now workDescription maxEntries fs Hnow Hdesc Hheader)
    as [Hpre Hact].
  assert (Hafter : after = logAfter now maxEntries workDescription fs).
  { unfold after. apply workLog_after_append. }
  rewrite Hafter, Hpre, Hact. unfold keptEntries. rewrite sliceFrom_last by lia.
  split; [reflexivity | split; [reflexivity|]].
  rewrite length_app, length_skipn. cbn [length]. lia.
Qed.

(** C7 at [maxEntries = 1].  The claim asks for at most one entry after the
    call; the code keeps every earlier entry, because [slice(-(1 - 1))] is
    [slice(0)], the whole array: the activity section after the call is the
    section before it followed by the new entry. *)
Theorem appendClawdWork_max_one_keeps_every_entry
    (now workDescription : string) (fs : Cache.Files) :
  contains JS.newline now = false ->
  contains JS.newline workDescription = false ->
  hasActivityHeader (workLog fs) ->
  Cache.activitiesOf (workLog (Cache.appendClawdWork now 1 workDescription fs))
  = Cache.activitiesOf (workLog fs) ++ [entryLine now workDescription].
Proof.
  intros Hnow Hdesc Hheader. rewrite workLog_after_append.
  destruct (appendClawdWork_sections now workDescription 1 fs Hnow Hdesc Hheader) as [_ ->].
  unfold keptEntries. change (- (1 - 1))%Z with (- 0)%Z. now rewrite sliceFrom_zero.
Qed.

Lemma appendClawdWork_max_one_keeps_every_entry_witness :
  Cache.activitiesOf
    (workLog (Cache.appendClawdWork "2026-01-05T10:10:00.000Z" 1 "three"
                Examples.twoEntryFiles))
  = ["- [2026-01-05T10:00:00.000Z] one"; "- [2026-01-05T10:05:00.000Z] two";
     "- [2026-01-05T10:10:00.000Z] three"].
Proof.
  apply (appendClawdWork_max_one_keeps_every_entry "2026-01-05T10:10:00.000Z" "three"
           Examples.twoEntryFiles).
  - reflexivity.
  - reflexivity.
  - vm_compute. discriminate.
Defined.

(** Ten appends on an empty directory with [maxEntries = 5] leave the last
    five entries, oldest first, under the seeded preamble. *)
Example ten_appends_max_five :
  let fs := Examples.appendAll 5 Examples.tenSteps Cache.noFiles in
  Cache.activitiesOf (workLog fs)
  = ["- [2026-01-05T10:05:00.000Z] step 5"; "- [2026-01-05T10:06:00.000Z] step 6";
     "- [2026-01-05T10:07:00.000Z] step 7"; "- [2026-01-05T10:08:00.000Z] step 8";
     "- [2026-01-05T10:09:00.000Z] step 9"]
  /\ Cache.preambleOf (workLog fs) = Cache.preambleOf Cache.seedDocument.
Proof. split; vm_compute; reflexivity. Qed.

(** The same ten appends with [maxEntries = 1] leave all ten. *)
Example ten_appends_max_one :
  length (Cache.activitiesOf
            (workLog (Examples.appendAll 1 Examples.tenSteps Cache.noFiles))) = 10.
Proof. vm_compute. reflexivity. Qed.

(* ===================================================================== *)
(** * The parser on small inputs                                          *)
(* ===================================================================== *)

Example parse_scalars :
  Json.parse "null" = Some Json.Null
  /\ Json.parse " true " = Some (Json.Bool true)
  /\ Json.parse "false" = Some (Json.Bool false)
  /\ Json.parse "0" = Some (Json.Number false 0 0)
  /\ Json.parse "-12.50e+3" = Some (Json.Number true 1250 1)
  /\ Json.parse (Json.stringifyString "a/b") = Some (Json.Str [97; 47; 98]%N)
  /\ Json.parse (String Json.quote ("A\n" +:+ String Json.quote EmptyString))
     = Some (Json.Str [65; 10]%N).
Proof. repeat split; vm_compute; reflexivity. Qed.

Example parse_containers :
  Json.parse "[]" = Some (Json.Arr [])
  /\ Json.parse " [ 1 , [ 2 ] , {} ] "
     = Some (Json.Arr [Json.Number false 1 0; Json.Arr [Json.Number false 2 0]; Json.Obj []])
  /\ Json.parse ("{ " +:+ Json.stringifyString "k" +:+ " : [true] , "
                 +:+ Json.stringifyString "k" +:+ ":null }")
     = Some (Json.Obj [([107%N], Json.Arr [Json.Bool true]); ([107%N], Json.Null)]).
Proof. repeat split; vm_compute; reflexivity. Qed.

Example parse_rejects :
  Json.parse "" = None
  /\ Json.parse "nul" = None
  /\ Json.parse "01" = None
  /\ Json.parse "1." = None
  /\ Json.parse ".5" = None
  /\ Json.parse "+1" = None
  /\ Json.parse "1e" = None
  /\ Json.parse "[1,]" = None
  /\ Json.parse "[1 2]" = None
  /\ Json.parse "{k:1}" = None
  /\ Json.parse "{} {}" = None
  /\ Json.parse "NaN" = None
  /\ Json.parse "{ not json" = None.
Proof. repeat split; vm_compute; reflexivity. Qed.

(** What a property read and [ToBoolean] make of parsed values. *)
Example reads_of_parsed_values :
  (Json.parse "null" ≫= fun v => Json.getProp v "cwd") = None
  /\ (Json.parse "[1]" ≫= fun v => Json.getProp v "cwd") = Some None
  /\ Json.toBoolean (Json.parse "0.000") = false
  /\ Json.toBoolean (Json.parse "1e-400") = false
  /\ Json.toBoolean (Json.parse "5e-324") = true
  /\ Json.toBoolean (Json.parse "[]") = true
  /\ Json.toBoolean (Json.parse (Json.stringifyString "")) = false.
Proof. repeat split; vm_compute; reflexivity. Qed.

(* ===================================================================== *)
(** * The parser's fuel                                                   *)
(* ===================================================================== *)

Lemma parseElements_unfold (fuel : nat) (s : string) :
  Json.parseElements (S fuel) s
  = '(v, r) ← Json.parseValue fuel s;
    match Json.skipWs r with
    | String c r' =>
        if Ascii.eqb c ","
        then '(vs, r'') ← Json.parseElements fuel r'; Some (v :: vs, r'')
        else if Ascii.eqb c "]" then Some ([v], r')
        else None
    | EmptyString => None
    end.
Proof. reflexivity. Qed.

Lemma parseMembers_unfold (fuel : nat) (s : string) :
  Json.parseMembers (S fuel) s
  = match Json.skipWs s with
    | String c rest =>
        if Ascii.eqb c Json.quote then
          '(k, r1) ← Json.parseStringBody rest;
          match Json.skipWs r1 with
          | String c1 r2 =>
              if Ascii.eqb c1 ":" then
                '(v, r3) ← Json.parseValue fuel r2;
                match Json.skipWs r3 with
                | String c3 r4 =>
                    if Ascii.eqb c3 ","
                    then '(ms, r5) ← Json.parseMembers fuel r4; Some ((k, v) :: ms, r5)
                    else if Ascii.eqb c3 "}" then Some ([(k, v)], r4)
                    else None
                | EmptyString => None
                end
              else None
          | EmptyString => None
          end
        else None
    | EmptyString => None
    end.
Proof. reflexivity. Qed.

Lemma parseValue_unfold (fuel : nat) (s : string) :
  Json.parseValue (S fuel) s
  = match Json.skipWs s with
    | EmptyString => None
    | String c rest =>
        if Ascii.eqb c Json.quote then
          '(us, r) ← Json.parseStringBody rest; Some (Json.Str us, r)
        else if Ascii.eqb c "{" then
          match Json.skipWs rest with
          | String c' r => if Ascii.eqb c' "}" then Some (Json.Obj [], r)
                           else '(ms, r') ← Json.parseMembers fuel rest; Some (Json.Obj ms, r')
          | EmptyString => None
          end
        else if Ascii.eqb c "[" then
          match Json.skipWs rest with
          | String c' r => if Ascii.eqb c' "]" then Some (Json.Arr [], r)
                           else '(vs, r') ← Json.parseElements fuel rest; Some (Json.Arr vs, r')
          | EmptyString => None
          end
        else if Ascii.eqb c "t" then r ← Json.stripPrefix "true" (String c rest); Some (Json.Bool true, r)
        else if Ascii.eqb c "f" then r ← Json.stripPrefix "false" (String c rest); Some (Json.Bool false, r)
        else if Ascii.eqb c "n" then r ← Json.stripPrefix "null" (String c rest); Some (Json.Null, r)
        else Json.parseNumber (String c rest)
    end.
Proof. reflexivity. Qed.

Ltac split_parse H :=
  repeat match type of H with
         | match ?x with _ => _ end = Some _ => destruct x eqn:?; try discriminate H
         | (if ?b then _ else _) = Some _ => destruct b eqn:?; try discriminate H
         | mbind _ ?x = Some _ =>
             destruct x as [[? ?]|] eqn:?; cbn [mbind option_bind] in H; try discriminate H
         | mbind _ ?x = Some _ =>
             destruct x as [?|] eqn:?; cbn [mbind option_bind] in H; try discriminate H
         end.

Ltac replay_parse fuel IHv IHe IHm :=
  repeat first
    [ match goal with
      | E : Json.parseValue fuel ?s = Some _ |- context [Json.parseValue (S fuel) ?s] =>
          rewrite (IHv _ _ E)
      | E : Json.parseElements fuel ?s = Some _ |- context [Json.parseElements (S fuel) ?s] =>
          rewrite (IHe _ _ E)
      | E : Json.parseMembers fuel ?s = Some _ |- context [Json.parseMembers (S fuel) ?s] =>
          rewrite (IHm _ _ E)
      | E : ?x = _ |- context [match ?x with _ => _ end] => rewrite E
      | E : ?x = _ |- context [if ?x then _ else _] => rewrite E
      | E : ?x = _ |- context [mbind _ ?x] => rewrite E
      end
    | progress cbn [mbind option_bind] ].

(** More fuel does not change a result. *)
Lemma parse_fuel_step (fuel : nat) :
  (forall s res, Json.parseValue fuel s = Some res -> Json.parseValue (S fuel) s = Some res)
  /\ (forall s res, Json.parseElements fuel s = Some res ->
                    Json.parseElements (S fuel) s = Some res)
  /\ (forall s res, Json.parseMembers fuel s = Some res ->
                    Json.parseMembers (S fuel) s = Some res).
Proof.
  induction fuel as [|fuel (IHv & IHe & IHm)].
  - repeat split; intros s res H; discriminate H.
  - repeat split; intros s res H.
    + rewrite parseValue_unfold in H. rewrite parseValue_unfold.
      split_parse H; replay_parse fuel IHv IHe IHm; exact H.
    + rewrite parseElements_unfold in H. rewrite parseElements_unfold.
      split_parse H; replay_parse fuel IHv IHe IHm; exact H.
    + rewrite parseMembers_unfold in H. rewrite parseMembers_unfold.
      split_parse H; replay_parse fuel IHv IHe IHm; exact H.
Qed.

Lemma parse_fuel_mono (fuel fuel' : nat) :
  fuel <= fuel' ->
  (forall s res, Json.parseValue fuel s = Some res -> Json.parseValue fuel' s = Some res)
  /\ (forall s res, Json.parseElements fuel s = Some res ->
                    Json.parseElements fuel' s = Some res)
  /\ (forall s res, Json.parseMembers fuel s = Some res ->
                    Json.parseMembers fuel' s = Some res).
Proof.
  induction 1 as [|fuel' _ (IHv & IHe & IHm)]; [repeat split; auto|].
  destruct (parse_fuel_step fuel') as (Sv & Se & Sm).
  repeat split; intros s res H; auto.
Qed.

Lemma skipWs_length (s : string) : String.length (Json.skipWs s) <= String.length s.
Proof.
  induction s as [|c s IH]; cbn [Json.skipWs]; [lia|].
  destruct (Json.isJsonWs c); cbn [String.length]; lia.
Qed.

Lemma skipWs_cons_length (s : string) (c : ascii) (rest : string) :
  Json.skipWs s = String c rest -> S (String.length rest) <= String.length s.
Proof. intros H. pose proof (skipWs_length s) as Hl. rewrite H in Hl. exact Hl. Qed.

Lemma stripPrefix_length (p s r : string) :
  Json.stripPrefix p s = Some r -> String.length s = String.length p + String.length r.
Proof.
  revert s; induction p as [|a p IH]; intros [|b s] H; cbn in H; try discriminate.
  - injection H as <-. reflexivity.
  - injection H as <-. reflexivity.
  - destruct (Ascii.eqb a b); [|discriminate]. cbn [String.length]. rewrite (IH _ H). lia.
Qed.

Lemma takeDigits_length (s : string) (ds : list N) (r : string) :
  Json.takeDigits s = (ds, r) -> String.length s = length ds + String.length r.
Proof.
  revert ds r; induction s as [|c s IH]; intros ds r H; cbn [Json.takeDigits] in H.
  - injection H as <- <-. reflexivity.
  - destruct (Json.digitValue c).
    + destruct (Json.takeDigits s) as [ds' r'] eqn:E. injection H as <- <-.
      cbn [length String.length]. rewrite (IH _ _ eq_refl). lia.
    + injection H as <- <-. reflexivity.
Qed.

Lemma parseStringBody_shorter (s : string) (us : list N) (r : string) :
  Json.parseStringBody s = Some (us, r) -> String.length r < String.length s.
Proof.
  remember (String.length s) as n eqn:Hn. revert s us r Hn.
  induction n as [n IH] using lt_wf_ind. intros s us r Hn H.
  destruct s as [|c rest]; [discriminate|]. cbn [Json.parseStringBody] in H.
  cbn [String.length] in Hn.
  assert (Hcont : forall (u : N) tail,
             String.length tail < n ->
             match Json.parseStringBody tail with
             | Some (us', r') => Some (u :: us', r')
             | None => None
             end = Some (us, r) -> String.length r < n).
  { intros u tail Htail Hrec.
    destruct (Json.parseStringBody tail) as [[us' r']|] eqn:E; [|discriminate].
    injection Hrec as _ <-. pose proof (IH _ Htail tail us' r' eq_refl E). lia. }
  destruct (Ascii.eqb c Json.quote); [injection H as _ <-; lia|].
  destruct (Ascii.eqb c Json.backslash).
  - destruct rest as [|e rest1]; [discriminate|]. cbn [String.length] in Hn.
    repeat match type of H with
           | (if ?b then _ else _) = Some _ =>
               destruct b; [apply Hcont in H; [exact H | lia]|]
           end.
    destruct (Ascii.eqb e "u"); [|discriminate].
    destruct rest1 as [|h3 [|h2 [|h1 [|h0 rest2]]]]; try discriminate.
    destruct (Json.hex4 h3 h2 h1 h0); [|discriminate].
    cbn [String.length] in Hn. apply Hcont in H; [exact H | lia].
  - destruct (N.ltb (N_of_ascii c) 32); [discriminate|].
    apply Hcont in H; [exact H | lia].
Qed.

Lemma parseNumber_shorter (s : string) (v : Json.value) (r : string) :
  Json.parseNumber s = Some (v, r) -> String.length r < String.length s.
Proof.
  unfold Json.parseNumber. intros H.
  assert (Hsign : exists s1, String.length s1 <= String.length s
                       /\ (let '(neg, s1') := match Json.stripPrefix "-" s with
                                              | Some r0 => (true, r0)
                                              | None => (false, s)
                                              end in s1' = s1)).
  { destruct (Json.stripPrefix "-" s) as [r0|] eqn:E.
    - exists r0. apply stripPrefix_length in E. cbn in E. split; [lia | reflexivity].
    - exists s. split; [lia | reflexivity]. }
  destruct Hsign as (s1 & Hs1 & Heq).
  destruct (match Json.stripPrefix "-" s with
            | Some r0 => (true, r0)
            | None => (false, s)
            end) as [neg s1']. subst s1'.
  destruct (Json.takeDigits s1) as [ints s2] eqn:Hints.
  apply takeDigits_length in Hints.
  destruct ints as [|d more]; [discriminate|]. cbn [length] in Hints.
  destruct ((d =? 0)%N && negb (Json.isNil more)); [discriminate|].
  assert (Hfrac : forall fracs s3,
             match Json.stripPrefix "." s2 with
             | Some r0 => let '(fs, r') := Json.takeDigits r0 in
                          if Json.isNil fs then None else Some (fs, r')
             | None => Some ([], s2)
             end = Some (fracs, s3) -> String.length s3 <= String.length s2).
  { intros fracs s3 Hf. destruct (Json.stripPrefix "." s2) as [r0|] eqn:E.
    - apply stripPrefix_length in E. destruct (Json.takeDigits r0) as [fs r'] eqn:Ef.
      apply takeDigits_length in Ef. destruct (Json.isNil fs); [discriminate|].
      injection Hf as _ <-. cbn in E. lia.
    - injection Hf as _ <-. lia. }
  destruct (match Json.stripPrefix "." s2 with
            | Some r0 => let '(fs, r') := Json.takeDigits r0 in
                         if Json.isNil fs then None else Some (fs, r')
            | None => Some ([], s2)
            end) as [[fracs s3]|]; [|discriminate].
  specialize (Hfrac fracs s3 eq_refl). cbn [mbind option_bind] in H.
  assert (Hexp : forall e s4,
             match s3 with
             | String c r0 =>
                 if Ascii.eqb c "e" || Ascii.eqb c "E" then
                   let '(eneg, r1) :=
                     match r0 with
                     | String sg r' =>
                         if Ascii.eqb sg "+" then (false, r')
                         else if Ascii.eqb sg "-" then (true, r')
                         else (false, r0)
                     | EmptyString => (false, r0)
                     end in
                   let '(es, r2) := Json.takeDigits r1 in
                   if Json.isNil es then None
                   else Some (if eneg then (- Z.of_N (Json.digitsToN es))%Z
                              else Z.of_N (Json.digitsToN es), r2)
                 else Some (0%Z, s3)
             | EmptyString => Some (0%Z, s3)
             end = Some (e, s4) -> String.length s4 <= String.length s3).
  { intros e s4 He. destruct s3 as [|c r0]; [injection He as _ <-; lia|].
    destruct (Ascii.eqb c "e" || Ascii.eqb c "E"); [|injection He as _ <-; lia].
    assert (Hsg : forall eneg r1,
               match r0 with
               | String sg r' =>
                   if Ascii.eqb sg "+" then (false, r')
                   else if Ascii.eqb sg "-" then (true, r')
                   else (false, r0)
               | EmptyString => (false, r0)
               end = (eneg, r1) -> String.length r1 <= String.length r0).
    { intros eneg r1 Hr. destruct r0 as [|sg r']; [injection Hr as _ <-; lia|].
      destruct (Ascii.eqb sg "+"); [injection Hr as _ <-; cbn; lia|].
      destruct (Ascii.eqb sg "-"); injection Hr as _ <-; cbn; lia. }
    destruct (match r0 with
              | String sg r' =>
                  if Ascii.eqb sg "+" then (false, r')
                  else if Ascii.eqb sg "-" then (true, r')
                  else (false, r0)
              | EmptyString => (false, r0)
              end) as [eneg r1].
    specialize (Hsg eneg r1 eq_refl). destruct (Json.takeDigits r1) as [es r2] eqn:Ees.
    apply takeDigits_length in Ees. destruct (Json.isNil es); [discriminate|].
    injection He as _ <-. cbn [String.length]. lia. }
  match type of H with
  | mbind _ ?x = Some _ => destruct x as [[e s4]|]; [|discriminate]
  end.
  specialize (Hexp e s4 eq_refl). cbn [mbind option_bind] in H. injection H as _ <-. lia.
Qed.

Ltac note H :=
  let T := type of H in
  lazymatch goal with
  | _ : T |- _ => fail
  | _ => pose proof H
  end.

Ltac consumption fuel IHv IHe IHm :=
  repeat match goal with
         | E : Json.skipWs ?s = String ?c ?rest |- _ => note (skipWs_cons_length s c rest E)
         | E : Json.parseStringBody ?s = Some (?us, ?r) |- _ =>
             note (parseStringBody_shorter s us r E)
         | E : Json.stripPrefix ?p ?s = Some ?r |- _ => note (stripPrefix_length p s r E)
         | E : Json.parseNumber ?s = Some (?v, ?r) |- _ => note (parseNumber_shorter s v r E)
         | E : Json.parseValue fuel ?s = Some (?v, ?r) |- _ =>
             first [note (proj1 (IHv s v r E)) | note (proj2 (IHv s v r E))]
         | E : Json.parseElements fuel ?s = Some (?v, ?r) |- _ =>
             first [note (proj1 (IHe s v r E)) | note (proj2 (IHe s v r E))]
         | E : Json.parseMembers fuel ?s = Some (?v, ?r) |- _ =>
             first [note (proj1 (IHm s v r E)) | note (proj2 (IHm s v r E))]
         end.

Ltac replay_bounded k :=
  repeat first
    [ match goal with
      | E : Json.parseValue ?f ?s = Some ?res |- context [Json.parseValue k ?s] =>
          rewrite (proj1 (parse_fuel_mono f k ltac:(lia)) s res E)
      | E : Json.parseElements ?f ?s = Some ?res |- context [Json.parseElements k ?s] =>
          rewrite (proj1 (proj2 (parse_fuel_mono f k ltac:(lia))) s res E)
      | E : Json.parseMembers ?f ?s = Some ?res |- context [Json.parseMembers k ?s] =>
          rewrite (proj2 (proj2 (parse_fuel_mono f k ltac:(lia))) s res E)
      | E : ?x = _ |- context [match ?x with _ => _ end] => rewrite E
      | E : ?x = _ |- context [if ?x then _ else _] => rewrite E
      | E : ?x = _ |- context [mbind _ ?x] => rewrite E
      end
    | progress cbn [mbind option_bind] ].

(** A successful parse consumes input, and twice the number of characters
    consumed is fuel enough for it. *)
Lemma parse_fuel_bound (fuel : nat) :
  (forall s v r, Json.parseValue fuel s = Some (v, r) ->
     String.length r < String.length s
     /\ Json.parseValue (2 * (String.length s - String.length r)) s = Some (v, r))
  /\ (forall s vs r, Json.parseElements fuel s = Some (vs, r) ->
        String.length r < String.length s
        /\ Json.parseElements (2 * (String.length s - String.length r)) s = Some (vs, r))
  /\ (forall s ms r, Json.parseMembers fuel s = Some (ms, r) ->
        String.length r < String.length s
        /\ Json.parseMembers (2 * (String.length s - String.length r)) s = Some (ms, r)).
Proof.
  induction fuel as [|fuel (IHv & IHe & IHm)].
  - repeat split; discriminate.
  - split; [|split]; intros s v r H.
    + rewrite parseValue_unfold in H. split_parse H; try (injection H as <- <-);
        consumption fuel IHv IHe IHm; cbn [String.length] in *;
        (split; [lia|]);
        match goal with
        | |- Json.parseValue ?F _ = _ => destruct F as [|k] eqn:Hk; [lia|]
        end;
        rewrite parseValue_unfold; replay_bounded k; first [reflexivity | assumption].
    + rewrite parseElements_unfold in H. split_parse H; try (injection H as <- <-);
        consumption fuel IHv IHe IHm; cbn [String.length] in *;
        (split; [lia|]);
        match goal with
        | |- Json.parseElements ?F _ = _ => destruct F as [|k] eqn:Hk; [lia|]
        end;
        rewrite parseElements_unfold; replay_bounded k; first [reflexivity | assumption].
    + rewrite parseMembers_unfold in H. split_parse H; try (injection H as <- <-);
        consumption fuel IHv IHe IHm; cbn [String.length] in *;
        (split; [lia|]);
        match goal with
        | |- Json.parseMembers ?F _ = _ => destruct F as [|k] eqn:Hk; [lia|]
        end;
        rewrite parseMembers_unfold; replay_bounded k; first [reflexivity | assumption].
Qed.

(** The fuel [parse] supplies is enough: whatever some amount of fuel can
    parse, [parseFuel] parses, with the same result. *)
Lemma parseValue_fuel_enough (fuel : nat) (s : string) (v : Json.value) (r : string) :
  Json.parseValue fuel s = Some (v, r) ->
  Json.parseValue (Json.parseFuel s) s = Some (v, r).
Proof.
  intros H. destruct (parse_fuel_bound fuel) as (Hv & _ & _).
  destruct (Hv s v r H) as [Hlen Hparse].
  refine (proj1 (parse_fuel_mono _ _ _) s (v, r) Hparse).
  unfold Json.parseFuel. lia.
Qed.

(** [parse] fails only when no amount of fuel reads the text as one value
    followed by white space alone. *)
Lemma parse_None_iff (s : string) :
  Json.parse s = None
  <-> forall fuel v r, Json.parseValue fuel s = Some (v, r) -> Json.skipWs r <> EmptyString.
Proof.
  unfold Json.parse. split.
  - intros H fuel v r Hparse Hrest.
    rewrite (parseValue_fuel_enough fuel s v r Hparse) in H. cbn [mbind option_bind] in H.
    rewrite Hrest in H. discriminate.
  - intros H. destruct (Json.parseValue (Json.parseFuel s) s) as [[v r]|] eqn:E; [|reflexivity].
    cbn [mbind option_bind]. specialize (H _ _ _ E).
    destruct (Json.skipWs r); [contradiction | reflexivity].
Qed.


(* ===================================================================== *)
(** * More on the message queue                                           *)
(* ===================================================================== *)

(** ** After a selective upload *)

Lemma markMessagesUploaded_file (fs : Cache.Files) (d text : string) :
  JS.truthy d = true ->
  Cache.messageQueueFile fs = Some text ->
  Cache.messageQueueFile (Cache.markMessagesUploaded (Some d) fs)
  = Some (textAfterUpload d text).
Proof.
  intros Hd Hfile. unfold Cache.markMessagesUploaded, Cache.given. rewrite Hd.
  rewrite messageQueueFile_ensureCacheDir, Hfile.
  unfold Cache.writeMessageQueue. cbn [Cache.messageQueueFile].
  now rewrite join_lines.
Qed.

Lemma remaining_lines_hold_values (d : string) (lines : list string) :
  Forall holdsValue (List.filter (Cache.remainsAfterUpload d) lines).
Proof.
  apply List.Forall_forall. intros line Hin. apply filter_In in Hin as [_ Hkeep].
  apply remainsAfterUpload_iff in Hkeep as (msg & Hmsg & Hnn & _).
  exists msg. auto.
Qed.

Lemma nonBlankLines_textAfterUpload (d text : string) :
  Cache.nonBlankLines (textAfterUpload d text)
  = List.filter (Cache.remainsAfterUpload d) (Cache.nonBlankLines text).
Proof.
  unfold textAfterUpload. apply nonBlankLines_unlines.
  apply filter_lines, nonBlankLines_are_lines.
Qed.

Lemma pendingOfLine_other_directory (d line : string) :
  JS.truthy d = true ->
  Cache.remainsAfterUpload d line = true ->
  Spec.pendingOfLine (Some d) line = [].
Proof.
  intros Hd Hkeep. apply remainsAfterUpload_iff in Hkeep as (msg & Hmsg & Hnn & Hcwd).
  unfold Spec.pendingOfLine, Cache.given. rewrite Hmsg, Hd.
  rewrite !getProp_not_null by assumption. rewrite Hcwd.
  now destruct (Json.toBoolean (propOf msg "uploaded")).
Qed.

(** X2. After [markMessagesUploaded(d)] for a non-empty [d], whatever the queue
    file held (damaged lines included), [getQueuedMessages(d)] returns no
    message. *)
Theorem nothing_pending_after_upload (fs : Cache.Files) (d : string) :
  JS.truthy d = true ->
  fst (Cache.getQueuedMessages (Some d) (Cache.markMessagesUploaded (Some d) fs)) = [].
Proof.
  intros Hd. destruct (Cache.messageQueueFile fs) as [text|] eqn:Hfile.
  - pose proof (markMessagesUploaded_file fs d text Hd Hfile) as Hafter.
    rewrite (getQueuedMessages_reads_all _ (Some d) _ Hafter).
    + unfold Spec.pendingMessages. rewrite nonBlankLines_textAfterUpload.
      induction (Cache.nonBlankLines text) as [|line lines IH]; [reflexivity|].
      cbn [List.filter]. destruct (Cache.remainsAfterUpload d line) eqn:Hkeep; [|exact IH].
      cbn [List.map List.concat]. rewrite IH.
      now rewrite pendingOfLine_other_directory.
    + rewrite nonBlankLines_textAfterUpload. apply remaining_lines_hold_values.
  - apply getQueuedMessages_no_file.
    unfold Cache.markMessagesUploaded, Cache.given. rewrite Hd.
    now rewrite messageQueueFile_ensureCacheDir, Hfile, messageQueueFile_ensureCacheDir.
Qed.

Lemma nothing_pending_after_upload_witness :
  fst (Cache.getQueuedMessages (Some "/b")
         (Cache.markMessagesUploaded (Some "/b") Examples.damagedQueue)) = [].
Proof. apply (nothing_pending_after_upload Examples.damagedQueue "/b"). reflexivity. Defined.

Lemma ensureCacheDir_idempotent (fs : Cache.Files) :
  Cache.ensureCacheDir (Cache.ensureCacheDir fs) = Cache.ensureCacheDir fs.
Proof. unfold Cache.ensureCacheDir. destruct (Cache.cacheDirExists fs) eqn:H; [now rewrite H | reflexivity]. Qed.

Lemma cacheDirExists_ensureCacheDir (fs : Cache.Files) :
  Cache.cacheDirExists (Cache.ensureCacheDir fs) = true.
Proof. unfold Cache.ensureCacheDir. destruct (Cache.cacheDirExists fs) eqn:H; [exact H | reflexivity]. Qed.

Lemma filter_comm {A : Type} (p q : A -> bool) (xs : list A) :
  List.filter p (List.filter q xs) = List.filter q (List.filter p xs).
Proof.
  induction xs as [|x xs IH]; [reflexivity|]. cbn [List.filter].
  destruct (p x) eqn:Hp, (q x) eqn:Hq; cbn [List.filter]; rewrite ?Hp, ?Hq, IH; reflexivity.
Qed.

Lemma filter_idempotent {A : Type} (p : A -> bool) (xs : list A) :
  List.filter p (List.filter p xs) = List.filter p xs.
Proof. apply filter_filter_implied. auto. Qed.

(** The files after a selective upload, spelled out. *)
Lemma markMessagesUploaded_files (fs : Cache.Files) (d : string) :
  JS.truthy d = true ->
  Cache.markMessagesUploaded (Some d) fs
  = match Cache.messageQueueFile fs with
    | Some text => Cache.writeMessageQueue (textAfterUpload d text) (Cache.ensureCacheDir fs)
    | None => Cache.ensureCacheDir fs
    end.
Proof.
  intros Hd. unfold Cache.markMessagesUploaded, Cache.given. rewrite Hd.
  rewrite messageQueueFile_ensureCacheDir.
  destruct (Cache.messageQueueFile fs); [|reflexivity].
  now rewrite join_lines.
Qed.

Lemma ensureCacheDir_writeMessageQueue (text : string) (fs : Cache.Files) :
  Cache.ensureCacheDir (Cache.writeMessageQueue text (Cache.ensureCacheDir fs))
  = Cache.writeMessageQueue text (Cache.ensureCacheDir fs).
Proof.
  unfold Cache.ensureCacheDir at 1. unfold Cache.writeMessageQueue at 1.
  cbn [Cache.cacheDirExists]. now rewrite cacheDirExists_ensureCacheDir.
Qed.

Lemma writeMessageQueue_twice (s t : string) (fs : Cache.Files) :
  Cache.writeMessageQueue s (Cache.writeMessageQueue t fs) = Cache.writeMessageQueue s fs.
Proof. reflexivity. Qed.

(** X3. Selective uploads are idempotent and commute: marking a directory
    twice leaves the files as marking it once does, and two directories can
    be marked in either order. *)
Theorem selective_uploads_idempotent_and_commute (fs : Cache.Files) (d d' : string) :
  JS.truthy d = true ->
  JS.truthy d' = true ->
  Cache.markMessagesUploaded (Some d) (Cache.markMessagesUploaded (Some d) fs)
  = Cache.markMessagesUploaded (Some d) fs
  /\ Cache.markMessagesUploaded (Some d) (Cache.markMessagesUploaded (Some d') fs)
     = Cache.markMessagesUploaded (Some d') (Cache.markMessagesUploaded (Some d) fs).
Proof.
  intros Hd Hd'.
  assert (Htwice : forall a b, JS.truthy a = true -> JS.truthy b = true ->
            Cache.markMessagesUploaded (Some a) (Cache.markMessagesUploaded (Some b) fs)
            = match Cache.messageQueueFile fs with
              | Some text =>
                  Cache.writeMessageQueue
                    (unlines (List.filter (Cache.remainsAfterUpload a)
                                (List.filter (Cache.remainsAfterUpload b)
                                   (Cache.nonBlankLines text))))
                    (Cache.ensureCacheDir fs)
              | None => Cache.ensureCacheDir fs
              end).
  { intros a b Ha Hb. rewrite (markMessagesUploaded_files _ a Ha).
    rewrite (markMessagesUploaded_files fs b Hb).
    destruct (Cache.messageQueueFile fs) as [text|] eqn:Hfile.
    - cbn [Cache.writeMessageQueue Cache.messageQueueFile].
      rewrite ensureCacheDir_writeMessageQueue.
      unfold textAfterUpload at 1. rewrite nonBlankLines_textAfterUpload.
      reflexivity.
    - rewrite messageQueueFile_ensureCacheDir, Hfile. apply ensureCacheDir_idempotent. }
  split.
  - rewrite (Htwice d d Hd Hd), (markMessagesUploaded_files fs d Hd).
    destruct (Cache.messageQueueFile fs); [|reflexivity].
    now rewrite filter_idempotent.
  - rewrite (Htwice d d' Hd Hd'), (Htwice d' d Hd' Hd).
    destruct (Cache.messageQueueFile fs); [|reflexivity].
    now rewrite filter_comm.
Qed.

Lemma selective_uploads_idempotent_and_commute_witness :
  Cache.markMessagesUploaded (Some "/a")
    (Cache.markMessagesUploaded (Some "/a") (enqueueAll Examples.fiveCalls Cache.noFiles))
  = Cache.markMessagesUploaded (Some "/a") (enqueueAll Examples.fiveCalls Cache.noFiles)
  /\ Cache.markMessagesUploaded (Some "/a")
       (Cache.markMessagesUploaded (Some "/b") (enqueueAll Examples.fiveCalls Cache.noFiles))
     = Cache.markMessagesUploaded (Some "/b")
         (Cache.markMessagesUploaded (Some "/a") (enqueueAll Examples.fiveCalls Cache.noFiles)).
Proof.
  apply (selective_uploads_idempotent_and_commute
           (enqueueAll Examples.fiveCalls Cache.noFiles) "/a" "/b"); reflexivity.
Defined.

(** ** The queue as a list of messages *)

Lemma unlines_empty (ls : list string) : unlines ls = EmptyString -> ls = [].
Proof.
  destruct ls as [|l ls]; [reflexivity|]. cbn [unlines]. intros H.
  destruct l; discriminate H.
Qed.

Lemma filter_map_swap {A B : Type} (f : A -> B) (p : B -> bool) (q : A -> bool) (xs : list A) :
  (forall x, p (f x) = q x) ->
  List.filter p (List.map f xs) = List.map f (List.filter q xs).
Proof.
  intros H. induction xs as [|x xs IH]; [reflexivity|]. cbn [List.map List.filter].
  rewrite H. destruct (q x); cbn [List.map]; now rewrite IH.
Qed.

Lemma messages_are_lines (ms : list Cache.QueuedMessage) :
  Forall isLine (List.map Cache.stringifyMessage ms).
Proof. apply Forall_map, List.Forall_forall. intros m _. apply stringifyMessage_is_line. Qed.

Lemma queueText_perform (fs : Cache.Files) (c : QueueCall) (ms : list Cache.QueuedMessage) :
  queueText fs = unlines (List.map Cache.stringifyMessage ms) ->
  queueText (perform fs c) = unlines (List.map Cache.stringifyMessage (waitingAfter ms c)).
Proof.
  intros Hinv. destruct c as [e | forCwd |]; cbn [perform waitingAfter].
  - unfold queueText at 1. rewrite enqueue_appends, Hinv.
    now rewrite List.map_app, unlines_app.
  - destruct (Cache.given forCwd) as [d|] eqn:Hgiven.
    + assert (Hd : JS.truthy d = true /\ forCwd = Some d).
      { unfold Cache.given in Hgiven. destruct forCwd as [d0|]; [|discriminate].
        destruct (JS.truthy d0) eqn:Ht; [|discriminate]. injection Hgiven as <-. auto. }
      destruct Hd as [Hd ->]. rewrite (markMessagesUploaded_files fs d Hd).
      unfold queueText in Hinv |- *.
      destruct (Cache.messageQueueFile fs) as [text|] eqn:Hfile.
      * cbn [Cache.writeMessageQueue Cache.messageQueueFile]. subst text.
        unfold textAfterUpload. rewrite nonBlankLines_unlines by apply messages_are_lines.
        f_equal. apply filter_map_swap. intros m. apply remainsAfterUpload_stringifyMessage.
      * rewrite messageQueueFile_ensureCacheDir, Hfile.
        symmetry in Hinv. apply unlines_empty in Hinv. apply map_eq_nil in Hinv. now subst ms.
    + unfold Cache.markMessagesUploaded. rewrite Hgiven. reflexivity.
  - reflexivity.
Qed.

Lemma queueText_performAll (cs : list QueueCall) (fs : Cache.Files)
    (ms : list Cache.QueuedMessage) :
  queueText fs = unlines (List.map Cache.stringifyMessage ms) ->
  queueText (performAll cs fs)
  = unlines (List.map Cache.stringifyMessage (fold_left waitingAfter cs ms)).
Proof.
  unfold performAll. revert fs ms. induction cs as [|c cs IH]; intros fs ms Hinv; [exact Hinv|].
  cbn [fold_left]. apply IH. now apply queueText_perform.
Qed.

Lemma waiting_not_uploaded (cs : list QueueCall) (ms : list Cache.QueuedMessage) :
  Forall (fun m => Cache.uploaded m = Some false) ms ->
  Forall (fun m => Cache.uploaded m = Some false) (fold_left waitingAfter cs ms).
Proof.
  revert ms. induction cs as [|c cs IH]; intros ms Hms; [exact Hms|].
  cbn [fold_left]. apply IH. destruct c as [e | forCwd |]; cbn [waitingAfter].
  - apply Forall_app. split; [exact Hms|]. repeat constructor.
  - destruct (Cache.given forCwd); [|constructor].
    apply List.Forall_forall. intros m Hin. apply filter_In in Hin as [Hin _].
    rewrite List.Forall_forall in Hms. now apply Hms.
  - constructor.
Qed.

Lemma pendingOfLine_message (forCwd : option string) (m : Cache.QueuedMessage) :
  Cache.uploaded m = Some false ->
  Spec.pendingOfLine forCwd (Cache.stringifyMessage m)
  = if selectedBy forCwd m then [messageValue m] else [].
Proof.
  intros Hup. unfold Spec.pendingOfLine, selectedBy. rewrite parse_stringifyMessage.
  rewrite !getProp_not_null by apply messageValue_not_null.
  destruct (propOf_messageValue m) as [-> ->]. rewrite Hup. cbn [option_map Json.toBoolean].
  destruct (Cache.given forCwd) as [d|]; [|reflexivity].
  now rewrite strictEqualsString_codeUnits.
Qed.

Lemma getQueuedMessages_of_messages (fs : Cache.Files) (forCwd : option string)
    (ms : list Cache.QueuedMessage) :
  queueText fs = unlines (List.map Cache.stringifyMessage ms) ->
  Forall (fun m => Cache.uploaded m = Some false) ms ->
  fst (Cache.getQueuedMessages forCwd fs)
  = List.map messageValue (List.filter (selectedBy forCwd) ms).
Proof.
  intros Htext Hms. unfold queueText in Htext.
  destruct (Cache.messageQueueFile fs) as [text|] eqn:Hfile.
  - subst text. rewrite (getQueuedMessages_reads_all _ forCwd _ Hfile).
    + unfold Spec.pendingMessages. rewrite nonBlankLines_unlines by apply messages_are_lines.
      clear Hfile. induction Hms as [|m ms Hm _ IH]; [reflexivity|].
      cbn [List.map List.concat List.filter]. rewrite IH, (pendingOfLine_message _ _ Hm).
      destruct (selectedBy forCwd m); reflexivity.
    + rewrite nonBlankLines_unlines by apply messages_are_lines.
      apply Forall_map, List.Forall_forall. intros m _. apply holdsValue_stringifyMessage.
  - symmetry in Htext. apply unlines_empty in Htext. apply map_eq_nil in Htext. subst ms.
    now apply getQueuedMessages_no_file.
Qed.

(** X1. The queue file implements a list of messages.  Starting without a
    queue file, after any calls of [queueMessage], [markMessagesUploaded]
    and [clearMessageQueue], [getQueuedMessages(forCwd)] returns the
    messages of the list [waiting] that [forCwd] selects, oldest first. *)
Theorem queue_implements_message_list
    (cs : list QueueCall) (fs : Cache.Files) (forCwd : option string) :
  Cache.messageQueueFile fs = None ->
  fst (Cache.getQueuedMessages forCwd (performAll cs fs))
  = List.map messageValue (List.filter (selectedBy forCwd) (waiting cs)).
Proof.
  intros Hfresh. apply getQueuedMessages_of_messages.
  - apply queueText_performAll. unfold queueText. now rewrite Hfresh.
  - apply waiting_not_uploaded. constructor.
Qed.

Lemma queue_implements_message_list_witness :
  fst (Cache.getQueuedMessages (Some "/b")
         (performAll
            ([MarkMessagesUploaded (Some "/zzz")]
             ++ List.map QueueMessage Examples.fiveCalls
             ++ [MarkMessagesUploaded (Some "/a")])
            Cache.noFiles))
  = List.map messageValue
      (List.filter (selectedBy (Some "/b"))
         (waiting ([MarkMessagesUploaded (Some "/zzz")]
                   ++ List.map QueueMessage Examples.fiveCalls
                   ++ [MarkMessagesUploaded (Some "/a")]))).
Proof. apply (queue_implements_message_list _ Cache.noFiles (Some "/b")). reflexivity. Defined.


(* ===================================================================== *)
(** * More on deduplication, truncation and the context cache             *)
(* ===================================================================== *)

(** ** [deduplicateFacts] *)

Lemma overlapCount_empty (kws : list string) : ContextFormat.overlapCount ∅ kws = 0.
Proof.
  unfold ContextFormat.overlapCount. induction kws as [|k kws IH]; [reflexivity|].
  cbn [List.filter]. rewrite bool_decide_eq_false_2 by set_solver. exact IH.
Qed.

Lemma dedupFrom_cases (seen : gset string) (fact : string) (later : list string) :
  (2 * ContextFormat.overlapCount seen (ContextFormat.keywordsOf fact)
   < Nat.max (length (ContextFormat.keywordsOf fact)) 1
   /\ Spec.dedupFrom seen (fact :: later)
      = fact :: Spec.dedupFrom (seen ∪ list_to_set (ContextFormat.keywordsOf fact)) later)
  \/ (Nat.max (length (ContextFormat.keywordsOf fact)) 1
      <= 2 * ContextFormat.overlapCount seen (ContextFormat.keywordsOf fact)
      /\ Spec.dedupFrom seen (fact :: later) = Spec.dedupFrom seen later).
Proof.
  destruct (dedupFrom_step seen fact later) as [Hkeep Hdrop].
  destruct (Nat.lt_ge_cases
              (2 * ContextFormat.overlapCount seen (ContextFormat.keywordsOf fact))
              (Nat.max (length (ContextFormat.keywordsOf fact)) 1)) as [H|H].
  - left. auto.
  - right. auto.
Qed.

(** The early return for short lists is what the loop gives anyway. *)
Lemma deduplicateFacts_dedupFrom (facts : list string) :
  ContextFormat.deduplicateFacts facts = Spec.dedupFrom ∅ facts.
Proof.
  unfold ContextFormat.deduplicateFacts.
  destruct facts as [|f1 [|f2 facts]].
  - reflexivity.
  - cbn [length Nat.leb].
    destruct (dedupFrom_cases ∅ f1 []) as [[_ ->]|[H _]]; [reflexivity|].
    rewrite overlapCount_empty in H. lia.
  - change (length (f1 :: f2 :: facts) <=? 1) with false. cbv iota.
    now rewrite dedup_loop_spec.
Qed.

Lemma dedupFrom_idempotent (facts : list string) (seen : gset string) :
  Spec.dedupFrom seen (Spec.dedupFrom seen facts) = Spec.dedupFrom seen facts.
Proof.
  revert seen. induction facts as [|f facts IH]; intros seen; [reflexivity|].
  destruct (dedupFrom_cases seen f facts) as [[Hlt ->]|[Hge ->]]; [|apply IH].
  rewrite (proj1 (dedupFrom_step seen f _) Hlt). now rewrite IH.
Qed.

(** X4. [deduplicateFacts] is idempotent: deduplicating its result changes
    nothing. *)
Theorem deduplicateFacts_idempotent (facts : list string) :
  ContextFormat.deduplicateFacts (ContextFormat.deduplicateFacts facts)
  = ContextFormat.deduplicateFacts facts.
Proof. rewrite !deduplicateFacts_dedupFrom. apply dedupFrom_idempotent. Qed.

Lemma dedupFrom_sublist (facts : list string) (seen : gset string) :
  sublist (Spec.dedupFrom seen facts) facts.
Proof.
  revert seen. induction facts as [|f facts IH]; intros seen; [constructor|].
  destruct (dedupFrom_cases seen f facts) as [[_ ->]|[_ ->]].
  - apply sublist_skip, IH.
  - apply sublist_cons, IH.
Qed.

Lemma overlapCount_le (seen : gset string) (kws : list string) :
  ContextFormat.overlapCount seen kws <= length kws.
Proof. unfold ContextFormat.overlapCount. apply List.filter_length_le. Qed.

Lemma dedupFrom_keeps_keywordless (facts : list string) (seen : gset string) :
  List.filter (fun f => negb (hasKeywords f)) (Spec.dedupFrom seen facts)
  = List.filter (fun f => negb (hasKeywords f)) facts.
Proof.
  revert seen. induction facts as [|f facts IH]; intros seen; [reflexivity|].
  destruct (dedupFrom_cases seen f facts) as [[_ ->]|[Hge ->]].
  - cbn [List.filter]. now rewrite IH.
  - cbn [List.filter]. rewrite IH. unfold hasKeywords at 2.
    pose proof (overlapCount_le seen (ContextFormat.keywordsOf f)) as Hle.
    destruct (ContextFormat.keywordsOf f) as [|k kws] eqn:Hk; [|reflexivity].
    unfold ContextFormat.overlapCount in Hge. cbn in Hge. lia.
Qed.

(** X5. [deduplicateFacts] selects facts without reordering them; it always
    keeps the first fact, and every fact that has no word longer than 3
    characters. *)
Theorem deduplicateFacts_selects (facts : list string) :
  sublist (ContextFormat.deduplicateFacts facts) facts
  /\ hd_error (ContextFormat.deduplicateFacts facts) = hd_error facts
  /\ List.filter (fun f => negb (hasKeywords f)) (ContextFormat.deduplicateFacts facts)
     = List.filter (fun f => negb (hasKeywords f)) facts.
Proof.
  rewrite deduplicateFacts_dedupFrom. split; [apply dedupFrom_sublist|]. split.
  - destruct facts as [|f facts]; [reflexivity|].
    destruct (dedupFrom_cases ∅ f facts) as [[_ ->]|[H _]]; [reflexivity|].
    rewrite overlapCount_empty in H. lia.
  - apply dedupFrom_keeps_keywordless.
Qed.

Lemma overlapCount_all (seen : gset string) (kws : list string) :
  (forall k, In k kws -> k ∈ seen) -> ContextFormat.overlapCount seen kws = length kws.
Proof.
  unfold ContextFormat.overlapCount. induction kws as [|k kws IH]; intros H; [reflexivity|].
  cbn [List.filter]. rewrite bool_decide_eq_true_2 by (apply H; now left).
  cbn [length]. f_equal. apply IH. intros k' Hk'. apply H. now right.
Qed.

(** A fact that passes has a keyword that was not seen before. *)
Lemma dedupFrom_kept_is_new (facts : list string) (seen : gset string) (f : string) :
  In f (Spec.dedupFrom seen facts) ->
  hasKeywords f = true ->
  ~ (forall k, In k (ContextFormat.keywordsOf f) -> k ∈ seen).
Proof.
  revert seen. induction facts as [|g facts IH]; intros seen Hin Hkw Hall; [contradiction|].
  destruct (dedupFrom_cases seen g facts) as [[Hlt Heq]|[_ Heq]]; rewrite Heq in Hin.
  - destruct Hin as [->|Hin].
    + rewrite overlapCount_all in Hlt by assumption.
      unfold hasKeywords in Hkw. destruct (ContextFormat.keywordsOf f); [discriminate|].
      cbn [length] in Hlt. lia.
    + apply (IH _ Hin Hkw). intros k Hk. apply elem_of_union_l. now apply Hall.
  - now apply (IH _ Hin Hkw).
Qed.

Lemma dedupFrom_no_repeats (facts : list string) (seen : gset string) :
  List.NoDup (List.filter hasKeywords (Spec.dedupFrom seen facts)).
Proof.
  revert seen. induction facts as [|f facts IH]; intros seen; [constructor|].
  destruct (dedupFrom_cases seen f facts) as [[_ ->]|[_ ->]]; [|apply IH].
  cbn [List.filter]. destruct (hasKeywords f) eqn:Hkw; [|apply IH].
  constructor; [|apply IH].
  intros Hin. apply filter_In in Hin as [Hin _].
  apply (dedupFrom_kept_is_new _ _ _ Hin Hkw).
  intros k Hk. apply elem_of_union_r. apply elem_of_list_to_set. now apply list_elem_of_In.
Qed.

(** X6. No fact with a keyword is returned twice by [deduplicateFacts]. *)
Theorem deduplicateFacts_no_repeats (facts : list string) :
  List.NoDup (List.filter hasKeywords (ContextFormat.deduplicateFacts facts)).
Proof. rewrite deduplicateFacts_dedupFrom. apply dedupFrom_no_repeats. Qed.

Example deduplicateFacts_short_facts :
  ContextFormat.deduplicateFacts ["on a mac"; "on a mac"; "likes rust a lot"; "likes rust a lot"]
  = ["on a mac"; "on a mac"; "likes rust a lot"].
Proof. vm_compute. reflexivity. Qed.

(** ** [truncateToTokens] *)

Lemma length_truncated (text : string) (maxTokens : Z) :
  (1 <= maxTokens)%Z ->
  (maxTokens * 4 < Z.of_nat (String.length text))%Z ->
  Z.of_nat (String.length (ContextFormat.truncateToTokens text maxTokens)) = (maxTokens * 4)%Z.
Proof.
  intros Hm Hlong. unfold ContextFormat.truncateToTokens.
  rewrite (proj2 (Z.leb_gt _ _)) by lia.
  rewrite length_append, length_sliceString_prefix by lia. cbn [String.length]. lia.
Qed.

Lemma truncateToTokens_short (text : string) (maxTokens : Z) :
  (Z.of_nat (String.length text) <= maxTokens * 4)%Z ->
  ContextFormat.truncateToTokens text maxTokens = text.
Proof.
  intros H. unfold ContextFormat.truncateToTokens. now rewrite (proj2 (Z.leb_le _ _) H).
Qed.

(** X7. For a budget of at least one token, truncating is idempotent, and a
    text that is cut has exactly [4 * maxTokens] characters and ends with
    three dots. *)
Theorem truncateToTokens_idempotent (text : string) (maxTokens : Z) :
  (1 <= maxTokens)%Z ->
  ContextFormat.truncateToTokens (ContextFormat.truncateToTokens text maxTokens) maxTokens
  = ContextFormat.truncateToTokens text maxTokens
  /\ ((maxTokens * 4 < Z.of_nat (String.length text))%Z ->
      Z.of_nat (String.length (ContextFormat.truncateToTokens text maxTokens))
      = (maxTokens * 4)%Z
      /\ exists kept, ContextFormat.truncateToTokens text maxTokens = kept +:+ "...").
Proof.
  intros Hm. split.
  - destruct (Z.leb_spec (Z.of_nat (String.length text)) (maxTokens * 4)) as [Hshort|Hlong].
    + now rewrite !(truncateToTokens_short text) by assumption.
    + pose proof (length_truncated text maxTokens Hm Hlong) as Hlen.
      apply truncateToTokens_short. lia.
  - intros Hlong. split; [now apply length_truncated|].
    unfold ContextFormat.truncateToTokens. rewrite (proj2 (Z.leb_gt _ _)) by lia.
    eexists. reflexivity.
Qed.

Lemma truncateToTokens_idempotent_witness :
  (1 <= 2)%Z
  /\ ContextFormat.truncateToTokens
       (ContextFormat.truncateToTokens "the quick brown fox jumps" 2) 2
     = ContextFormat.truncateToTokens "the quick brown fox jumps" 2
  /\ ContextFormat.truncateToTokens "the quick brown fox jumps" 2 = "the q...".
Proof.
  split; [lia|]. split; [|reflexivity].
  apply (truncateToTokens_idempotent "the quick brown fox jumps" 2). lia.
Defined.

(** X8. With a budget of zero tokens or less, a text that is not empty is cut
    to an ending of three dots, and the result is estimated above the
    budget. *)
Theorem truncateToTokens_nonpositive_budget (text : string) (maxTokens : Z) :
  (maxTokens <= 0)%Z ->
  text <> EmptyString ->
  (exists kept, ContextFormat.truncateToTokens text maxTokens = kept +:+ "...")
  /\ (maxTokens < ContextFormat.estimateTokens (ContextFormat.truncateToTokens text maxTokens))%Z.
Proof.
  intros Hm Htext.
  assert (Hlen : (0 < Z.of_nat (String.length text))%Z)
    by (destruct text; [contradiction | cbn [String.length]; lia]).
  assert (Hcut : ContextFormat.truncateToTokens text maxTokens
                 = JS.sliceString text 0 (maxTokens * 4 - 3) +:+ "...").
  { unfold ContextFormat.truncateToTokens. now rewrite (proj2 (Z.leb_gt _ _)) by lia. }
  split; [eexists; exact Hcut|].
  apply Z.nle_gt. rewrite estimateTokens_spec, Hcut, length_append. cbn [String.length]. lia.
Qed.

Lemma truncateToTokens_nonpositive_budget_witness :
  (0 < ContextFormat.estimateTokens (ContextFormat.truncateToTokens "abcdef" 0))%Z.
Proof.
  apply (truncateToTokens_nonpositive_budget "abcdef" 0); [lia | discriminate].
Defined.

(** ** Context cache *)

Lemma orZero_Some (v : Z) : Cache.orZero (Some v) = v.
Proof. cbn. destruct (Z.eqb_spec v 0); congruence. Qed.

Lemma incrementMessageCount_counters (cache : Cache.ContextCache) :
  Cache.orZero (Cache.messageCount (snd (Cache.incrementMessageCount cache)))
  = (Cache.orZero (Cache.messageCount cache) + 1)%Z
  /\ Cache.lastRefreshMessageCount (snd (Cache.incrementMessageCount cache))
     = Cache.lastRefreshMessageCount cache.
Proof.
  cbn [Cache.incrementMessageCount snd Cache.messageCount Cache.lastRefreshMessageCount].
  now rewrite orZero_Some.
Qed.

Lemma sinceRefresh_counters (k : nat) (cache : Cache.ContextCache) :
  Cache.orZero (Cache.messageCount (sinceRefresh k cache))
  = (Cache.orZero (Cache.messageCount cache) + Z.of_nat k)%Z
  /\ Cache.lastRefreshMessageCount (sinceRefresh k cache)
     = Some (Cache.orZero (Cache.messageCount cache)).
Proof.
  unfold sinceRefresh. induction k as [|k [IHc IHl]].
  - cbn. split; [lia | reflexivity].
  - rewrite Nat.iter_succ.
    destruct (incrementMessageCount_counters
                (Nat.iter k (fun c => snd (Cache.incrementMessageCount c))
                   (Cache.markKnowledgeGraphRefreshed cache))) as [-> ->].
    rewrite IHc. split; [lia | exact IHl].
Qed.

(** X9. After [markKnowledgeGraphRefreshed] and [k] calls of
    [incrementMessageCount], a refresh is due exactly when [k] has reached
    the threshold; the next [incrementMessageCount] returns the count
    before the mark plus [k + 1] (the mark does not reset the count). *)
Theorem refresh_due_every_threshold_messages
    (config : Cache.ContextRefreshConfig) (k : nat) (cache : Cache.ContextCache) :
  (Cache.shouldRefreshKnowledgeGraph config (sinceRefresh k cache) = true
   <-> (Cache.getMessageRefreshThreshold config <= Z.of_nat k)%Z)
  /\ fst (Cache.incrementMessageCount (sinceRefresh k cache))
     = (Cache.orZero (Cache.messageCount cache) + Z.of_nat k + 1)%Z.
Proof.
  destruct (sinceRefresh_counters k cache) as [Hc Hl]. split.
  - unfold Cache.shouldRefreshKnowledgeGraph. rewrite Hc, Hl, orZero_Some.
    rewrite Z.leb_le. split; intros H; lia.
  - cbn [Cache.incrementMessageCount fst]. now rewrite Hc.
Qed.

(** X10. The cached user context and the cached clawd context age
    separately: each getter returns its data when the age of its own section
    is below the TTL and [null] when it has reached the TTL (so data other
    than [null] is returned exactly while its section is fresh), and
    [isContextCacheStale] looks at the user context only. *)
Theorem cached_contexts_age_separately
    (config : Cache.ContextRefreshConfig) (now storedUser storedClawd : Z)
    (user clawd : Json.value) (cache : Cache.ContextCache) :
  let cache' := Cache.setCachedClawdContext storedClawd clawd
                  (Cache.setCachedUserContext storedUser user cache) in
  ((now - storedUser < Cache.getContextTTL config)%Z ->
   Cache.getCachedUserContext now config cache' = user)
  /\ ((Cache.getContextTTL config <= now - storedUser)%Z ->
      Cache.getCachedUserContext now config cache' = Json.Null)
  /\ ((now - storedClawd < Cache.getContextTTL config)%Z ->
      Cache.getCachedClawdContext now config cache' = clawd)
  /\ ((Cache.getContextTTL config <= now - storedClawd)%Z ->
      Cache.getCachedClawdContext now config cache' = Json.Null)
  /\ (user <> Json.Null ->
      (Cache.getCachedUserContext now config cache' = user
       <-> (now - storedUser < Cache.getContextTTL config)%Z))
  /\ (clawd <> Json.Null ->
      (Cache.getCachedClawdContext now config cache' = clawd
       <-> (now - storedClawd < Cache.getContextTTL config)%Z))
  /\ (Cache.isContextCacheStale now config cache' = true
      <-> (Cache.getContextTTL config <= now - storedUser)%Z).
Proof.
  cbv zeta. unfold Cache.getCachedUserContext, Cache.getCachedClawdContext,
    Cache.isContextCacheStale.
  cbn [Cache.setCachedClawdContext Cache.setCachedUserContext Cache.userContext
       Cache.clawdContext Cache.data Cache.fetchedAt].
  destruct (Z.ltb_spec (now - storedUser) (Cache.getContextTTL config));
    destruct (Z.ltb_spec (now - storedClawd) (Cache.getContextTTL config));
    rewrite Z.leb_le; repeat split; intros; try lia; try reflexivity;
    try (exfalso; congruence).
Qed.

Example cached_contexts_example :
  let cache := Cache.setCachedClawdContext 200000 (Json.Str (Json.codeUnits "clawd"))
                 (Cache.setCachedUserContext 0 (Json.Str (Json.codeUnits "user"))
                    Cache.emptyContextCache) in
  Cache.getCachedUserContext 300000 Cache.defaultConfig cache = Json.Null
  /\ Cache.getCachedClawdContext 300000 Cache.defaultConfig cache
     = Json.Str (Json.codeUnits "clawd")
  /\ Cache.isContextCacheStale 300000 Cache.defaultConfig cache = true.
Proof. cbv zeta. repeat split. Qed.

(* ===================================================================== *)
(** * More on the two renderings                                          *)
(* ===================================================================== *)

Ltac flatten_lists :=
  repeat first [rewrite <- app_assoc | rewrite app_nil_r | progress cbn [app]].

Ltac context_fields :=
  cbn [ContextFormat.user ContextFormat.ai ContextFormat.session ContextFormat.git
       ContextFormat.feature ContextFormat.changes
       ContextFormat.User.name ContextFormat.User.context ContextFormat.User.dialectic
       ContextFormat.Ai.name ContextFormat.Ai.context ContextFormat.Ai.dialectic
       ContextFormat.Ai.localWork
       ContextFormat.Session.name ContextFormat.Session.workspace ContextFormat.Session.cwd
       ContextFormat.Session.context
       ContextFormat.peerCard ContextFormat.explicit ContextFormat.deductive
       ContextFormat.shortSummary ContextFormat.longSummary
       ContextFormat.branch ContextFormat.commit ContextFormat.isDirty ContextFormat.dirtyFiles
       ContextFormat.type ContextFormat.description ContextFormat.keywords
       ContextFormat.areas ContextFormat.confidence
       ContextFormat.tier ContextFormat.includeDialectic ContextFormat.compressedFormat
       ContextFormat.maxTokens
       option_map mbind option_bind].

(** The sections of the compressed rendering, part by part. *)
Lemma compressedSections_parts
    (ctx : ContextFormat.FullContext) (config : ContextFormat.ContextConfig) :
  let budget := ContextFormat.TIER_BUDGETS (ContextFormat.tier config) in
  ContextFormat.compressedSections ctx config
  = ["[honcho-memory]"; ContextFormat.buildCompactHeader ctx]
    ++ (compressedFeature ctx ++ compressedChanges ctx
        ++ ["[" +:+ ContextFormat.User.name (ContextFormat.user ctx) +:+ "]"]
        ++ ContextFormat.buildCompactUserFacts
             (ContextFormat.User.context (ContextFormat.user ctx))
             (ContextFormat.facts (ContextFormat.userBudget budget))
             (ContextFormat.insights (ContextFormat.userBudget budget))
        ++ ["[" +:+ ContextFormat.Ai.name (ContextFormat.ai ctx) +:+ "]"]
        ++ ContextFormat.buildCompactAIWork
             (ContextFormat.Ai.context (ContextFormat.ai ctx))
             (ContextFormat.Ai.localWork (ContextFormat.ai ctx))
             (ContextFormat.aiFacts (ContextFormat.aiBudget budget))
             (ContextFormat.work (ContextFormat.aiBudget budget))
        ++ compressedSummary ctx config ++ compressedDialectic ctx config)
    ++ ["[end-memory]"].
Proof.
  cbv zeta. unfold ContextFormat.compressedSections, compressedFeature, compressedChanges,
    compressedSummary, compressedDialectic.
  generalize (ContextFormat.buildCompactUserFacts
                (ContextFormat.User.context (ContextFormat.user ctx))
                (ContextFormat.facts
                   (ContextFormat.userBudget (ContextFormat.TIER_BUDGETS (ContextFormat.tier config))))
                (ContextFormat.insights
                   (ContextFormat.userBudget (ContextFormat.TIER_BUDGETS (ContextFormat.tier config))))).
  generalize (ContextFormat.buildCompactAIWork
                (ContextFormat.Ai.context (ContextFormat.ai ctx))
                (ContextFormat.Ai.localWork (ContextFormat.ai ctx))
                (ContextFormat.aiFacts
                   (ContextFormat.aiBudget (ContextFormat.TIER_BUDGETS (ContextFormat.tier config))))
                (ContextFormat.work
                   (ContextFormat.aiBudget (ContextFormat.TIER_BUDGETS (ContextFormat.tier config))))).
  intros aiLines userLines.
  destruct (ContextFormat.feature ctx) as [f|];
    [destruct (JS.truthy (ContextFormat.buildCompactFeature (Some f)))|];
    destruct (ContextFormat.items (ContextFormat.changes ctx));
    destruct (negb (ContextFormat.isEssential (ContextFormat.tier config)));
    try destruct (ContextFormat.text
                    (ContextFormat.Session.context (ContextFormat.session ctx)
                     ≫= ContextFormat.shortSummary));
    destruct (ContextFormat.isDeep (ContextFormat.tier config)
              && ContextFormat.flag (ContextFormat.includeDialectic config));
    try destruct (ContextFormat.text (ContextFormat.User.dialectic (ContextFormat.user ctx)));
    try destruct (ContextFormat.text (ContextFormat.Ai.dialectic (ContextFormat.ai ctx)));
    flatten_lists; reflexivity.
Qed.

Lemma truthy_join_cons (sep x : string) (xs : list string) :
  JS.truthy x = true -> JS.truthy (JS.join sep (x :: xs)) = true.
Proof.
  intros Hx. destruct xs as [|y ys]; [exact Hx|].
  cbn [JS.join]. destruct x; [discriminate | reflexivity].
Qed.

Lemma truthy_buildCompactFeature (f : ContextFormat.FeatureContext) :
  ContextFormat.confidence f <> ContextFormat.low ->
  JS.truthy (ContextFormat.buildCompactFeature (Some f)) = true.
Proof.
  intros Hc. unfold ContextFormat.buildCompactFeature.
  assert (Hhead : JS.truthy (ContextFormat.type f +:+ ": " +:+ ContextFormat.description f)
                  = true) by apply truthy_append_char.
  destruct (ContextFormat.confidence f); try contradiction;
    destruct (ContextFormat.items (ContextFormat.keywords f));
    destruct (ContextFormat.items (ContextFormat.areas f));
    cbn [app]; now apply truthy_join_cons.
Qed.

(** The sections of the verbose rendering, part by part. *)
Lemma verboseSections_parts
    (ctx : ContextFormat.FullContext) (config : ContextFormat.ContextConfig) :
  let budget := ContextFormat.TIER_BUDGETS (ContextFormat.tier config) in
  ContextFormat.verboseSections ctx config
  = ContextFormat.buildVerboseHeader ctx
    ++ verboseFeature ctx ++ verboseChanges ctx
    ++ ContextFormat.buildVerboseUserContext
         (ContextFormat.User.name (ContextFormat.user ctx))
         (ContextFormat.User.context (ContextFormat.user ctx))
         (if ContextFormat.flag (ContextFormat.includeDialectic config)
          then ContextFormat.User.dialectic (ContextFormat.user ctx) else None)
         (ContextFormat.facts (ContextFormat.userBudget budget))
         (ContextFormat.insights (ContextFormat.userBudget budget))
    ++ ContextFormat.buildVerboseAIContext
         (ContextFormat.Ai.name (ContextFormat.ai ctx))
         (ContextFormat.Ai.context (ContextFormat.ai ctx))
         (if ContextFormat.flag (ContextFormat.includeDialectic config)
          then ContextFormat.Ai.dialectic (ContextFormat.ai ctx) else None)
         (ContextFormat.Ai.localWork (ContextFormat.ai ctx))
         (ContextFormat.aiFacts (ContextFormat.aiBudget budget))
         (ContextFormat.work (ContextFormat.aiBudget budget))
    ++ (if negb (ContextFormat.isEssential (ContextFormat.tier config))
        then ContextFormat.buildVerboseSessionSummary
               (ContextFormat.Session.context (ContextFormat.session ctx))
        else []).
Proof.
  cbv zeta. unfold ContextFormat.verboseSections, verboseFeature, verboseChanges.
  generalize (ContextFormat.buildVerboseHeader ctx).
  generalize (ContextFormat.buildVerboseSessionSummary
                (ContextFormat.Session.context (ContextFormat.session ctx))).
  generalize (ContextFormat.buildVerboseUserContext
         (ContextFormat.User.name (ContextFormat.user ctx))
         (ContextFormat.User.context (ContextFormat.user ctx))
         (if ContextFormat.flag (ContextFormat.includeDialectic config)
          then ContextFormat.User.dialectic (ContextFormat.user ctx) else None)
         (ContextFormat.facts
            (ContextFormat.userBudget (ContextFormat.TIER_BUDGETS (ContextFormat.tier config))))
         (ContextFormat.insights
            (ContextFormat.userBudget (ContextFormat.TIER_BUDGETS (ContextFormat.tier config))))).
  generalize (ContextFormat.buildVerboseAIContext
         (ContextFormat.Ai.name (ContextFormat.ai ctx))
         (ContextFormat.Ai.context (ContextFormat.ai ctx))
         (if ContextFormat.flag (ContextFormat.includeDialectic config)
          then ContextFormat.Ai.dialectic (ContextFormat.ai ctx) else None)
         (ContextFormat.Ai.localWork (ContextFormat.ai ctx))
         (ContextFormat.aiFacts
            (ContextFormat.aiBudget (ContextFormat.TIER_BUDGETS (ContextFormat.tier config))))
         (ContextFormat.work
            (ContextFormat.aiBudget (ContextFormat.TIER_BUDGETS (ContextFormat.tier config))))).
  intros aiLines userLines summaryLines header.
  destruct (ContextFormat.feature ctx) as [f|];
    [destruct (ContextFormat.confidence f);
     destruct (ContextFormat.items (ContextFormat.keywords f));
     destruct (ContextFormat.items (ContextFormat.areas f))|];
    destruct (ContextFormat.items (ContextFormat.changes ctx));
    destruct (negb (ContextFormat.isEssential (ContextFormat.tier config)));
    flatten_lists; reflexivity.
Qed.

(** X11. A feature of low confidence is not rendered: [formatContext] gives
    the text it gives without a feature.  A feature of another confidence
    has its line in the compressed sections and its confidence line in the
    verbose ones. *)
Theorem low_confidence_feature_is_not_rendered
    (ctx : ContextFormat.FullContext) (config : ContextFormat.ContextConfig)
    (f : ContextFormat.FeatureContext) :
  match ContextFormat.confidence f with
  | ContextFormat.low =>
      ContextFormat.formatContext (withFeature (Some f) ctx) config
      = ContextFormat.formatContext (withFeature None ctx) config
  | _ =>
      In ("feature: " +:+ ContextFormat.buildCompactFeature (Some f))
         (ContextFormat.compressedSections (withFeature (Some f) ctx) config)
      /\ In ("- Confidence: " +:+ ContextFormat.confidenceText (ContextFormat.confidence f))
            (ContextFormat.verboseSections (withFeature (Some f) ctx) config)
  end.
Proof.
  assert (Hshown : ContextFormat.confidence f <> ContextFormat.low ->
            In ("feature: " +:+ ContextFormat.buildCompactFeature (Some f))
               (ContextFormat.compressedSections (withFeature (Some f) ctx) config)
            /\ In ("- Confidence: "
                   +:+ ContextFormat.confidenceText (ContextFormat.confidence f))
                  (ContextFormat.verboseSections (withFeature (Some f) ctx) config)).
  { intros Hc. split.
    - rewrite compressedSections_parts. cbv zeta.
      apply in_or_app. right. apply in_or_app. left. apply in_or_app. left.
      unfold compressedFeature, withFeature. context_fields.
      rewrite truthy_buildCompactFeature by assumption. now left.
    - rewrite verboseSections_parts. cbv zeta.
      apply in_or_app. right. apply in_or_app. left.
      unfold verboseFeature, withFeature. context_fields.
      destruct (ContextFormat.confidence f); try contradiction;
        apply in_or_app; right; apply in_or_app; right; apply in_or_app; right; now left. }
  destruct (ContextFormat.confidence f) eqn:Hc.
  - apply Hshown. discriminate.
  - apply Hshown. discriminate.
  - unfold ContextFormat.formatContext, ContextFormat.formatCompressedContext,
      ContextFormat.formatVerboseContext.
    rewrite !compressedSections_parts, !verboseSections_parts. cbv zeta.
    unfold compressedFeature, verboseFeature, compressedChanges, verboseChanges,
      compressedSummary, compressedDialectic,
      ContextFormat.buildCompactHeader, ContextFormat.buildVerboseHeader,
      ContextFormat.buildCompactFeature, withFeature.
    context_fields. rewrite Hc. reflexivity.
Qed.

Ltac unfold_renderings :=
  unfold ContextFormat.formatContext, ContextFormat.formatCompressedContext,
    ContextFormat.formatVerboseContext;
  rewrite ?compressedSections_parts, ?verboseSections_parts; cbv zeta;
  unfold compressedFeature, verboseFeature, compressedChanges, verboseChanges,
    compressedSummary, compressedDialectic,
    ContextFormat.buildCompactHeader, ContextFormat.buildVerboseHeader;
  context_fields.

(** X12. At the essential tier [formatContext] does not read the session
    summaries, and the compressed rendering never reads the long summary. *)
Theorem session_summaries_by_tier_and_mode
    (ctx : ContextFormat.FullContext)
    (summaries summaries' : option ContextFormat.SessionContext)
    (maxTokens : option Z) (includeDialectic compressedFormat : option bool)
    (config : ContextFormat.ContextConfig) (short long long' : option string) :
  let atEssential :=
    {| ContextFormat.tier := ContextFormat.essential;
       ContextFormat.maxTokens := maxTokens;
       ContextFormat.includeDialectic := includeDialectic;
       ContextFormat.compressedFormat := compressedFormat |} in
  ContextFormat.formatContext (withSummaries summaries ctx) atEssential
  = ContextFormat.formatContext (withSummaries summaries' ctx) atEssential
  /\ ContextFormat.formatCompressedContext
       (withSummaries
          (Some {| ContextFormat.shortSummary := short; ContextFormat.longSummary := long |})
          ctx) config
     = ContextFormat.formatCompressedContext
         (withSummaries
            (Some {| ContextFormat.shortSummary := short; ContextFormat.longSummary := long' |})
            ctx) config.
Proof.
  cbv zeta. split.
  - unfold withSummaries. unfold_renderings. reflexivity.
  - unfold withSummaries. unfold_renderings. reflexivity.
Qed.

Lemma join_cons_cons (sep x y : string) (rest : list string) :
  JS.join sep (x :: y :: rest) = x +:+ sep +:+ JS.join sep (y :: rest).
Proof. reflexivity. Qed.

(** X13. The compressed rendering starts with the line [[honcho-memory]] and
    the header line, ends with the line [[end-memory]], and has the two
    peer markers in between. *)
Theorem compressed_rendering_is_bracketed
    (ctx : ContextFormat.FullContext) (config : ContextFormat.ContextConfig) :
  exists middle : list string,
    ContextFormat.compressedSections ctx config
    = ["[honcho-memory]"; ContextFormat.buildCompactHeader ctx] ++ middle ++ ["[end-memory]"]
    /\ In ("[" +:+ ContextFormat.User.name (ContextFormat.user ctx) +:+ "]") middle
    /\ In ("[" +:+ ContextFormat.Ai.name (ContextFormat.ai ctx) +:+ "]") middle
    /\ ContextFormat.formatCompressedContext ctx config
       = "[honcho-memory]" +:+ JS.nl +:+ ContextFormat.buildCompactHeader ctx +:+ JS.nl
         +:+ JS.join JS.nl middle +:+ JS.nl +:+ "[end-memory]".
Proof.
  pose proof (compressedSections_parts ctx config) as Hparts. cbv zeta in Hparts.
  eexists. split; [exact Hparts|].
  split; [|split].
  - apply in_or_app. right. apply in_or_app. right. now left.
  - do 4 (apply in_or_app; right). now left.
  - unfold ContextFormat.formatCompressedContext. rewrite Hparts.
    match goal with
    | |- JS.join _ (_ ++ ?m ++ _) = _ =>
        assert (Hne : m <> []) by
          (destruct (compressedFeature ctx), (compressedChanges ctx); discriminate);
        revert Hne; generalize m
    end.
    intros middle Hne. cbn [app].
    destruct (middle ++ ["[end-memory]"]) as [|y rest] eqn:Hm;
      [now destruct middle|].
    rewrite !join_cons_cons, <- Hm, join_snoc by assumption.
    reflexivity.
Qed.

(* ===================================================================== *)
(** * Prompt context and memory anchor                                    *)
(* ===================================================================== *)

Ltac first_entries :=
  rewrite ?items_sliceArray by lia;
  repeat match goal with
         | |- context [ContextFormat.items ?x] =>
             destruct (ContextFormat.items x); cbn [option_map]
         | |- context [ContextFormat.text ?x] =>
             destruct (ContextFormat.text x); cbn [option_map]
         end;
  rewrite ?sliceArray_prefix_idempotent by lia;
  try reflexivity.

(** X14. The prompt context is empty exactly when the peer has no facts, no
    insights and no profile lines; otherwise it starts with
    [[Honcho/peerName]]; it reads the first 5 facts, 3 insights and 2
    profile lines only. *)
Theorem formatPromptContext_shape
    (peerName : string) (context : option ContextFormat.UserContext) :
  (ContextFormat.formatPromptContext peerName context = EmptyString
   <-> ContextFormat.items (context ≫= ContextFormat.explicit) = None
       /\ ContextFormat.items (context ≫= ContextFormat.deductive) = None
       /\ ContextFormat.items (context ≫= ContextFormat.peerCard) = None)
  /\ (ContextFormat.formatPromptContext peerName context = EmptyString
      \/ exists parts,
           ContextFormat.formatPromptContext peerName context
           = "[Honcho/" +:+ peerName +:+ "] " +:+ parts)
  /\ ContextFormat.formatPromptContext peerName (option_map (firstEntries 2 5 3) context)
     = ContextFormat.formatPromptContext peerName context.
Proof.
  split; [|split].
  - unfold ContextFormat.formatPromptContext.
    destruct (ContextFormat.items (context ≫= ContextFormat.explicit));
      destruct (ContextFormat.items (context ≫= ContextFormat.deductive));
      destruct (ContextFormat.items (context ≫= ContextFormat.peerCard));
      cbn [app Json.isNil];
      (split; [intros H; try discriminate H; auto | intros (H1 & H2 & H3); try discriminate;
                                                    reflexivity]).
  - unfold ContextFormat.formatPromptContext.
    match goal with
    | |- (if ?b then _ else _) = _ \/ _ => destruct b
    end; [now left | right; eexists; reflexivity].
  - destruct context as [[pc ex de]|]; [|reflexivity].
    unfold ContextFormat.formatPromptContext, firstEntries. context_fields. first_entries.
Qed.

Lemma optional_push {A : Type} (o : option A) (s : list string) (f : A -> list string) :
  match o with Some a => s ++ f a | None => s end
  = s ++ match o with Some a => f a | None => [] end.
Proof. destruct o; [reflexivity | now rewrite app_nil_r]. Qed.

(** The sections of the memory anchor, part by part. *)
Lemma anchorSections_parts (ctx : ContextFormat.FullContext) :
  ContextFormat.anchorSections ctx
  = ["## HONCHO MEMORY ANCHOR (Pre-Compaction)";
     "Critical context to preserve in summary:" +:+ JS.nl;
     "### Session Identity (PRESERVE)";
     "- User: " +:+ ContextFormat.User.name (ContextFormat.user ctx);
     "- AI: " +:+ ContextFormat.Ai.name (ContextFormat.ai ctx);
     "- Session: " +:+ ContextFormat.Session.name (ContextFormat.session ctx)]
    ++ match ContextFormat.text (ContextFormat.git ctx ≫= ContextFormat.branch) with
       | Some b => ["- Branch: " +:+ b]
       | None => []
       end
    ++ match ContextFormat.items (ContextFormat.User.context (ContextFormat.user ctx)
                                  ≫= ContextFormat.peerCard) with
       | Some cs =>
           [JS.nl +:+ "### " +:+ ContextFormat.User.name (ContextFormat.user ctx)
            +:+ "'s Profile (PRESERVE)"]
           ++ List.map ContextFormat.bullet (JS.sliceArray cs 0 5)
       | None => []
       end
    ++ match ContextFormat.items (ContextFormat.User.context (ContextFormat.user ctx)
                                  ≫= ContextFormat.explicit) with
       | Some es =>
           [JS.nl +:+ "### Key Facts About "
            +:+ ContextFormat.User.name (ContextFormat.user ctx) +:+ " (PRESERVE)"]
           ++ List.map (fun e => ContextFormat.bullet (ContextFormat.content e))
                (JS.sliceArray es 0 10)
       | None => []
       end
    ++ match ContextFormat.items (ContextFormat.User.context (ContextFormat.user ctx)
                                  ≫= ContextFormat.deductive) with
       | Some ds =>
           [JS.nl +:+ "### " +:+ ContextFormat.User.name (ContextFormat.user ctx)
            +:+ "'s Patterns (PRESERVE)"]
           ++ List.map (fun d => ContextFormat.bullet (ContextFormat.conclusion d))
                (JS.sliceArray ds 0 5)
       | None => []
       end
    ++ match ContextFormat.items (ContextFormat.Ai.context (ContextFormat.ai ctx)
                                  ≫= ContextFormat.explicit) with
       | Some es =>
           [JS.nl +:+ "### " +:+ ContextFormat.Ai.name (ContextFormat.ai ctx)
            +:+ "'s Recent Work (PRESERVE)"]
           ++ List.map (fun e => ContextFormat.bullet (ContextFormat.content e))
                (JS.sliceArray es 0 8)
       | None => []
       end
    ++ match ContextFormat.text (ContextFormat.Session.context (ContextFormat.session ctx)
                                 ≫= ContextFormat.shortSummary) with
       | Some s => [JS.nl +:+ "### Session Context (PRESERVE)"; s]
       | None => []
       end
    ++ match ContextFormat.text (ContextFormat.User.dialectic (ContextFormat.user ctx)) with
       | Some d =>
           [JS.nl +:+ "### AI Understanding of "
            +:+ ContextFormat.User.name (ContextFormat.user ctx) +:+ " (PRESERVE)"; d]
       | None => []
       end
    ++ match ContextFormat.text (ContextFormat.Ai.dialectic (ContextFormat.ai ctx)) with
       | Some d =>
           [JS.nl +:+ "### " +:+ ContextFormat.Ai.name (ContextFormat.ai ctx)
            +:+ "'s Self-Reflection (PRESERVE)"; d]
       | None => []
       end
    ++ [JS.nl +:+ "### End Memory Anchor";
        "The above context represents persistent memory from Honcho.";
        "When summarizing, ensure these facts are preserved."].
Proof.
  unfold ContextFormat.anchorSections. cbv zeta.
  repeat rewrite (optional_push (A := string)) || rewrite (optional_push (A := list string))
         || rewrite (optional_push (A := list ContextFormat.ExplicitFact))
         || rewrite (optional_push (A := list ContextFormat.Deduction)).

  rewrite <- !app_assoc. reflexivity.
Qed.

(** X15. The memory anchor reads the names, the branch, the first 5 profile
    lines, 10 facts and 5 insights of the user, the first 8 facts of the
    AI, the short summary and the dialectic texts, and nothing else; the
    dialectic texts are always among its sections. *)
Theorem formatMemoryAnchor_reads (ctx : ContextFormat.FullContext) :
  ContextFormat.formatMemoryAnchor (anchorView ctx) = ContextFormat.formatMemoryAnchor ctx
  /\ match ContextFormat.text (ContextFormat.User.dialectic (ContextFormat.user ctx)) with
     | Some d => In d (ContextFormat.anchorSections ctx)
     | None => True
     end
  /\ match ContextFormat.text (ContextFormat.Ai.dialectic (ContextFormat.ai ctx)) with
     | Some d => In d (ContextFormat.anchorSections ctx)
     | None => True
     end.
Proof.
  split; [|split].
  - unfold ContextFormat.formatMemoryAnchor. rewrite !anchorSections_parts.
    unfold anchorView, firstEntries. context_fields.
    repeat f_equal;
      try destruct (ContextFormat.git ctx);
      try destruct (ContextFormat.User.context (ContextFormat.user ctx));
      try destruct (ContextFormat.Ai.context (ContextFormat.ai ctx));
      try destruct (ContextFormat.Session.context (ContextFormat.session ctx));
      context_fields; first_entries.
  - destruct (ContextFormat.text (ContextFormat.User.dialectic (ContextFormat.user ctx)))
      as [d|] eqn:Hd; [|exact I].
    unfold ContextFormat.anchorSections. cbv zeta. rewrite Hd.
    apply in_or_app. left.
    destruct (ContextFormat.text (ContextFormat.Ai.dialectic (ContextFormat.ai ctx)));
      [apply in_or_app; left|];
      apply in_or_app; right; right; now left.
  - destruct (ContextFormat.text (ContextFormat.Ai.dialectic (ContextFormat.ai ctx)))
      as [d|] eqn:Hd; [|exact I].
    unfold ContextFormat.anchorSections. cbv zeta. rewrite Hd.
    apply in_or_app. left. apply in_or_app; right; right; now left.
Qed.

Example formatPromptContext_example :
  ContextFormat.formatPromptContext "eri"
    (Some {| ContextFormat.peerCard := Some ["name: eri"; "role: dev"; "tz: utc"];
             ContextFormat.explicit :=
               Some [{| ContextFormat.content := "likes rust";
                        ContextFormat.source := None |}];
             ContextFormat.deductive := Some [] |})
  = "[Honcho/eri] facts: likes rust | profile: name: eri; role: dev".
Proof. vm_compute. reflexivity. Qed.


(* ===================================================================== *)
(** * Session start                                                       *)
(* ===================================================================== *)

Lemma replaceOthers_char (c : ascii) :
  let c' := if SessionStart.isNameChar (JS.toLowerChar c) then JS.toLowerChar c else "-"%char in
  SessionStart.isNameChar c' = true /\ JS.toLowerChar c' = c'.
Proof. destruct c as [[] [] [] [] [] [] [] []]; vm_compute; split; reflexivity. Qed.

Lemma getSessionName_unconfigured (base : string) :
  everyChar SessionStart.isNameChar (SessionStart.replaceOthers (JS.toLowerCase base)) = true
  /\ SessionStart.replaceOthers
       (JS.toLowerCase (SessionStart.replaceOthers (JS.toLowerCase base)))
     = SessionStart.replaceOthers (JS.toLowerCase base).
Proof.
  induction base as [|c base [IHa IHb]]; [split; reflexivity|].
  destruct (replaceOthers_char c) as [Hname Hlower]. cbv zeta in Hname, Hlower.
  cbn [JS.toLowerCase SessionStart.replaceOthers everyChar].
  rewrite Hname, IHa, Hlower, Hname, IHb. split; reflexivity.
Qed.

(** X16. A configured session name is returned as it is.  Without one, the
    name is made of the characters a-z, 0-9, - and _ only, and naming it
    again gives the same name. *)
Theorem getSessionName_is_safe (configuredSession : option string) (base : string) :
  match ContextFormat.text configuredSession with
  | Some s => SessionStart.getSessionName configuredSession base = s
  | None =>
      everyChar SessionStart.isNameChar (SessionStart.getSessionName configuredSession base)
      = true
      /\ SessionStart.getSessionName None (SessionStart.getSessionName configuredSession base)
         = SessionStart.getSessionName configuredSession base
  end.
Proof.
  unfold SessionStart.getSessionName.
  destruct (ContextFormat.text configuredSession); [reflexivity|].
  cbn [ContextFormat.text]. apply getSessionName_unconfigured.
Qed.

Example getSessionName_examples :
  SessionStart.getSessionName None "My Repo.v2_x-y" = "my-repo-v2_x-y"
  /\ SessionStart.getSessionName (Some "") "honcho-clawd" = "honcho-clawd"
  /\ SessionStart.getSessionName (Some "Team Session!") "honcho-clawd" = "Team Session!".
Proof. repeat split. Qed.

Lemma truthy_append_l (s t : string) : JS.truthy s = true -> JS.truthy (s +:+ t) = true.
Proof. destruct s; [discriminate | reflexivity]. Qed.

(** X17. The representation text is empty exactly when there are no explicit
    and no deductive entries; it reads the first 15 observations and 10
    deductions only.  With deductive entries it ends with the block of their
    lines: each line gives the conclusion and, as its source, the premises
    joined by commas, or [prior observations] when the premises are missing
    or join to the empty string; so the source is never empty. *)
Theorem formatRepresentation_shape (rep : option SessionStart.Representation) :
  (SessionStart.formatRepresentation rep = EmptyString
   <-> ContextFormat.items (rep ≫= SessionStart.explicit) = None
       /\ ContextFormat.items (rep ≫= SessionStart.deductive) = None)
  /\ SessionStart.formatRepresentation (option_map firstObservations rep)
     = SessionStart.formatRepresentation rep
  /\ (forall ds,
        ContextFormat.items (rep ≫= SessionStart.deductive) = Some ds ->
        exists before,
          SessionStart.formatRepresentation rep
          = before +:+ "### Deduced Insights" +:+ JS.nl
            +:+ JS.join JS.nl (List.map SessionStart.deductionLine (JS.sliceArray ds 0 10)))
  /\ (forall (d : ContextFormat.Deduction) (ps : list string),
        ContextFormat.premises d = Some ps ->
        JS.join ", " ps <> EmptyString ->
        SessionStart.deductionLine d
        = "- " +:+ ContextFormat.conclusion d +:+ " (from: " +:+ JS.join ", " ps +:+ ")")
  /\ (forall d : ContextFormat.Deduction,
        ContextFormat.premises d = None
        \/ (exists ps, ContextFormat.premises d = Some ps /\ JS.join ", " ps = EmptyString) ->
        SessionStart.deductionLine d
        = "- " +:+ ContextFormat.conclusion d +:+ " (from: prior observations)")
  /\ (forall d : ContextFormat.Deduction,
        exists source,
          source <> EmptyString
          /\ SessionStart.deductionLine d
             = "- " +:+ ContextFormat.conclusion d +:+ " (from: " +:+ source +:+ ")").
Proof.
  split; [|split; [|split; [|split; [|split]]]].
  - unfold SessionStart.formatRepresentation.
    destruct (ContextFormat.items (rep ≫= SessionStart.explicit));
      destruct (ContextFormat.items (rep ≫= SessionStart.deductive));
      cbn [app JS.join];
      (split; [intros H; try discriminate H; auto | intros (H1 & H2); try discriminate;
                                                    reflexivity]).
  - destruct rep as [[ex de]|]; [|reflexivity].
    unfold SessionStart.formatRepresentation, firstObservations.
    cbn [option_map mbind option_bind SessionStart.explicit SessionStart.deductive].
    rewrite !items_sliceArray by lia.
    destruct (ContextFormat.items ex), (ContextFormat.items de); cbn [option_map];
      rewrite ?sliceArray_prefix_idempotent by lia; reflexivity.
  - intros ds Hds. unfold SessionStart.formatRepresentation. rewrite Hds.
    destruct (ContextFormat.items (rep ≫= SessionStart.explicit)) as [es|]; cbn [app].
    + exists (("### Explicit Facts" +:+ JS.nl
                +:+ JS.join JS.nl (List.map SessionStart.observationLine
                                     (JS.sliceArray es 0 15)))
               +:+ (JS.nl +:+ JS.nl)).
      rewrite join_cons_cons. cbn [JS.join].
      generalize ("### Explicit Facts" +:+ JS.nl
                  +:+ JS.join JS.nl (List.map SessionStart.observationLine
                                       (JS.sliceArray es 0 15))).
      generalize ("### Deduced Insights" +:+ JS.nl
                  +:+ JS.join JS.nl (List.map SessionStart.deductionLine
                                       (JS.sliceArray ds 0 10))).
      intros insights facts. symmetry. apply append_assoc.
    + exists EmptyString. reflexivity.
  - intros d ps Hps Hjoin. unfold SessionStart.deductionLine. rewrite Hps.
    destruct (JS.join ", " ps); [contradiction | reflexivity].
  - intros d [Hnone | (ps & Hps & Hjoin)]; unfold SessionStart.deductionLine.
    + now rewrite Hnone.
    + now rewrite Hps, Hjoin.
  - intros d. unfold SessionStart.deductionLine.
    destruct (ContextFormat.premises d) as [ps|].
    + destruct (JS.truthy (JS.join ", " ps)) eqn:Ht.
      * exists (JS.join ", " ps). split; [|reflexivity]. intros E. now rewrite E in Ht.
      * exists "prior observations". split; [discriminate | reflexivity].
    + exists "prior observations". split; [discriminate | reflexivity].
Qed.

Example formatRepresentation_example :
  SessionStart.formatRepresentation
    (Some {| SessionStart.explicit := Some [SessionStart.Plain "likes rust"];
             SessionStart.deductive :=
               Some [{| ContextFormat.conclusion := "prefers static types";
                        ContextFormat.premises := Some ["likes rust"; "avoids python"] |};
                     {| ContextFormat.conclusion := "works late";
                        ContextFormat.premises := Some [] |}] |})
  = "### Explicit Facts" +:+ JS.nl +:+ "- likes rust" +:+ JS.nl +:+ JS.nl
    +:+ "### Deduced Insights" +:+ JS.nl
    +:+ "- prefers static types (from: likes rust, avoids python)" +:+ JS.nl
    +:+ "- works late (from: prior observations)".
Proof. vm_compute. reflexivity. Qed.

(* ===================================================================== *)
(** * Summary of a session's work                                         *)
(* ===================================================================== *)

Lemma firstSentence_has_no_end (msg : string) (c : ascii) :
  Cache.endsSentence c = true -> contains c (Cache.firstSentence msg) = false.
Proof.
  intros Hc. induction msg as [|a msg IH]; [reflexivity|].
  cbn [Cache.firstSentence]. destruct (Cache.endsSentence a) eqn:Ha; [reflexivity|].
  cbn [contains]. rewrite IH. destruct (Ascii.eqb_spec a c) as [->|]; [congruence | reflexivity].
Qed.

Lemma collect_step_bounded (msgs : list string) (actions : list string) :
  let collected :=
    fold_left
      (fun actions msg =>
         if JS.includes "Created" msg || JS.includes "Updated" msg || JS.includes "Fixed" msg
         then
           let sentence := Cache.firstSentence msg in
           if String.length sentence <? 200 then actions ++ [sentence] else actions
         else actions) msgs actions in
  length collected <= length actions + length msgs
  /\ (Forall (fun a => String.length a < 200
                       /\ forall c, Cache.endsSentence c = true -> contains c a = false)
        actions ->
      Forall (fun a => String.length a < 200
                       /\ forall c, Cache.endsSentence c = true -> contains c a = false)
        collected).
Proof.
  cbv zeta. revert actions. induction msgs as [|msg msgs IH]; intros actions.
  - cbn [fold_left length]. split; [lia | auto].
  - cbn [fold_left length].
    destruct (JS.includes "Created" msg || JS.includes "Updated" msg || JS.includes "Fixed" msg).
    + destruct (Nat.ltb_spec (String.length (Cache.firstSentence msg)) 200) as [Hlt|Hge].
      * destruct (IH (actions ++ [Cache.firstSentence msg])) as [Hlen Hall].
        rewrite length_app in Hlen. cbn [length] in Hlen. split; [lia|].
        intros Hactions. apply Hall. apply Forall_app. split; [exact Hactions|].
        constructor; [|constructor]. split; [exact Hlt|].
        intros c Hc. now apply firstSentence_has_no_end.
      * destruct (IH actions) as [Hlen Hall]. split; [lia | exact Hall].
    + destruct (IH actions) as [Hlen Hall]. split; [lia | exact Hall].
Qed.

Lemma length_sliceFrom_last {A : Type} (xs : list A) (k : Z) :
  (0 < k)%Z -> length (JS.sliceFrom xs (- k)) <= Z.to_nat k.
Proof.
  intros Hk. rewrite sliceFrom_last by assumption. rewrite length_skipn. lia.
Qed.

Lemma sliceFrom_last_all {A : Type} (xs : list A) (k : Z) :
  (0 < k)%Z -> length xs <= Z.to_nat k -> JS.sliceFrom xs (- k) = xs.
Proof.
  intros Hk Hlen. rewrite sliceFrom_last by assumption.
  replace (length xs - Z.to_nat k) with 0 by lia. reflexivity.
Qed.

(** X18. The actions of a generated summary: at most ten, each shorter than
    200 characters and free of the characters that end a sentence; the
    later [slice(-10)] keeps them all. *)
Theorem collectActions_bounded (assistantMessages : list string) :
  let actions := Cache.collectActions assistantMessages in
  length actions <= 10
  /\ Forall (fun a => String.length a < 200
                      /\ forall c, Cache.endsSentence c = true -> contains c a = false)
       actions
  /\ JS.sliceFrom actions (-10) = actions.
Proof.
  cbv zeta. unfold Cache.collectActions.
  destruct (collect_step_bounded (JS.sliceFrom assistantMessages (-10)) []) as [Hlen Hall].
  cbv zeta in Hlen, Hall.
  pose proof (length_sliceFrom_last assistantMessages 10 ltac:(lia)) as Hten.
  change (- (10))%Z with (-10)%Z in Hten.
  cbn [length] in Hlen.
  match type of Hlen with
  | length ?collected <= _ => set (actions := collected) in *
  end.
  split; [lia|]. split; [apply Hall; constructor|].
  apply (sliceFrom_last_all _ 10); lia.
Qed.


(* ===================================================================== *)
(** * JSON.stringify with indentation, read back by JSON.parse            *)
(* ===================================================================== *)

(** Induction on a JSON value, with the hypothesis for every element and
    member. *)
Lemma value_induction (P : Json.value -> Prop) :
  P Json.Null ->
  (forall b, P (Json.Bool b)) ->
  (forall neg m e, P (Json.Number neg m e)) ->
  (forall us, P (Json.Str us)) ->
  (forall vs, Forall P vs -> P (Json.Arr vs)) ->
  (forall ms, Forall (fun m => P (snd m)) ms -> P (Json.Obj ms)) ->
  forall v, P v.
Proof.
  intros HNull HBool HNumber HStr HArr HObj.
  fix IH 1. intros [| b | neg m e | us | vs | ms].
  - exact HNull.
  - apply HBool.
  - apply HNumber.
  - apply HStr.
  - apply HArr. induction vs as [|v vs IHvs]; constructor; [apply IH | exact IHvs].
  - apply HObj. induction ms as [|[k v] ms IHms]; constructor; [apply IH | exact IHms].
Qed.

Lemma latin1_codeUnits (us : list N) (s : string) :
  Json.latin1 us = Some s -> Json.codeUnits s = us.
Proof.
  revert s. induction us as [|u us IH]; intros s H; cbn in H.
  - now injection H as <-.
  - destruct (N.ltb_spec u 256) as [Hu|]; [|discriminate].
    destruct (Json.latin1 us) as [t|]; [|discriminate]. cbn in H. injection H as <-.
    unfold Json.codeUnits. cbn [list_ascii_of_string List.map].
    rewrite N_ascii_embedding by assumption. f_equal. now apply IH.
Qed.

Lemma latin1_total (us : list N) :
  forallb isLatin1 us = true -> exists s, Json.latin1 us = Some s.
Proof.
  induction us as [|u us IH]; intros H; [now exists EmptyString|].
  cbn [forallb] in H. apply andb_prop in H as [Hu Hus].
  destruct (IH Hus) as [s Hs]. exists (String (ascii_of_N u) s).
  cbn [Json.latin1]. unfold isLatin1 in Hu. now rewrite Hu, Hs.
Qed.


Lemma forallb_isLatin1_codeUnits (s : string) : forallb isLatin1 (Json.codeUnits s) = true.
Proof.
  induction s as [|c s IH]; [reflexivity|].
  unfold Json.codeUnits in *. cbn [list_ascii_of_string List.map forallb].
  rewrite IH, andb_true_r. unfold isLatin1. apply N.ltb_lt. apply N_ascii_bounded.
Qed.

(** ** White space in front of a value *)

Lemma skipWs_spaces (indent s : string) :
  everyChar (fun c => Ascii.eqb c " ") indent = true ->
  Json.skipWs (indent +:+ s) = Json.skipWs s.
Proof.
  induction indent as [|c indent IH]; intros H; [reflexivity|].
  cbn [everyChar] in H. apply andb_prop in H as [Hc Hrest].
  apply Ascii.eqb_eq in Hc. subst c. cbn [String.append Json.skipWs].
  change (Json.isJsonWs " ") with true. cbv iota. now apply IH.
Qed.

Lemma skipWs_newline_spaces (indent s : string) :
  everyChar (fun c => Ascii.eqb c " ") indent = true ->
  Json.skipWs (JS.nl +:+ indent +:+ s) = Json.skipWs s.
Proof. intros H. cbn [JS.nl String.append Json.skipWs]. now apply skipWs_spaces. Qed.

(** [parseValue], [parseElements] and [parseMembers] skip white space
    first. *)
Lemma parseValue_skipWs (fuel : nat) (s : string) :
  Json.parseValue fuel s = Json.parseValue fuel (Json.skipWs s).
Proof.
  destruct fuel as [|fuel]; [reflexivity|].
  rewrite !parseValue_unfold.
  assert (Hidem : Json.skipWs (Json.skipWs s) = Json.skipWs s).
  { induction s as [|c s IH]; [reflexivity|]. cbn [Json.skipWs].
    destruct (Json.isJsonWs c) eqn:Hc; [exact IH|]. cbn [Json.skipWs]. now rewrite Hc. }
  now rewrite Hidem.
Qed.

Lemma spaces_gap (indent : string) :
  everyChar (fun c => Ascii.eqb c " ") indent = true ->
  everyChar (fun c => Ascii.eqb c " ") (indent +:+ Json.gap) = true.
Proof.
  induction indent as [|c indent IH]; intros H; [reflexivity|].
  cbn [everyChar] in H. apply andb_prop in H as [Hc Hrest].
  cbn [String.append everyChar]. now rewrite Hc, IH.
Qed.

Lemma mapM_cons {A B : Type} (f : A -> option B) (x : A) (l : list A) :
  mapM f (x :: l) = y ← f x; k ← mapM f l; Some (y :: k).
Proof. reflexivity. Qed.

Lemma skipWs_startsValue (part rest : string) :
  startsValue part = true ->
  exists c t, Json.skipWs (part +:+ rest) = String c t
              /\ Ascii.eqb c "]" = false /\ Ascii.eqb c "}" = false.
Proof.
  destruct part as [|c part]; [discriminate|]. cbn [startsValue]. intros H.
  apply andb_prop in H as [H Hbrace]. apply andb_prop in H as [Hws Hbracket].
  exists c, (part +:+ rest). cbn [String.append Json.skipWs].
  apply negb_true_iff in Hws, Hbracket, Hbrace. rewrite Hws. auto.
Qed.

(** The elements of a rendered array, read back. *)
Lemma parseElements_indented (inner indent rest : string)
    (vs : list Json.value) (parts : list string) :
  everyChar (fun c => Ascii.eqb c " ") inner = true ->
  everyChar (fun c => Ascii.eqb c " ") indent = true ->
  Forall2 (fun v part => readsBack part v (size v)) vs parts ->
  vs <> [] ->
  forall fuel,
    list_sum (List.map (fun x => S (size x)) vs) <= fuel ->
    Json.parseElements fuel
      (JS.nl +:+ inner +:+ JS.join ("," +:+ JS.nl +:+ inner) parts
       +:+ JS.nl +:+ indent +:+ String "]" rest)
    = Some (vs, rest).
Proof.
  intros Hinner Hindent Hparts.
  induction Hparts as [|v part vs parts Hv Hrest IH]; intros Hne fuel Hfuel; [contradiction|].
  cbn in Hfuel.
  destruct fuel as [|fuel]; [lia|]. rewrite parseElements_unfold.
  rewrite parseValue_skipWs, skipWs_newline_spaces by assumption.
  destruct Hrest as [|v' part' vs' parts' Hv' Hrest'].
  - cbn [JS.join]. rewrite <- parseValue_skipWs.
    rewrite (Hv fuel _ ltac:(lia)). cbn [mbind option_bind].
    rewrite skipWs_newline_spaces by assumption. reflexivity.
  - rewrite join_cons_cons, !append_assoc. rewrite <- parseValue_skipWs.
    rewrite (Hv fuel _ ltac:(lia)). cbn [mbind option_bind].
    cbn [String.append Json.skipWs]. change (Json.isJsonWs ",") with false. cbv iota.
    change (Ascii.eqb "," ",") with true. cbv iota.
    change (String JS.newline (inner +:+ ?x)) with (JS.nl +:+ inner +:+ x).
    rewrite IH; [reflexivity | discriminate | unfold list_sum; lia].
Qed.

(** The members of a rendered object, read back. *)
Lemma parseMembers_indented (inner indent rest : string)
    (ms : list (list N * Json.value)) (parts : list string) :
  everyChar (fun c => Ascii.eqb c " ") inner = true ->
  everyChar (fun c => Ascii.eqb c " ") indent = true ->
  Forall2 (fun m part =>
             exists name strP,
               Json.latin1 (fst m) = Some name
               /\ part = Json.stringifyString name +:+ ": " +:+ strP
               /\ readsBack strP (snd m) (size (snd m))) ms parts ->
  ms <> [] ->
  forall fuel,
    list_sum (List.map (fun '(_, x) => S (size x)) ms) <= fuel ->
    Json.parseMembers fuel
      (JS.nl +:+ inner +:+ JS.join ("," +:+ JS.nl +:+ inner) parts
       +:+ JS.nl +:+ indent +:+ String "}" rest)
    = Some (ms, rest).
Proof.
  intros Hinner Hindent Hparts.
  induction Hparts as [|[k v] part ms parts Hm Hrest IH]; intros Hne fuel Hfuel; [contradiction|].
  cbn in Hfuel. destruct Hm as (name & strP & Hname & -> & Hv). cbn [fst snd] in *.
  destruct fuel as [|fuel]; [lia|]. rewrite parseMembers_unfold.
  rewrite skipWs_newline_spaces by assumption.
  assert (Hhead : forall tail,
             Json.skipWs (Json.stringifyString name +:+ tail)
             = String Json.quote (Json.quoteBody name +:+ String Json.quote tail)).
  { intros tail. rewrite stringifyString_append. reflexivity. }
  apply latin1_codeUnits in Hname. subst k.
  destruct Hrest as [|m' part' ms' parts' Hm' Hrest'].
  - cbn [JS.join]. rewrite !append_assoc, Hhead.
    change (Ascii.eqb Json.quote Json.quote) with true. cbv iota.
    rewrite parseStringBody_quoteBody. cbn [mbind option_bind String.append Json.skipWs].
    change (Json.isJsonWs ":") with false. cbv iota.
    change (Ascii.eqb ":" ":") with true. cbv iota.
    rewrite parseValue_skipWs. cbn [Json.skipWs]. change (Json.isJsonWs " ") with true.
    cbv iota. rewrite <- parseValue_skipWs.
    rewrite (Hv fuel _ ltac:(lia)). cbn [mbind option_bind].
    rewrite skipWs_newline_spaces by assumption. reflexivity.
  - rewrite join_cons_cons, !append_assoc, Hhead.
    change (Ascii.eqb Json.quote Json.quote) with true. cbv iota.
    rewrite parseStringBody_quoteBody. cbn [mbind option_bind String.append Json.skipWs].
    change (Json.isJsonWs ":") with false. cbv iota.
    change (Ascii.eqb ":" ":") with true. cbv iota.
    rewrite parseValue_skipWs. cbn [Json.skipWs]. change (Json.isJsonWs " ") with true.
    cbv iota. rewrite <- parseValue_skipWs.
    rewrite (Hv fuel _ ltac:(lia)). cbn [mbind option_bind].
    cbn [String.append Json.skipWs]. change (Json.isJsonWs ",") with false. cbv iota.
    change (Ascii.eqb "," ",") with true. cbv iota.
    change (String JS.newline (inner +:+ ?x)) with (JS.nl +:+ inner +:+ x).
    rewrite IH; [reflexivity | discriminate | ].
    destruct m'. cbn in *. unfold list_sum in *. lia.
Qed.

Lemma Forall2_of_Forall {A B : Type} (P : A -> Prop) (R Q : A -> B -> Prop)
    (l : list A) (k : list B) :
  Forall P l -> Forall2 R l k -> (forall x y, P x -> R x y -> Q x y) -> Forall2 Q l k.
Proof.
  intros HP HR Himp. induction HR as [|x y l k Hxy HR IH]; constructor.
  - apply Himp; [now inversion HP | exact Hxy].
  - apply IH. now inversion HP.
Qed.

Lemma render_Arr (indent : string) (v : Json.value) (vs : list Json.value) :
  Json.render indent (Json.Arr (v :: vs))
  = partial ← mapM (Json.render (indent +:+ Json.gap)) (v :: vs);
    Some ("[" +:+ JS.nl +:+ (indent +:+ Json.gap)
          +:+ JS.join ("," +:+ JS.nl +:+ (indent +:+ Json.gap)) partial
          +:+ JS.nl +:+ indent +:+ "]").
Proof. reflexivity. Qed.

Lemma render_Obj (indent : string) (m : list N * Json.value)
    (ms : list (list N * Json.value)) :
  Json.render indent (Json.Obj (m :: ms))
  = partial ← mapM (fun m => name ← Json.latin1 (fst m);
                             strP ← Json.render (indent +:+ Json.gap) (snd m);
                             Some (Json.stringifyString name +:+ ": " +:+ strP)) (m :: ms);
    Some ("{" +:+ JS.nl +:+ (indent +:+ Json.gap)
          +:+ JS.join ("," +:+ JS.nl +:+ (indent +:+ Json.gap)) partial
          +:+ JS.nl +:+ indent +:+ "}").
Proof.
  assert (Hf : forall l : list (list N * Json.value),
             mapM (fun '(k, x) => name ← Json.latin1 k;
                                  strP ← Json.render (indent +:+ Json.gap) x;
                                  Some (Json.stringifyString name +:+ ": " +:+ strP)) l
             = mapM (fun m => name ← Json.latin1 (fst m);
                              strP ← Json.render (indent +:+ Json.gap) (snd m);
                              Some (Json.stringifyString name +:+ ": " +:+ strP)) l).
  { induction l as [|[k x] l IH]; [reflexivity|]. rewrite !mapM_cons, IH. reflexivity. }
  rewrite <- Hf. reflexivity.
Qed.

(** What [render] gives starts a value and reads back as the value
    rendered. *)
Lemma render_readsBack (v : Json.value) :
  forall indent text,
    everyChar (fun c => Ascii.eqb c " ") indent = true ->
    Json.render indent v = Some text ->
    startsValue text = true /\ readsBack text v (size v).
Proof.
  induction v as [| b | neg m e | us | vs IH | ms IH] using value_induction;
    intros indent text Hindent H.
  - injection H as <-. split; [reflexivity|].
    intros [|fuel] rest Hfuel; [cbn in Hfuel; lia | reflexivity].
  - injection H as <-. split; [now destruct b|].
    intros [|fuel] rest Hfuel; [cbn in Hfuel; lia | now destruct b].
  - discriminate H.
  - cbn [Json.render] in H. destruct (Json.latin1 us) as [s|] eqn:Hs; [|discriminate H].
    injection H as <-. split; [reflexivity|].
    intros [|fuel] rest Hfuel; [cbn in Hfuel; lia|].
    rewrite <- (latin1_codeUnits _ _ Hs). apply stringifyString_renders.
  - destruct vs as [|v vs].
    { injection H as <-. split; [reflexivity|].
      intros [|fuel] rest Hfuel; [cbn in Hfuel; lia | reflexivity]. }
    rewrite render_Arr in H.
    pose proof (spaces_gap _ Hindent) as Hinner.
    remember (indent +:+ Json.gap) as inner eqn:Einner. clear Einner.
    destruct (mapM (Json.render inner) (v :: vs)) as [parts|] eqn:Hparts;
      [|discriminate H].
    injection H as <-. split; [reflexivity|].
    apply mapM_Some in Hparts.
    assert (Hall : Forall2 (fun v part => startsValue part = true
                                          /\ readsBack part v (size v)) (v :: vs) parts).
    { apply (Forall2_of_Forall _ _ _ _ _ IH Hparts). intros x y Hx Hy. now apply (Hx _ _ Hinner). }
    intros [|fuel] rest Hfuel; [cbn in Hfuel; lia|].
    repeat first [rewrite !append_assoc | progress cbn [String.append]].
    change (Json.parseValue (S fuel)
              (String "[" (JS.nl +:+ inner
                           +:+ JS.join ("," +:+ JS.nl +:+ inner) parts
                           +:+ JS.nl +:+ indent +:+ String "]" rest))
            = Some (Json.Arr (v :: vs), rest)).
    rewrite parseValue_unfold.
    cbn [Json.skipWs]. change (Json.isJsonWs "[") with false. cbv iota.
    change (Ascii.eqb "[" Json.quote) with false.
    change (Ascii.eqb "[" "{") with false.
    change (Ascii.eqb "[" "[") with true. cbv iota.
    rewrite skipWs_newline_spaces by assumption.
    inversion Hall as [|v0 part vs0 parts0 [Hstart _] Hrest]; subst.
    assert (Hskip : exists c t,
               Json.skipWs (JS.join ("," +:+ JS.nl +:+ inner) (part :: parts0)
                            +:+ JS.nl +:+ indent +:+ String "]" rest) = String c t
               /\ Ascii.eqb c "]" = false /\ Ascii.eqb c "}" = false).
    { destruct parts0 as [|part' parts0].
      - cbn [JS.join]. now apply skipWs_startsValue.
      - rewrite join_cons_cons, !append_assoc. now apply skipWs_startsValue. }
    destruct Hskip as (c & t & -> & Hc & _). rewrite Hc.
    rewrite (parseElements_indented inner indent rest (v :: vs) (part :: parts0)
               Hinner Hindent).
    + reflexivity.
    + eapply Forall2_impl; [exact Hall|]. now intros x y [_ Hxy].
    + discriminate.
    + cbn [size] in Hfuel. lia.
  - destruct ms as [|m ms].
    { injection H as <-. split; [reflexivity|].
      intros [|fuel] rest Hfuel; [cbn in Hfuel; lia | reflexivity]. }
    rewrite render_Obj in H.
    pose proof (spaces_gap _ Hindent) as Hinner.
    remember (indent +:+ Json.gap) as inner eqn:Einner. clear Einner.
    match type of H with
    | mbind _ (mapM ?f _) = _ => destruct (mapM f (m :: ms)) as [parts|] eqn:Hparts
    end; [|discriminate H].
    injection H as <-. split; [reflexivity|].
    apply mapM_Some in Hparts.
    assert (Hall : Forall2 (fun m part =>
                              exists name strP,
                                Json.latin1 (fst m) = Some name
                                /\ part = Json.stringifyString name +:+ ": " +:+ strP
                                /\ readsBack strP (snd m) (size (snd m))) (m :: ms) parts).
    { apply (Forall2_of_Forall _ _ _ _ _ IH Hparts). intros [k x] y Hx Hy. cbn [fst snd] in *.
      destruct (Json.latin1 k) as [name|]; [|discriminate Hy]. cbn [mbind option_bind] in Hy.
      destruct (Json.render inner x) as [strP|] eqn:Hr; [|discriminate Hy].
      injection Hy as <-. exists name, strP. repeat split. now apply (Hx _ _ Hinner). }
    intros [|fuel] rest Hfuel; [cbn in Hfuel; lia|].
    repeat first [rewrite !append_assoc | progress cbn [String.append]].
    change (Json.parseValue (S fuel)
              (String "{" (JS.nl +:+ inner
                           +:+ JS.join ("," +:+ JS.nl +:+ inner) parts
                           +:+ JS.nl +:+ indent +:+ String "}" rest))
            = Some (Json.Obj (m :: ms), rest)).
    rewrite parseValue_unfold.
    cbn [Json.skipWs]. change (Json.isJsonWs "{") with false. cbv iota.
    change (Ascii.eqb "{" Json.quote) with false.
    change (Ascii.eqb "{" "{") with true. cbv iota.
    rewrite skipWs_newline_spaces by assumption.
    inversion Hall as [|m0 part ms0 parts0 (name & strP & _ & Hpart & _) Hrest]; subst.
    assert (Hskip : exists t,
               Json.skipWs (JS.join ("," +:+ JS.nl +:+ inner)
                              ((Json.stringifyString name +:+ ": " +:+ strP) :: parts0)
                            +:+ JS.nl +:+ indent +:+ String "}" rest) = String Json.quote t).
    { destruct parts0 as [|part' parts0].
      - cbn [JS.join]. rewrite !append_assoc, stringifyString_append. eexists. reflexivity.
      - rewrite join_cons_cons, !append_assoc, stringifyString_append. eexists. reflexivity. }
    destruct Hskip as (t & ->). change (Ascii.eqb Json.quote "}") with false. cbv iota.
    rewrite (parseMembers_indented inner indent rest (m :: ms) _
               Hinner Hindent Hall).
    + reflexivity.
    + discriminate.
    + cbn [size] in Hfuel. lia.
Qed.

(** [JSON.parse(JSON.stringify(v, null, 2))] gives the object of [v]. *)
Lemma parse_stringifyPretty (v : Json.value) (text : string) :
  Json.stringifyPretty v = Some text -> Json.parse text = Some (Json.objectOf v).
Proof.
  unfold Json.stringifyPretty. intros H.
  destruct (render_readsBack _ EmptyString text eq_refl H) as [_ Hread].
  specialize (Hread _ EmptyString (le_n _)). rewrite append_empty_r in Hread.
  unfold Json.parse. rewrite (parseValue_fuel_enough _ _ _ _ Hread). reflexivity.
Qed.


(* ===================================================================== *)
(** * Property reads on objects                                           *)
(* ===================================================================== *)

Lemma lookupMember_In (key : list N) (ms : list (list N * Json.value)) (v : Json.value) :
  Json.lookupMember key ms = Some v -> In (key, v) ms.
Proof.
  induction ms as [|[k x] ms IH]; [discriminate|]. cbn [Json.lookupMember].
  destruct (Json.lookupMember key ms) as [v'|].
  - intros [= <-]. right. now apply IH.
  - destruct (bool_decide_reflect (k = key)) as [->|]; [|discriminate].
    intros [= <-]. now left.
Qed.

Lemma lookupMember_None (key : list N) (ms : list (list N * Json.value)) :
  Json.lookupMember key ms = None <-> ~ In key (List.map fst ms).
Proof.
  induction ms as [|[k x] ms IH]; [cbn; tauto|]. cbn [Json.lookupMember List.map fst In].
  destruct (Json.lookupMember key ms) as [v'|] eqn:E.
  - split; [discriminate|]. intros H. exfalso. apply H. right.
    apply lookupMember_In in E. now apply (in_map fst) in E.
  - destruct (bool_decide_reflect (k = key)) as [->|Hne].
    + split; [discriminate|]. intros H. exfalso. apply H. now left.
    + split; [|reflexivity]. intros _ [H|H]; [contradiction|]. now apply IH in H.
Qed.

Lemma lookupMember_unique (key : list N) (ms : list (list N * Json.value)) (v : Json.value) :
  NoDup (List.map fst ms) -> In (key, v) ms -> Json.lookupMember key ms = Some v.
Proof.
  induction ms as [|[k x] ms IH]; [contradiction|]. cbn [List.map fst].
  intros Hnd Hin. apply NoDup_cons in Hnd as [Hk Hnd]. cbn [Json.lookupMember].
  destruct Hin as [[= -> ->]|Hin].
  - assert (Hnone : Json.lookupMember key ms = None).
    { apply lookupMember_None. now rewrite <- list_elem_of_In. }
    rewrite Hnone. now rewrite bool_decide_eq_true_2.
  - now rewrite (IH Hnd Hin).
Qed.

(** Objects with the same properties, each name once, give the same
    reads. *)
Lemma lookupMember_Permutation (key : list N) (ms ms' : list (list N * Json.value)) :
  NoDup (List.map fst ms) -> ms ≡ₚ ms' ->
  Json.lookupMember key ms = Json.lookupMember key ms'.
Proof.
  intros Hnd Hperm.
  assert (Hnd' : NoDup (List.map fst ms')).
  { assert (Hkeys : List.map fst ms ≡ₚ List.map fst ms') by now apply Permutation_map.
    now rewrite <- Hkeys. }
  destruct (Json.lookupMember key ms) as [v|] eqn:E.
  - symmetry. apply lookupMember_unique; [exact Hnd'|].
    eapply Permutation_in; [exact Hperm|]. now apply lookupMember_In.
  - destruct (Json.lookupMember key ms') as [v'|] eqn:E'; [|reflexivity].
    apply lookupMember_In in E'. apply lookupMember_None in E. exfalso. apply E.
    apply (in_map fst) in E'. eapply Permutation_in; [|exact E'].
    apply Permutation_map. now symmetry.
Qed.

Lemma lookupMember_app (key : list N) (ms ms' : list (list N * Json.value)) :
  Json.lookupMember key (ms ++ ms')
  = match Json.lookupMember key ms' with
    | Some v => Some v
    | None => Json.lookupMember key ms
    end.
Proof.
  induction ms as [|[k x] ms IH]; cbn [app Json.lookupMember].
  - now destruct (Json.lookupMember key ms').
  - rewrite IH. now destruct (Json.lookupMember key ms').
Qed.

Lemma lookupMember_map (f : Json.value -> Json.value) (key : list N)
    (ms : list (list N * Json.value)) :
  Json.lookupMember key (List.map (fun '(k, x) => (k, f x)) ms)
  = option_map f (Json.lookupMember key ms).
Proof.
  induction ms as [|[k x] ms IH]; [reflexivity|]. cbn [List.map Json.lookupMember].
  rewrite IH. destruct (Json.lookupMember key ms); [reflexivity|].
  now destruct (bool_decide (k = key)).
Qed.

(** ** Defining properties *)

Lemma define_keys (key : list N) (v : Json.value) (props : list (list N * Json.value)) :
  List.map fst (Json.define key v props)
  = if bool_decide (key ∈ List.map fst props) then List.map fst props
    else List.map fst props ++ [key].
Proof.
  induction props as [|[k x] props IH]; [reflexivity|]. cbn [Json.define List.map fst].
  destruct (bool_decide_reflect (k = key)) as [->|Hne].
  - cbn [List.map fst]. rewrite bool_decide_eq_true_2; [reflexivity | apply list_elem_of_here].
  - cbn [List.map fst]. rewrite IH.
    destruct (bool_decide_reflect (key ∈ List.map fst props)) as [Hin|Hnin].
    + rewrite bool_decide_eq_true_2; [reflexivity | now apply list_elem_of_further].
    + rewrite bool_decide_eq_false_2; [reflexivity|].
      intros H. apply elem_of_cons in H as [H|H]; [now subst | contradiction].
Qed.

Lemma define_NoDup (key : list N) (v : Json.value) (props : list (list N * Json.value)) :
  NoDup (List.map fst props) -> NoDup (List.map fst (Json.define key v props)).
Proof.
  intros Hnd. rewrite define_keys.
  destruct (bool_decide_reflect (key ∈ List.map fst props)) as [Hin|Hnin]; [exact Hnd|].
  apply NoDup_app. repeat split; [exact Hnd | | apply NoDup_singleton].
  intros k Hk Hk'. apply list_elem_of_singleton in Hk'. now subst k.
Qed.

Lemma define_lookup (key key' : list N) (v : Json.value)
    (props : list (list N * Json.value)) :
  NoDup (List.map fst props) ->
  Json.lookupMember key' (Json.define key v props)
  = if bool_decide (key = key') then Some v else Json.lookupMember key' props.
Proof.
  induction props as [|[k x] props IH]; intros Hnd.
  - cbn [Json.define Json.lookupMember]. reflexivity.
  - cbn [List.map fst] in Hnd. apply NoDup_cons in Hnd as [Hk Hnd].
    cbn [Json.define]. destruct (bool_decide_reflect (k = key)) as [->|Hne].
    + cbn [Json.lookupMember].
      destruct (bool_decide_reflect (key = key')) as [->|Hne'].
      * assert (Hnone : Json.lookupMember key' props = None).
        { apply lookupMember_None. now rewrite <- list_elem_of_In. }
        now rewrite Hnone.
      * reflexivity.
    + cbn [Json.lookupMember]. rewrite (IH Hnd).
      destruct (bool_decide_reflect (key = key')) as [->|Hne']; [reflexivity|].
      reflexivity.
Qed.

Lemma define_members (P : list N * Json.value -> Prop) (key : list N) (v : Json.value)
    (props : list (list N * Json.value)) :
  P (key, v) -> Forall P props -> Forall P (Json.define key v props).
Proof.
  intros Hv Hprops. induction Hprops as [|[k x] props Hx Hprops IH]; cbn [Json.define].
  - now constructor.
  - destruct (bool_decide_reflect (k = key)) as [->|Hne]; constructor; auto.
Qed.

Lemma created_from (ms acc : list (list N * Json.value)) :
  NoDup (List.map fst acc) ->
  NoDup (List.map fst (fold_left (fun props m => Json.define (fst m) (snd m) props) ms acc))
  /\ (forall key,
         Json.lookupMember key
           (fold_left (fun props m => Json.define (fst m) (snd m) props) ms acc)
         = match Json.lookupMember key ms with
           | Some v => Some v
           | None => Json.lookupMember key acc
           end)
  /\ (forall P : list N * Json.value -> Prop,
         Forall P ms -> Forall P acc ->
         Forall P (fold_left (fun props m => Json.define (fst m) (snd m) props) ms acc)).
Proof.
  revert acc. induction ms as [|[k x] ms IH]; intros acc Hnd.
  - cbn [fold_left Json.lookupMember]. repeat split; auto.
  - cbn [fold_left fst snd].
    destruct (IH (Json.define k x acc) (define_NoDup k x acc Hnd)) as (Hnd' & Hlook & Hall).
    split; [exact Hnd'|]. split.
    + intros key. rewrite Hlook. cbn [Json.lookupMember].
      destruct (Json.lookupMember key ms); [reflexivity|].
      rewrite (define_lookup _ _ _ _ Hnd). now destruct (bool_decide (k = key)).
    + intros P HP Hacc. apply Forall_cons in HP as [Hx HP]. apply Hall; [exact HP|].
      now apply define_members.
Qed.

Lemma insertByIndex_Permutation (i : N) (m : list N * Json.value)
    (sorted : list (N * (list N * Json.value))) :
  List.map snd (Json.insertByIndex i m sorted) ≡ₚ m :: List.map snd sorted.
Proof.
  induction sorted as [|[j m'] sorted IH]; [reflexivity|]. cbn [Json.insertByIndex].
  destruct (i <? j)%N; [reflexivity|]. cbn [List.map snd]. rewrite IH. apply perm_swap.
Qed.

Lemma ownProperties_Permutation (ms : list (list N * Json.value)) :
  Json.ownProperties ms ≡ₚ Json.created ms.
Proof.
  unfold Json.ownProperties. cbv zeta. generalize (Json.created ms) as props.
  induction props as [|m props IH]; [reflexivity|].
  cbn [Json.byIndex fold_right List.filter].
  change (fold_right _ [] props) with (Json.byIndex props).
  destruct (Json.arrayIndex (fst m)) as [i|] eqn:Hi.
  - rewrite bool_decide_eq_true_2 by eauto. cbn [negb].
    rewrite insertByIndex_Permutation. cbn [app]. now rewrite IH.
  - rewrite bool_decide_eq_false_2 by (intros [? ?]; discriminate). cbn [negb].
    rewrite <- Permutation_middle. now rewrite IH.
Qed.

(** A read of an object's own property finds the last definition of the
    name. *)
Lemma lookupMember_ownProperties (key : list N) (ms : list (list N * Json.value)) :
  Json.lookupMember key (Json.ownProperties ms) = Json.lookupMember key ms.
Proof.
  destruct (created_from ms [] (NoDup_nil_2 (A := list N))) as (Hnd & Hlook & _).
  rewrite <- (lookupMember_Permutation key (Json.created ms)).
  - unfold Json.created. rewrite Hlook. now destruct (Json.lookupMember key ms).
  - exact Hnd.
  - symmetry. apply ownProperties_Permutation.
Qed.

Lemma ownProperties_members (P : list N * Json.value -> Prop)
    (ms : list (list N * Json.value)) :
  Forall P ms -> Forall P (Json.ownProperties ms).
Proof.
  intros HP. destruct (created_from ms [] (NoDup_nil_2 (A := list N))) as (_ & _ & Hall).
  rewrite ownProperties_Permutation. apply Hall; [exact HP | constructor].
Qed.

(** ** Reads of a document and of its object *)

Lemma getProp_objectOf (v : Json.value) (key : string) :
  Json.getProp (Json.objectOf v) key
  = option_map (option_map Json.objectOf) (Json.getProp v key).
Proof.
  destruct v as [| b | neg m e | us | vs | ms]; try reflexivity.
  cbn [Json.objectOf Json.getProp option_map].
  now rewrite lookupMember_ownProperties, lookupMember_map.
Qed.

Lemma getIndex_objectOf (v : Json.value) (key : string) :
  Json.getIndex (Json.objectOf v) key
  = x ← Json.getIndex v key; JS.Returns (option_map Json.objectOf x).
Proof.
  destruct v as [| b | neg m e | us | vs | ms]; try reflexivity.
  cbn [Json.objectOf Json.getIndex].
  rewrite lookupMember_ownProperties, lookupMember_map.
  destruct (Json.lookupMember (Json.codeUnits key) ms); [reflexivity|].
  cbn [option_map]. now destruct (Json.inherited key).
Qed.

Lemma toBoolean_objectOf (x : option Json.value) :
  Json.toBoolean (option_map Json.objectOf x) = Json.toBoolean x.
Proof. now destruct x as [[]|]. Qed.

Lemma strictEqualsString_objectOf (x : option Json.value) (s : string) :
  Json.strictEqualsString (option_map Json.objectOf x) s = Json.strictEqualsString x s.
Proof. now destruct x as [[]|]. Qed.

Lemma readField_objectOf (v : Json.value) (key : string) :
  Cache.readField (Json.objectOf v) key
  = x ← Cache.readField v key; JS.Returns (option_map Json.objectOf x).
Proof.
  unfold Cache.readField. rewrite getProp_objectOf.
  now destruct (Json.getProp v key).
Qed.

Lemma orNull_objectOf (x : option Json.value) :
  Cache.orNull (option_map Json.objectOf x) = Json.objectOf (Cache.orNull x).
Proof.
  destruct x as [v|]; [|reflexivity]. unfold Cache.orNull. cbn [option_map].
  change (Some (Json.objectOf v)) with (option_map Json.objectOf (Some v)).
  rewrite toBoolean_objectOf. now destruct (Json.toBoolean (Some v)).
Qed.

Lemma optionally_objectOf (x : option Json.value)
    (read : Json.value -> JS.Outcome (option Json.value)) :
  (forall v, read (Json.objectOf v) = y ← read v; JS.Returns (option_map Json.objectOf y)) ->
  Cache.optionally (option_map Json.objectOf x) read
  = y ← Cache.optionally x read; JS.Returns (option_map Json.objectOf y).
Proof.
  intros Hread. destruct x as [v|]; [|reflexivity]. cbn [option_map].
  destruct v; try reflexivity; unfold Cache.optionally; apply Hread.
Qed.

(* ===================================================================== *)
(** * The ID cache                                                        *)
(* ===================================================================== *)

Lemma ensureCacheDir_writeIdCache (text : string) (fs : Cache.Files) :
  Cache.ensureCacheDir (Cache.writeIdCache text (Cache.ensureCacheDir fs))
  = Cache.writeIdCache text (Cache.ensureCacheDir fs).
Proof.
  unfold Cache.ensureCacheDir at 1. unfold Cache.writeIdCache at 1.
  cbn [Cache.cacheDirExists]. now rewrite cacheDirExists_ensureCacheDir.
Qed.

Lemma idCacheFile_ensureCacheDir (fs : Cache.Files) :
  Cache.idCacheFile (Cache.ensureCacheDir fs) = Cache.idCacheFile fs.
Proof. unfold Cache.ensureCacheDir. now destruct (Cache.cacheDirExists fs). Qed.

(** A getter returns what its body gives on the document loaded. *)
Lemma reading_document (body : Json.value -> JS.Outcome (option Json.value))
    (fs : Cache.Files) :
  Cache.reading body fs = (body (fst (Cache.loadIdCache fs)), Cache.ensureCacheDir fs).
Proof.
  unfold Cache.reading, Cache.loadIdCache. cbv zeta.
  now destruct (Cache.idCacheFile (Cache.ensureCacheDir fs)).
Qed.

(** A setter that returns has written the text of the document its body
    gave; the text reads back as the object of that document. *)
Lemma updating_returns (body : Json.value -> JS.Outcome Json.value)
    (fs fs' : Cache.Files) :
  Cache.updating body fs = (JS.Returns tt, fs') ->
  exists cache' text,
    body (fst (Cache.loadIdCache fs)) = JS.Returns cache'
    /\ Json.stringifyPretty cache' = Some text
    /\ fs' = Cache.writeIdCache text (Cache.ensureCacheDir fs)
    /\ fst (Cache.loadIdCache fs') = Json.objectOf cache'.
Proof.
  unfold Cache.updating, Cache.loadIdCache. cbv zeta.
  set (cache := match Cache.idCacheFile (Cache.ensureCacheDir fs) with
                | Some text => Cache.parseOrEmpty text
                | None => Cache.emptyDocument
                end).
  assert (Hload : (match Cache.idCacheFile (Cache.ensureCacheDir fs) with
                   | Some text => (Cache.parseOrEmpty text, Cache.ensureCacheDir fs)
                   | None => (Cache.emptyDocument, Cache.ensureCacheDir fs)
                   end) = (cache, Cache.ensureCacheDir fs)).
  { subst cache. now destruct (Cache.idCacheFile (Cache.ensureCacheDir fs)). }
  rewrite Hload. cbn [fst].
  destruct (body cache) as [cache'| |]; [|discriminate|discriminate].
  unfold Cache.saveIdCache. cbv zeta. rewrite ensureCacheDir_idempotent.
  destruct (Json.stringifyPretty cache') as [text|] eqn:Htext; [|discriminate].
  intros [= <-]. exists cache', text. split; [reflexivity|]. split; [exact Htext|].
  split; [reflexivity|].
  rewrite idCacheFile_ensureCacheDir. cbn [Cache.writeIdCache Cache.idCacheFile].
  unfold Cache.parseOrEmpty. now rewrite (parse_stringifyPretty _ _ Htext).
Qed.

Lemma codeUnits_eq (s t : string) :
  bool_decide (Json.codeUnits s = Json.codeUnits t) = String.eqb s t.
Proof.
  destruct (String.eqb_spec s t) as [->|Hne].
  - now apply bool_decide_eq_true_2.
  - apply bool_decide_eq_false_2. intros H. now apply codeUnits_inj in H.
Qed.

Lemma lookupMember_snoc (key k : string) (v : Json.value)
    (ms : list (list N * Json.value)) :
  Json.lookupMember (Json.codeUnits key) (ms ++ [(Json.codeUnits k, v)])
  = if String.eqb k key then Some v else Json.lookupMember (Json.codeUnits key) ms.
Proof.
  rewrite lookupMember_app. cbn [Json.lookupMember]. rewrite codeUnits_eq.
  now destruct (String.eqb k key).
Qed.

(** [target[key] = v] on an object, for a [key] other than [__proto__]. *)
Lemma setIndex_object (ms : list (list N * Json.value)) (key : string) (v : Json.value) :
  String.eqb key "__proto__" = false ->
  Json.setIndex (Json.Obj ms) key v = JS.Returns (Json.Obj (ms ++ [(Json.codeUnits key, v)])).
Proof.
  intros Hkey. unfold Json.setIndex. rewrite Hkey.
  now destruct (Json.lookupMember (Json.codeUnits key) ms).
Qed.

(** [if (!cache.key) cache.key = {}; cache.key[name] = v]: what it makes
    of the document. *)
Lemma nested_set (key name : string) (v : Json.value) (cache cache' : Json.value) :
  String.eqb key "__proto__" = false ->
  String.eqb name "__proto__" = false ->
  ('(cache, held) ← Cache.ensureObject cache key; Cache.setWithin cache key held name v)
  = JS.Returns cache' ->
  exists ms held,
    cache = Json.Obj ms
    /\ Json.getProp cache' key = Some (Some (Json.Obj (held ++ [(Json.codeUnits name, v)])))
    /\ (forall other, String.eqb key other = false ->
                      Json.getProp cache' other = Json.getProp cache other)
    /\ match Json.lookupMember (Json.codeUnits key) ms with
       | Some x => if Json.toBoolean (Some x) then x = Json.Obj held else held = []
       | None => held = []
       end.
Proof.
  intros Hkey Hname.
  destruct cache as [| b | neg m e | us | vs | ms]; try discriminate.
  unfold Cache.ensureObject, Cache.readField, Cache.setWithin.
  cbn [Json.getProp mbind JS.outcome_bind JS.andThen].
  destruct (Json.lookupMember (Json.codeUnits key) ms) as [x|] eqn:Hx;
    [destruct (Json.toBoolean (Some x)) eqn:Htruthy|];
    cbn [mbind JS.outcome_bind JS.andThen].
  - destruct x as [| b | neg m e | us | vs | held]; try discriminate.
    rewrite setIndex_object by assumption. cbn [mbind JS.outcome_bind JS.andThen].
    rewrite setIndex_object by assumption. intros [= <-]. exists ms, held.
    split; [reflexivity|]. cbn [Json.getProp].
    rewrite lookupMember_snoc, String.eqb_refl, Hx.
    split; [reflexivity|].
    split; [intros other Hother; now rewrite lookupMember_snoc, Hother | reflexivity].
  - rewrite setIndex_object by assumption. cbn [mbind JS.outcome_bind JS.andThen].
    rewrite setIndex_object by assumption. cbn [mbind JS.outcome_bind JS.andThen].
    rewrite setIndex_object by assumption. intros [= <-]. exists ms, [].
    split; [reflexivity|]. cbn [Json.getProp].
    rewrite lookupMember_snoc, String.eqb_refl, Hx, Htruthy.
    split; [reflexivity|].
    split; [intros other Hother; now rewrite !lookupMember_snoc, Hother | reflexivity].
  - rewrite setIndex_object by assumption. cbn [mbind JS.outcome_bind JS.andThen].
    rewrite setIndex_object by assumption. cbn [mbind JS.outcome_bind JS.andThen].
    rewrite setIndex_object by assumption. intros [= <-]. exists ms, [].
    split; [reflexivity|]. cbn [Json.getProp].
    rewrite lookupMember_snoc, String.eqb_refl, Hx.
    split; [reflexivity|].
    split; [intros other Hother; now rewrite !lookupMember_snoc, Hother | reflexivity].
Qed.

Ltac run_outcome := cbn [mbind JS.outcome_bind JS.andThen].
Tactic Notation "run_outcome" "in" hyp(H) := cbn [mbind JS.outcome_bind JS.andThen] in H.

Lemma orNull_ofString (s : string) :
  Cache.orNull (Some (Cache.ofString s))
  = if String.eqb s "" then Json.Null else Cache.ofString s.
Proof. now destruct s. Qed.

(** [cache.peers?.[peerName] || null] on the object of a document. *)
Lemma peer_of_object (cache : Json.value) (peerName : string) :
  (peers ← Cache.readField (Json.objectOf cache) "peers";
   found ← Cache.optionally peers (fun p => Json.getIndex p peerName);
   JS.Returns (Some (Cache.orNull found)))
  = r ← (peers ← Cache.readField cache "peers";
         found ← Cache.optionally peers (fun p => Json.getIndex p peerName);
         JS.Returns (Some (Cache.orNull found)));
    JS.Returns (option_map Json.objectOf r).
Proof.
  rewrite readField_objectOf.
  destruct (Cache.readField cache "peers") as [peers| |]; [|reflexivity|reflexivity].
  run_outcome. rewrite optionally_objectOf by (intros; apply getIndex_objectOf).
  destruct (Cache.optionally peers _) as [found| |]; [|reflexivity|reflexivity].
  run_outcome. now rewrite orNull_objectOf.
Qed.

(** X21. A peer id that was set is the one read ([null] for an empty id); the
    ids of the other peers read as before (as objects, where a damaged
    file held objects). *)
Theorem peer_id_set_then_get
    (peerName peerId : string) (fs fs' : Cache.Files) :
  Cache.setCachedPeerId peerName peerId fs = (JS.Returns tt, fs') ->
  peerName <> "__proto__" ->
  fst (Cache.getCachedPeerId peerName fs')
  = JS.Returns (Some (if String.eqb peerId "" then Json.Null else Cache.ofString peerId))
  /\ forall other found,
       other <> peerName ->
       Json.inherited other = false ->
       fst (Cache.getCachedPeerId other fs) = JS.Returns (Some found) ->
       fst (Cache.getCachedPeerId other fs') = JS.Returns (Some (Json.objectOf found)).
Proof.
  unfold Cache.setCachedPeerId, Cache.getCachedPeerId. intros Hset Hname.
  apply updating_returns in Hset as (cache' & text & Hbody & _ & _ & Hdoc).
  apply nested_set in Hbody as (ms & held & Hcache & Hpeers & _ & Hheld);
    [|reflexivity | now apply String.eqb_neq].
  assert (Hread : forall name,
             (peers ← Cache.readField cache' "peers";
              found ← Cache.optionally peers (fun p => Json.getIndex p name);
              JS.Returns (Some (Cache.orNull found)))
             = found ← Json.getIndex (Json.Obj (held ++ [(Json.codeUnits peerName,
                                                          Cache.ofString peerId)])) name;
               JS.Returns (Some (Cache.orNull found))).
  { intros name. unfold Cache.readField. now rewrite Hpeers. }
  split.
  - rewrite reading_document. cbn [fst]. rewrite Hdoc, peer_of_object, Hread.
    cbn [Json.getIndex]. rewrite lookupMember_snoc, String.eqb_refl. run_outcome.
    cbn [option_map]. now rewrite orNull_ofString; destruct peerId.
  - intros other found Hother Hinherited. rewrite !reading_document. cbn [fst].
    rewrite Hdoc, peer_of_object, Hread, Hcache.
    cbn [Json.getIndex]. rewrite lookupMember_snoc.
    rewrite (proj2 (String.eqb_neq _ _)) by congruence.
    unfold Cache.readField. cbn [Json.getProp]. rewrite Hinherited.
    destruct (Json.lookupMember (Json.codeUnits "peers") ms) as [x|].
    + destruct (Json.toBoolean (Some x)) eqn:Htruthy.
      * subst x. run_outcome. cbn [Cache.optionally Json.getIndex]. rewrite Hinherited.
        destruct (Json.lookupMember (Json.codeUnits other) held);
          run_outcome; intros [= <-]; reflexivity.
      * subst held. cbn [Json.lookupMember]. run_outcome.
        destruct x as [| [] | neg m e | us | vs | ms']; try discriminate;
          run_outcome; cbn [Cache.optionally Json.getIndex]; run_outcome;
          try discriminate; intros [= <-]; reflexivity.
    + subst held. run_outcome. cbn [Cache.optionally Json.lookupMember]. run_outcome.
      intros [= <-]. reflexivity.
Qed.

Lemma peer_id_set_then_get_witness :
  Cache.setCachedPeerId "clawd" "p9" Examples.cachedIds
  = (JS.Returns tt, snd (Cache.setCachedPeerId "clawd" "p9" Examples.cachedIds))
  /\ fst (Cache.getCachedPeerId "clawd"
            (snd (Cache.setCachedPeerId "clawd" "p9" Examples.cachedIds)))
     = JS.Returns (Some (Cache.ofString "p9")).
Proof.
  split; [vm_compute; reflexivity|].
  apply (peer_id_set_then_get "clawd" "p9" Examples.cachedIds _);
    [vm_compute; reflexivity | discriminate].
Defined.

(** [cache.sessions?.[cwd]?.id || null] on the object of a document. *)
Lemma session_of_object (cache : Json.value) (cwd : string) :
  (sessions ← Cache.readField (Json.objectOf cache) "sessions";
   session ← Cache.optionally sessions (fun s => Json.getIndex s cwd);
   id ← Cache.optionally session (fun s => Cache.readField s "id");
   JS.Returns (Some (Cache.orNull id)))
  = r ← (sessions ← Cache.readField cache "sessions";
         session ← Cache.optionally sessions (fun s => Json.getIndex s cwd);
         id ← Cache.optionally session (fun s => Cache.readField s "id");
         JS.Returns (Some (Cache.orNull id)));
    JS.Returns (option_map Json.objectOf r).
Proof.
  rewrite readField_objectOf.
  destruct (Cache.readField cache "sessions") as [sessions| |]; [|reflexivity|reflexivity].
  run_outcome. rewrite optionally_objectOf by (intros; apply getIndex_objectOf).
  destruct (Cache.optionally sessions _) as [session| |]; [|reflexivity|reflexivity].
  run_outcome. rewrite optionally_objectOf by (intros; apply readField_objectOf).
  destruct (Cache.optionally session _) as [id| |]; [|reflexivity|reflexivity].
  run_outcome. now rewrite orNull_objectOf.
Qed.

(** X22. A session id that was set for a directory is the one read for it
    ([null] for an empty id); the ids of the other directories read as
    before (as objects, where a damaged file held objects). *)
Theorem session_id_set_then_get
    (now cwd name id : string) (fs fs' : Cache.Files) :
  Cache.setCachedSessionId now cwd name id fs = (JS.Returns tt, fs') ->
  cwd <> "__proto__" ->
  fst (Cache.getCachedSessionId cwd fs')
  = JS.Returns (Some (if String.eqb id "" then Json.Null else Cache.ofString id))
  /\ forall other found,
       other <> cwd ->
       Json.inherited other = false ->
       fst (Cache.getCachedSessionId other fs) = JS.Returns (Some found) ->
       fst (Cache.getCachedSessionId other fs') = JS.Returns (Some (Json.objectOf found)).
Proof.
  unfold Cache.setCachedSessionId, Cache.getCachedSessionId. intros Hset Hname.
  apply updating_returns in Hset as (cache' & text & Hbody & _ & _ & Hdoc).
  apply nested_set in Hbody as (ms & held & Hcache & Hsessions & _ & Hheld);
    [|reflexivity | now apply String.eqb_neq].
  match type of Hsessions with
  | _ = Some (Some (Json.Obj (held ++ [(_, ?v)]))) => set (session := v) in *
  end.
  assert (Hread : forall dir,
             (sessions ← Cache.readField cache' "sessions";
              session ← Cache.optionally sessions (fun s => Json.getIndex s dir);
              id ← Cache.optionally session (fun s => Cache.readField s "id");
              JS.Returns (Some (Cache.orNull id)))
             = found ← Json.getIndex (Json.Obj (held ++ [(Json.codeUnits cwd, session)])) dir;
               id ← Cache.optionally found (fun s => Cache.readField s "id");
               JS.Returns (Some (Cache.orNull id))).
  { intros dir.
    assert (Hs : Cache.readField cache' "sessions"
                 = JS.Returns (Some (Json.Obj (held ++ [(Json.codeUnits cwd, session)]))))
      by (unfold Cache.readField; now rewrite Hsessions).
    now rewrite Hs. }
  split.
  - rewrite reading_document. cbn [fst]. rewrite Hdoc, session_of_object, Hread.
    cbn [Json.getIndex]. rewrite lookupMember_snoc, String.eqb_refl. run_outcome.
    subst session. cbn [Cache.optionally]. unfold Cache.readField.
    change (Json.getProp (Json.Obj ?ms') "id") with (Some (Json.lookupMember (Json.codeUnits "id") ms')).
    assert (Hid : Json.lookupMember (Json.codeUnits "id")
                    [(Json.codeUnits "name", Cache.ofString name);
                     (Json.codeUnits "id", Cache.ofString id);
                     (Json.codeUnits "updatedAt", Cache.ofString now)]
                  = Some (Cache.ofString id)) by reflexivity.
    rewrite Hid. run_outcome. cbn [option_map]. now rewrite orNull_ofString; destruct id.
  - intros other found Hother Hinherited. rewrite !reading_document. cbn [fst].
    rewrite Hdoc, session_of_object, Hread, Hcache.
    cbn [Json.getIndex]. rewrite lookupMember_snoc.
    rewrite (proj2 (String.eqb_neq _ _)) by congruence.
    assert (Hs : Cache.readField (Json.Obj ms) "sessions"
                 = JS.Returns (Json.lookupMember (Json.codeUnits "sessions") ms))
      by reflexivity.
    rewrite Hs, Hinherited. clear Hs.
    destruct (Json.lookupMember (Json.codeUnits "sessions") ms) as [x|].
    + destruct (Json.toBoolean (Some x)) eqn:Htruthy.
      * subst x. run_outcome. cbn [Cache.optionally Json.getIndex]. rewrite Hinherited.
        destruct (Json.lookupMember (Json.codeUnits other) held);
          run_outcome; [|intros [= <-]; reflexivity].
        destruct (Cache.optionally (Some v) _); run_outcome; try discriminate.
        intros [= <-]. reflexivity.
      * subst held. cbn [Json.lookupMember]. run_outcome.
        destruct x as [| [] | neg m e | us | vs | ms']; try discriminate;
          run_outcome; cbn [Cache.optionally Json.getIndex]; run_outcome;
          try discriminate; intros [= <-]; reflexivity.
    + subst held. run_outcome. cbn [Cache.optionally Json.lookupMember]. run_outcome.
      intros [= <-]. reflexivity.
Qed.

Lemma session_id_set_then_get_witness :
  Cache.setCachedSessionId "2026-01-05T11:00:00.000Z" "/b" "b" "s2" Examples.cachedIds
  = (JS.Returns tt,
     snd (Cache.setCachedSessionId "2026-01-05T11:00:00.000Z" "/b" "b" "s2"
            Examples.cachedIds))
  /\ fst (Cache.getCachedSessionId "/b"
            (snd (Cache.setCachedSessionId "2026-01-05T11:00:00.000Z" "/b" "b" "s2"
                    Examples.cachedIds)))
     = JS.Returns (Some (Cache.ofString "s2")).
Proof.
  split; [vm_compute; reflexivity|].
  apply (session_id_set_then_get "2026-01-05T11:00:00.000Z" "/b" "b" "s2"
           Examples.cachedIds _);
    [vm_compute; reflexivity | discriminate].
Defined.

(** The body of [getCachedWorkspaceId] on the object of a document. *)
Lemma workspace_of_object (cache : Json.value) (workspaceName : string) :
  (workspace ← Cache.readField (Json.objectOf cache) "workspace";
   name ← Cache.optionally workspace (fun w => Cache.readField w "name");
   if Json.strictEqualsString name workspaceName then
     workspace ← Cache.readField (Json.objectOf cache) "workspace";
     match workspace with
     | Some w => Cache.readField w "id"
     | None => JS.Throws
     end
   else JS.Returns (Some Json.Null))
  = r ← (workspace ← Cache.readField cache "workspace";
         name ← Cache.optionally workspace (fun w => Cache.readField w "name");
         if Json.strictEqualsString name workspaceName then
           workspace ← Cache.readField cache "workspace";
           match workspace with
           | Some w => Cache.readField w "id"
           | None => JS.Throws
           end
         else JS.Returns (Some Json.Null));
    JS.Returns (option_map Json.objectOf r).
Proof.
  rewrite readField_objectOf.
  destruct (Cache.readField cache "workspace") as [workspace| |]; [|reflexivity|reflexivity].
  run_outcome. rewrite optionally_objectOf by (intros; apply readField_objectOf).
  destruct (Cache.optionally workspace _) as [name| |]; [|reflexivity|reflexivity].
  run_outcome. rewrite strictEqualsString_objectOf.
  destruct (Json.strictEqualsString name workspaceName); [|reflexivity].
  destruct workspace as [w|]; [|reflexivity]. cbn [option_map].
  apply readField_objectOf.
Qed.

(** X23. The workspace id that was set is read for the name it was set with,
    and [null] for every other name: one workspace is cached at a time. *)
Theorem workspace_id_set_then_get (name id : string) (fs fs' : Cache.Files) :
  Cache.setCachedWorkspaceId name id fs = (JS.Returns tt, fs') ->
  forall workspaceName,
    fst (Cache.getCachedWorkspaceId workspaceName fs')
    = JS.Returns (Some (if String.eqb workspaceName name then Cache.ofString id
                        else Json.Null)).
Proof.
  unfold Cache.setCachedWorkspaceId, Cache.getCachedWorkspaceId. intros Hset workspaceName.
  apply updating_returns in Hset as (cache' & text & Hbody & _ & _ & Hdoc).
  destruct (fst (Cache.loadIdCache fs)) as [| b | neg m e | us | vs | ms]; try discriminate.
  rewrite setIndex_object in Hbody by reflexivity. injection Hbody as <-.
  rewrite reading_document. cbn [fst]. rewrite Hdoc, workspace_of_object.
  unfold Cache.readField. cbn [Json.getProp]. rewrite lookupMember_snoc, String.eqb_refl.
  run_outcome. cbn [Cache.optionally]. unfold Cache.readField. cbn [Json.getProp].
  change (Json.lookupMember (Json.codeUnits "name") _) with (Some (Cache.ofString name)).
  run_outcome. unfold Json.strictEqualsString, Cache.ofString.
  rewrite codeUnits_eq, String.eqb_sym.
  destruct (String.eqb workspaceName name); [|reflexivity].
  change (Json.lookupMember (Json.codeUnits "id") _) with (Some (Json.Str (Json.codeUnits id))).
  reflexivity.
Qed.

Lemma workspace_id_set_then_get_witness :
  Cache.setCachedWorkspaceId "other" "w2" Examples.cachedIds
  = (JS.Returns tt, snd (Cache.setCachedWorkspaceId "other" "w2" Examples.cachedIds))
  /\ fst (Cache.getCachedWorkspaceId "honcho"
            (snd (Cache.setCachedWorkspaceId "other" "w2" Examples.cachedIds)))
     = JS.Returns (Some Json.Null).
Proof.
  split; [vm_compute; reflexivity|].
  apply (workspace_id_set_then_get "other" "w2" Examples.cachedIds _).
  vm_compute; reflexivity.
Defined.



(** ** The members of the document are kept apart *)

Lemma setIndex_other (target target' : Json.value) (key other : string) (v : Json.value) :
  Json.setIndex target key v = JS.Returns target' ->
  String.eqb key other = false ->
  Json.getProp target' other = Json.getProp target other.
Proof.
  intros Hset Hother. destruct target as [| b | neg m e | us | vs | ms]; try discriminate.
  unfold Json.setIndex in Hset.
  assert (Happ : Json.getProp (Json.Obj (ms ++ [(Json.codeUnits key, v)])) other
                 = Json.getProp (Json.Obj ms) other).
  { cbn [Json.getProp]. now rewrite lookupMember_snoc, Hother. }
  destruct (Json.lookupMember (Json.codeUnits key) ms).
  - now injection Hset as <-.
  - destruct (String.eqb key "__proto__"); [|now injection Hset as <-].
    destruct v; try discriminate; now injection Hset as <-.
Qed.

Lemma nested_set_other (key name other : string) (v : Json.value)
    (cache cache' : Json.value) :
  ('(cache, held) ← Cache.ensureObject cache key; Cache.setWithin cache key held name v)
  = JS.Returns cache' ->
  String.eqb key other = false ->
  Json.getProp cache' other = Json.getProp cache other.
Proof.
  intros Hset Hother. unfold Cache.ensureObject in Hset.
  destruct (Cache.readField cache key) as [x| |]; try discriminate. run_outcome in Hset.
  assert (Hfresh : forall target,
             (target' ← Json.setIndex cache key (Json.Obj []);
              JS.Returns (target', Json.Obj []))
             ≫= (fun '(cache, held) => Cache.setWithin cache key held name v)
             = JS.Returns target ->
             Json.getProp target other = Json.getProp cache other).
  { intros target H.
    destruct (Json.setIndex cache key (Json.Obj [])) as [target'| |] eqn:H1; try discriminate.
    run_outcome in H. unfold Cache.setWithin in H.
    destruct (Json.setIndex (Json.Obj []) name v) as [held'| |]; try discriminate.
    run_outcome in H.
    rewrite (setIndex_other _ _ _ _ _ H Hother). exact (setIndex_other _ _ _ _ _ H1 Hother). }
  destruct x as [x|]; [|now apply Hfresh].
  destruct (Json.toBoolean (Some x)); [|now apply Hfresh].
  run_outcome in Hset. unfold Cache.setWithin in Hset.
  destruct (Json.setIndex x name v) as [held'| |]; try discriminate. run_outcome in Hset.
  exact (setIndex_other _ _ _ _ _ Hset Hother).
Qed.

Lemma readField_same (cache cache' : Json.value) (key : string) :
  Json.getProp cache' key = Json.getProp cache key ->
  Cache.readField cache' key = Cache.readField cache key.
Proof. unfold Cache.readField. now intros ->. Qed.

(** What a setter's body makes of the members it does not work on. *)
Lemma performSet_other (call : IdCacheSet) (fs fs' : Cache.Files) :
  performSet call fs = (JS.Returns tt, fs') ->
  exists cache',
    fst (Cache.loadIdCache fs') = Json.objectOf cache'
    /\ forall other,
         String.eqb (memberSet call) other = false ->
         Json.getProp cache' other = Json.getProp (fst (Cache.loadIdCache fs)) other.
Proof.
  destruct call as [name id | peerName peerId | now cwd name id | instanceId];
    cbn [performSet memberSet];
    unfold Cache.setCachedWorkspaceId, Cache.setCachedPeerId, Cache.setCachedSessionId,
      Cache.setClaudeInstanceId;
    intros Hset; apply updating_returns in Hset as (cache' & text & Hbody & _ & _ & Hdoc);
    exists cache'; (split; [exact Hdoc|]); intros other Hother.
  - exact (setIndex_other _ _ _ _ _ Hbody Hother).
  - exact (nested_set_other _ _ _ _ _ _ Hbody Hother).
  - exact (nested_set_other _ _ _ _ _ _ Hbody Hother).
  - exact (setIndex_other _ _ _ _ _ Hbody Hother).
Qed.

(** X25. A setter of the ID cache leaves what the getters of the other
    members return as it was (as an object, where the file held an
    object). *)
Theorem setters_keep_the_other_members
    (call : IdCacheSet) (read : IdCacheGet) (fs fs' : Cache.Files)
    (found : option Json.value) :
  performSet call fs = (JS.Returns tt, fs') ->
  memberSet call <> memberGet read ->
  performGet read fs = JS.Returns found ->
  performGet read fs' = JS.Returns (option_map Json.objectOf found).
Proof.
  intros Hset Hmember. apply performSet_other in Hset as (cache' & Hdoc & Hothers).
  specialize (Hothers (memberGet read) (proj2 (String.eqb_neq _ _) Hmember)).
  clear Hmember. revert Hothers.
  destruct read as [workspaceName | peerName | cwd |]; cbn [performGet memberGet];
    unfold Cache.getCachedWorkspaceId, Cache.getCachedPeerId, Cache.getCachedSessionId,
      Cache.getClaudeInstanceId;
    rewrite !reading_document; cbn [fst]; rewrite Hdoc; intros Hothers.
  - rewrite workspace_of_object, (readField_same _ _ _ Hothers). now intros ->.
  - rewrite peer_of_object, (readField_same _ _ _ Hothers). now intros ->.
  - rewrite session_of_object, (readField_same _ _ _ Hothers). now intros ->.
  - rewrite readField_objectOf, (readField_same _ _ _ Hothers).
    destruct (Cache.readField _ _) as [instanceId| |]; try discriminate. run_outcome.
    intros [= <-]. cbn [option_map]. now rewrite orNull_objectOf.
Qed.

Lemma setters_keep_the_other_members_witness :
  performSet (SetPeer "clawd" "p9") Examples.cachedIds
  = (JS.Returns tt, snd (performSet (SetPeer "clawd" "p9") Examples.cachedIds))
  /\ performGet (GetSession "/a") Examples.cachedIds
     = JS.Returns (Some (Cache.ofString "s1"))
  /\ performGet (GetSession "/a") (snd (performSet (SetPeer "clawd" "p9") Examples.cachedIds))
     = JS.Returns (Some (Cache.ofString "s1")).
Proof.
  split; [vm_compute; reflexivity|]. split; [vm_compute; reflexivity|].
  apply (setters_keep_the_other_members (SetPeer "clawd" "p9") (GetSession "/a")
           Examples.cachedIds _ (Some (Cache.ofString "s1")));
    [vm_compute; reflexivity | discriminate | vm_compute; reflexivity].
Defined.

(** ** The setters return *)

Lemma forallb_Forall_true {A : Type} (p : A -> bool) (l : list A) :
  forallb p l = true <-> Forall (fun x => p x = true) l.
Proof.
  induction l as [|x l IH]; cbn [forallb].
  - split; [constructor | reflexivity].
  - rewrite andb_true_iff, IH. split.
    + intros [Hx Hl]. now constructor.
    + intros H. now inversion H.
Qed.

(** A value without numbers and code units above 255 has a rendering. *)
Lemma render_total (v : Json.value) :
  plain v = true -> forall indent, is_Some (Json.render indent v).
Proof.
  induction v as [| b | neg m e | us | vs IH | ms IH] using value_induction;
    intros Hplain indent; try (eexists; reflexivity).
  - discriminate Hplain.
  - cbn [plain] in Hplain. destruct (latin1_total us Hplain) as [s Hs].
    cbn [Json.render]. rewrite Hs. eexists. reflexivity.
  - destruct vs as [|v vs]; [eexists; reflexivity|]. rewrite render_Arr.
    cbn [plain] in Hplain. apply forallb_Forall_true in Hplain.
    assert (Hparts : is_Some (mapM (Json.render (indent +:+ Json.gap)) (v :: vs))).
    { apply mapM_is_Some. apply Forall_forall. intros x Hx.
      rewrite Forall_forall in IH, Hplain. exact (IH x Hx (Hplain x Hx) _). }
    destruct Hparts as [parts ->]. eexists. reflexivity.
  - destruct ms as [|m ms]; [eexists; reflexivity|]. rewrite render_Obj.
    cbn [plain] in Hplain. apply forallb_Forall_true in Hplain.
    match goal with
    | |- is_Some (mbind _ (mapM ?f ?l)) => assert (Hparts : is_Some (mapM f l))
    end.
    { apply mapM_is_Some. apply Forall_forall. intros [k x] Hx.
      rewrite Forall_forall in IH, Hplain. specialize (IH _ Hx). specialize (Hplain _ Hx).
      cbn [fst snd] in *. apply andb_prop in Hplain as [Hk Hplain].
      destruct (latin1_total k Hk) as [name Hname].
      destruct (IH Hplain (indent +:+ Json.gap)) as [strP HstrP].
      unfold compose. cbn [fst snd]. rewrite Hname. cbn [mbind option_bind]. rewrite HstrP.
      eexists. reflexivity. }
    destruct Hparts as [parts ->]. eexists. reflexivity.
Qed.

Lemma plain_objectOf (v : Json.value) : plain v = true -> plain (Json.objectOf v) = true.
Proof.
  induction v as [| b | neg m e | us | vs IH | ms IH] using value_induction;
    intros Hplain; try exact Hplain.
  - cbn [Json.objectOf plain] in *. apply forallb_Forall_true in Hplain.
    apply forallb_Forall_true. apply Forall_map.
    rewrite Forall_forall in IH, Hplain |- *. intros x Hx. exact (IH x Hx (Hplain x Hx)).
  - cbn [Json.objectOf plain] in *. apply forallb_Forall_true in Hplain.
    apply forallb_Forall_true. apply ownProperties_members. apply Forall_map.
    rewrite Forall_forall in IH, Hplain |- *. intros [k x] Hx.
    specialize (IH _ Hx). specialize (Hplain _ Hx). cbn [fst snd] in *.
    apply andb_prop in Hplain as [Hk Hplain]. now rewrite Hk, (IH Hplain).
Qed.

Lemma objectOrFalsy_objectOf (x : option Json.value) :
  objectOrFalsy (option_map Json.objectOf x) = objectOrFalsy x.
Proof. now destruct x as [[]|]. Qed.

Lemma plain_ofString (s : string) : plain (Cache.ofString s) = true.
Proof. apply forallb_isLatin1_codeUnits. Qed.

Lemma plain_snoc (ms : list (list N * Json.value)) (key : string) (v : Json.value) :
  plain (Json.Obj ms) = true -> plain v = true ->
  plain (Json.Obj (ms ++ [(Json.codeUnits key, v)])) = true.
Proof.
  cbn [plain]. intros Hms Hv. rewrite forallb_app, Hms. cbn [forallb].
  now rewrite forallb_isLatin1_codeUnits, Hv.
Qed.

Lemma plain_member (key : list N) (ms : list (list N * Json.value)) (v : Json.value) :
  plain (Json.Obj ms) = true -> Json.lookupMember key ms = Some v -> plain v = true.
Proof.
  cbn [plain]. intros Hms Hv. apply lookupMember_In in Hv.
  rewrite forallb_forall in Hms. specialize (Hms _ Hv). cbn in Hms.
  now apply andb_prop in Hms as [_ Hms].
Qed.

(** A setter whose body returns a document that has a rendering saves
    it. *)
Lemma updating_saves (body : Json.value -> JS.Outcome Json.value) (fs : Cache.Files)
    (cache' : Json.value) :
  body (fst (Cache.loadIdCache fs)) = JS.Returns cache' ->
  plain cache' = true ->
  exists fs',
    Cache.updating body fs = (JS.Returns tt, fs')
    /\ fst (Cache.loadIdCache fs') = Json.objectOf cache'.
Proof.
  intros Hbody Hplain.
  destruct (render_total _ (plain_objectOf _ Hplain) EmptyString) as [text Htext].
  assert (Hupdating : Cache.updating body fs
                      = (JS.Returns tt, Cache.writeIdCache text (Cache.ensureCacheDir fs))).
  { revert Hbody. unfold Cache.updating, Cache.loadIdCache. cbv zeta.
    destruct (Cache.idCacheFile (Cache.ensureCacheDir fs)); cbn [fst]; intros ->;
      unfold Cache.saveIdCache; cbv zeta; rewrite ensureCacheDir_idempotent;
      unfold Json.stringifyPretty; now rewrite Htext. }
  eexists. split; [exact Hupdating|].
  now destruct (updating_returns _ _ _ Hupdating) as (c & t & Hc & _ & _ & ->); congruence.
Qed.

(** The body of [setCachedPeerId] and [setCachedSessionId] returns when
    the member is an object or falsy. *)
Lemma nested_set_returns (key name : string) (v : Json.value)
    (ms : list (list N * Json.value)) :
  String.eqb key "__proto__" = false ->
  String.eqb name "__proto__" = false ->
  plain (Json.Obj ms) = true -> plain v = true ->
  objectOrFalsy (Json.lookupMember (Json.codeUnits key) ms) = true ->
  exists ms' held,
    ('(cache, held) ← Cache.ensureObject (Json.Obj ms) key;
     Cache.setWithin cache key held name v)
    = JS.Returns (Json.Obj (ms' ++ [(Json.codeUnits key,
                                     Json.Obj (held ++ [(Json.codeUnits name, v)]))]))
    /\ plain (Json.Obj ms') = true
    /\ plain (Json.Obj held) = true
    /\ forall other, String.eqb key other = false ->
                     Json.lookupMember (Json.codeUnits other) ms'
                     = Json.lookupMember (Json.codeUnits other) ms.
Proof.
  intros Hkey Hname Hms Hv Hmember.
  unfold Cache.ensureObject, Cache.readField, Cache.setWithin.
  cbn [Json.getProp mbind JS.outcome_bind JS.andThen].
  assert (Hfresh :
            (target' ← Json.setIndex (Json.Obj ms) key (Json.Obj []);
             JS.Returns (target', Json.Obj []))
            ≫= (fun '(cache, held) =>
                  held' ← Json.setIndex held name v; Json.setIndex cache key held')
            = JS.Returns (Json.Obj ((ms ++ [(Json.codeUnits key, Json.Obj [])])
                                    ++ [(Json.codeUnits key,
                                         Json.Obj ([] ++ [(Json.codeUnits name, v)]))]))).
  { rewrite setIndex_object by assumption. run_outcome.
    rewrite setIndex_object by assumption. run_outcome.
    now rewrite setIndex_object by assumption. }
  assert (Hplain : plain (Json.Obj (ms ++ [(Json.codeUnits key, Json.Obj [])])) = true)
    by now apply plain_snoc.
  assert (Hothers : forall other, String.eqb key other = false ->
                      Json.lookupMember (Json.codeUnits other)
                        (ms ++ [(Json.codeUnits key, Json.Obj [])])
                      = Json.lookupMember (Json.codeUnits other) ms).
  { intros other Hother. now rewrite lookupMember_snoc, Hother. }
  destruct (Json.lookupMember (Json.codeUnits key) ms) as [x|] eqn:Hx;
    [destruct (Json.toBoolean (Some x)) eqn:Htruthy|].
  - destruct x as [| b | neg m e | us | vs | held]; try discriminate;
      try (cbn [objectOrFalsy] in Hmember; rewrite Htruthy in Hmember; discriminate).
    run_outcome. rewrite setIndex_object by assumption. run_outcome.
    rewrite setIndex_object by assumption.
    exists ms, held. repeat split; auto. exact (plain_member _ _ _ Hms Hx).
  - eexists _, []. split; [exact Hfresh|]. auto.
  - eexists _, []. split; [exact Hfresh|]. auto.
Qed.

Lemma member_set_returns (key : string) (v : Json.value) (fs : Cache.Files)
    (ms : list (list N * Json.value)) :
  String.eqb key "__proto__" = false ->
  fst (Cache.loadIdCache fs) = Json.Obj ms ->
  plain (Json.Obj ms) = true -> plain v = true ->
  exists fs',
    Cache.updating (fun cache => Json.setIndex cache key v) fs = (JS.Returns tt, fs')
    /\ fst (Cache.loadIdCache fs')
       = Json.objectOf (Json.Obj (ms ++ [(Json.codeUnits key, v)])).
Proof.
  intros Hkey Hdoc Hplain Hv. apply updating_saves.
  - rewrite Hdoc. now apply setIndex_object.
  - now apply plain_snoc.
Qed.

Lemma nested_set_saves (key name : string) (v : Json.value) (fs : Cache.Files)
    (ms : list (list N * Json.value)) :
  String.eqb key "__proto__" = false ->
  String.eqb name "__proto__" = false ->
  fst (Cache.loadIdCache fs) = Json.Obj ms ->
  plain (Json.Obj ms) = true -> plain v = true ->
  objectOrFalsy (Json.lookupMember (Json.codeUnits key) ms) = true ->
  exists fs' ms' held,
    Cache.updating (fun cache => '(cache, held) ← Cache.ensureObject cache key;
                                 Cache.setWithin cache key held name v) fs
    = (JS.Returns tt, fs')
    /\ fst (Cache.loadIdCache fs')
       = Json.objectOf (Json.Obj (ms' ++ [(Json.codeUnits key,
                                           Json.Obj (held ++ [(Json.codeUnits name, v)]))]))
    /\ plain (Json.Obj (ms' ++ [(Json.codeUnits key,
                                 Json.Obj (held ++ [(Json.codeUnits name, v)]))])) = true
    /\ forall other, String.eqb key other = false ->
                     Json.lookupMember (Json.codeUnits other) ms'
                     = Json.lookupMember (Json.codeUnits other) ms.
Proof.
  intros Hkey Hname Hdoc Hplain Hv Hmember.
  destruct (nested_set_returns key name v ms Hkey Hname Hplain Hv Hmember)
    as (ms' & held & Hbody & Hms' & Hheld & Hothers).
  assert (Hplain' : plain (Json.Obj (ms' ++ [(Json.codeUnits key,
                             Json.Obj (held ++ [(Json.codeUnits name, v)]))])) = true).
  { apply plain_snoc; [exact Hms'|]. now apply plain_snoc. }
  destruct (updating_saves
              (fun cache => '(cache, held) ← Cache.ensureObject cache key;
                            Cache.setWithin cache key held name v) fs _
              ltac:(rewrite Hdoc; exact Hbody) Hplain') as (fs' & Hset & Hdoc').
  exists fs', ms', held. auto.
Qed.

Lemma wellFormed_object (ms : list (list N * Json.value)) :
  plain (Json.Obj ms) = true ->
  objectOrFalsy (Json.lookupMember (Json.codeUnits "peers") ms) = true ->
  objectOrFalsy (Json.lookupMember (Json.codeUnits "sessions") ms) = true ->
  wellFormed (Json.objectOf (Json.Obj ms)) = true.
Proof.
  intros Hplain Hpeers Hsessions. unfold wellFormed.
  rewrite (plain_objectOf _ Hplain). cbn [Json.objectOf andb].
  rewrite !lookupMember_ownProperties, !lookupMember_map, !objectOrFalsy_objectOf.
  now rewrite Hpeers, Hsessions.
Qed.

(** X26. The setters of the ID cache work on a missing or malformed cache
    file and on every file they have written: on a well-formed document
    each setter returns and leaves a well-formed document. *)
Theorem setters_return_on_their_own_files (fs : Cache.Files) :
  (Cache.idCacheFile fs = None -> wellFormed (fst (Cache.loadIdCache fs)) = true)
  /\ (forall text, Cache.idCacheFile fs = Some text -> Json.parse text = None ->
                   wellFormed (fst (Cache.loadIdCache fs)) = true)
  /\ forall call,
       wellFormed (fst (Cache.loadIdCache fs)) = true ->
       match call with
       | SetPeer name _ | SetSession _ name _ _ => name <> "__proto__"
       | SetWorkspace _ _ | SetInstance _ => True
       end ->
       exists fs',
         performSet call fs = (JS.Returns tt, fs')
         /\ wellFormed (fst (Cache.loadIdCache fs')) = true.
Proof.
  split; [|split].
  - unfold Cache.loadIdCache. cbv zeta. rewrite idCacheFile_ensureCacheDir. now intros ->.
  - unfold Cache.loadIdCache, Cache.parseOrEmpty. cbv zeta.
    rewrite idCacheFile_ensureCacheDir. now intros text -> ->.
  - intros call Hwf Hname. unfold wellFormed in Hwf.
    destruct (fst (Cache.loadIdCache fs)) as [| b | neg m e | us | vs | ms] eqn:Hdoc;
      try (now rewrite andb_false_r in Hwf).
    apply andb_prop in Hwf as [Hplain Hwf]. apply andb_prop in Hwf as [Hpeers Hsessions].
    destruct call as [name id | peerName peerId | now cwd name id | instanceId];
      cbn [performSet];
      unfold Cache.setCachedWorkspaceId, Cache.setCachedPeerId, Cache.setCachedSessionId,
        Cache.setClaudeInstanceId.
    + assert (Hv : plain (Json.Obj [(Json.codeUnits "name", Cache.ofString name);
                                    (Json.codeUnits "id", Cache.ofString id)]) = true).
      { cbn [plain forallb]. now rewrite !forallb_isLatin1_codeUnits, !plain_ofString. }
      destruct (member_set_returns "workspace" _ fs ms eq_refl Hdoc Hplain Hv)
        as (fs' & Hset & Hdoc').
      exists fs'. split; [exact Hset|]. rewrite Hdoc'. apply wellFormed_object.
      * now apply plain_snoc.
      * now rewrite lookupMember_snoc.
      * now rewrite lookupMember_snoc.
    + destruct (nested_set_saves "peers" peerName (Cache.ofString peerId) fs ms eq_refl
                  (proj2 (String.eqb_neq _ _) Hname) Hdoc Hplain (plain_ofString _) Hpeers)
        as (fs' & ms' & held & Hset & Hdoc' & Hplain' & Hothers).
      exists fs'. split; [exact Hset|]. rewrite Hdoc'. apply wellFormed_object.
      * exact Hplain'.
      * now rewrite lookupMember_snoc.
      * rewrite lookupMember_snoc. cbn [String.eqb Ascii.eqb Bool.eqb].
        now rewrite (Hothers "sessions" eq_refl).
    + set (session := Json.Obj [(Json.codeUnits "name", Cache.ofString name);
                                (Json.codeUnits "id", Cache.ofString id);
                                (Json.codeUnits "updatedAt", Cache.ofString now)]).
      assert (Hsession : plain session = true).
      { cbn [session plain forallb].
        now rewrite !forallb_isLatin1_codeUnits, !plain_ofString. }
      destruct (nested_set_saves "sessions" cwd session fs ms eq_refl
                  (proj2 (String.eqb_neq _ _) Hname) Hdoc Hplain Hsession Hsessions)
        as (fs' & ms' & held & Hset & Hdoc' & Hplain' & Hothers).
      exists fs'. split; [exact Hset|]. rewrite Hdoc'. apply wellFormed_object.
      * exact Hplain'.
      * rewrite lookupMember_snoc. cbn [String.eqb Ascii.eqb Bool.eqb].
        now rewrite (Hothers "peers" eq_refl).
      * now rewrite lookupMember_snoc.
    + destruct (member_set_returns "claudeInstanceId" _ fs ms eq_refl Hdoc Hplain
                  (plain_ofString instanceId)) as (fs' & Hset & Hdoc').
      exists fs'. split; [exact Hset|]. rewrite Hdoc'. apply wellFormed_object.
      * apply plain_snoc; [exact Hplain | apply plain_ofString].
      * now rewrite lookupMember_snoc.
      * now rewrite lookupMember_snoc.
Qed.

(** X27. When the cache file holds [null], every getter and every setter of
    the ID cache throws, nothing is written, and a message queued without
    an instance id is not queued. *)
Theorem null_cache_file_throws (fs : Cache.Files) (text : string) :
  Cache.idCacheFile fs = Some text ->
  Json.parse text = Some Json.Null ->
  (forall read, performGet read fs = JS.Throws)
  /\ (forall call, performSet call fs = (JS.Throws, Cache.ensureCacheDir fs))
  /\ forall now content peerId cwd,
       Cache.queueMessageOn now content peerId cwd None fs
       = (JS.Throws, Cache.ensureCacheDir fs).
Proof.
  intros Hfile Hparse.
  assert (Hload : forall files, Cache.ensureCacheDir files = Cache.ensureCacheDir fs ->
                    Cache.loadIdCache files = (Json.Null, Cache.ensureCacheDir fs)).
  { intros files Hfiles. unfold Cache.loadIdCache. cbv zeta.
    rewrite Hfiles, idCacheFile_ensureCacheDir, Hfile. unfold Cache.parseOrEmpty.
    now rewrite Hparse. }
  pose proof (Hload fs eq_refl) as Hfs.
  pose proof (Hload _ (ensureCacheDir_idempotent fs)) as Hfs'.
  split; [|split].
  - intros [workspaceName | peerName | cwd |]; cbn [performGet];
      unfold Cache.getCachedWorkspaceId, Cache.getCachedPeerId, Cache.getCachedSessionId,
        Cache.getClaudeInstanceId, Cache.reading; now rewrite Hfs.
  - intros [name id | peerName peerId | now cwd name id | instanceId]; cbn [performSet];
      unfold Cache.setCachedWorkspaceId, Cache.setCachedPeerId, Cache.setCachedSessionId,
        Cache.setClaudeInstanceId, Cache.updating; now rewrite Hfs.
  - intros now content peerId cwd. unfold Cache.queueMessageOn. cbn [Cache.given].
    unfold Cache.getClaudeInstanceId, Cache.reading. now rewrite Hfs'.
Qed.

Lemma null_cache_file_throws_witness :
  Cache.idCacheFile Examples.nullIdCache = Some "null"
  /\ Json.parse "null" = Some Json.Null
  /\ performGet (GetPeer "eri") Examples.nullIdCache = JS.Throws
  /\ performSet (SetPeer "eri" "p1") Examples.nullIdCache
     = (JS.Throws, Cache.ensureCacheDir Examples.nullIdCache).
Proof.
  split; [reflexivity|]. split; [reflexivity|].
  destruct (null_cache_file_throws Examples.nullIdCache "null" eq_refl eq_refl)
    as (Hget & Hset & _).
  split; [apply Hget | apply Hset].
Defined.

(** X28. After [clearAllCaches] the getters of the ID cache return [null], no
    message is pending and the context cache is empty; the work log is as
    it was, and no file is created. *)
Theorem clearAllCaches_resets (fs : Cache.Files) :
  (forall read, performGet read (Cache.clearAllCaches fs) = JS.Returns (Some Json.Null))
  /\ (forall forCwd, fst (Cache.getQueuedMessages forCwd (Cache.clearAllCaches fs)) = [])
  /\ fst (Cache.loadContextCache (Cache.clearAllCaches fs)) = Cache.emptyDocument
  /\ Cache.clawdContextFile (Cache.clearAllCaches fs) = Cache.clawdContextFile fs
  /\ (Cache.idCacheFile (Cache.clearAllCaches fs) = None <-> Cache.idCacheFile fs = None)
  /\ (Cache.contextCacheFile (Cache.clearAllCaches fs) = None
      <-> Cache.contextCacheFile fs = None)
  /\ (Cache.messageQueueFile (Cache.clearAllCaches fs) = None
      <-> Cache.messageQueueFile fs = None).
Proof.
  destruct fs as [dir [ids|] [contexts|] [queue|] work];
    (split; [intros [workspaceName | peerName | cwd |]; destruct dir; reflexivity|]);
    (split; [intros [forCwd|]; destruct dir; try reflexivity;
             cbn; now destruct (JS.truthy forCwd)|]);
    (split; [destruct dir; reflexivity|]);
    (split; [destruct dir; reflexivity|]);
    repeat split; destruct dir; cbn; congruence.
Qed.

(** X20. What [saveIdCache] writes, [loadIdCache] reads back: the saved
    document as an object (each property once, array indices first).  The
    other files are not touched. *)
Theorem saveIdCache_then_loadIdCache (cache : Json.value) (fs fs' : Cache.Files) :
  Cache.saveIdCache cache fs = (JS.Returns tt, fs') ->
  Cache.loadIdCache fs' = (Json.objectOf cache, fs')
  /\ Cache.messageQueueFile fs' = Cache.messageQueueFile fs
  /\ Cache.contextCacheFile fs' = Cache.contextCacheFile fs
  /\ Cache.clawdContextFile fs' = Cache.clawdContextFile fs.
Proof.
  unfold Cache.saveIdCache. cbv zeta.
  destruct (Json.stringifyPretty cache) as [text|] eqn:Htext; [|discriminate].
  intros [= <-]. split.
  - unfold Cache.loadIdCache. cbv zeta. rewrite ensureCacheDir_writeIdCache.
    cbn [Cache.writeIdCache Cache.idCacheFile]. unfold Cache.parseOrEmpty.
    now rewrite (parse_stringifyPretty _ _ Htext).
  - cbn [Cache.writeIdCache Cache.messageQueueFile Cache.contextCacheFile
         Cache.clawdContextFile].
    unfold Cache.ensureCacheDir. now destruct (Cache.cacheDirExists fs).
Qed.

Lemma saveIdCache_then_loadIdCache_witness :
  Cache.saveIdCache (fst (Cache.loadIdCache Examples.cachedIds)) Cache.noFiles
  = (JS.Returns tt,
     snd (Cache.saveIdCache (fst (Cache.loadIdCache Examples.cachedIds)) Cache.noFiles))
  /\ fst (Cache.loadIdCache
            (snd (Cache.saveIdCache (fst (Cache.loadIdCache Examples.cachedIds))
                    Cache.noFiles)))
     = Json.objectOf (fst (Cache.loadIdCache Examples.cachedIds)).
Proof.
  split; [vm_compute; reflexivity|].
  destruct (saveIdCache_then_loadIdCache (fst (Cache.loadIdCache Examples.cachedIds))
              Cache.noFiles _ ltac:(vm_compute; reflexivity)) as [Hload _].
  exact (f_equal fst Hload).
Defined.

(** The document of the example directory: the workspace first, the peers
    with the array indices [7] and [42] in front, then the session. *)
Example cachedIds_document :
  fst (Cache.loadIdCache Examples.cachedIds)
  = Json.Obj
      [(Json.codeUnits "workspace",
        Json.Obj [(Json.codeUnits "name", Cache.ofString "honcho");
                  (Json.codeUnits "id", Cache.ofString "w1")]);
       (Json.codeUnits "peers",
        Json.Obj [(Json.codeUnits "7", Cache.ofString "p3");
                  (Json.codeUnits "42", Cache.ofString "p2");
                  (Json.codeUnits "eri", Cache.ofString "p1")]);
       (Json.codeUnits "sessions",
        Json.Obj [(Json.codeUnits "/a",
                   Json.Obj [(Json.codeUnits "name", Cache.ofString "a");
                             (Json.codeUnits "id", Cache.ofString "s1");
                             (Json.codeUnits "updatedAt",
                              Cache.ofString "2026-01-05T10:00:00.000Z")])])].
Proof. vm_compute. reflexivity. Qed.

(** The text of [cache.json] after one peer was cached: four lines,
    indented by two and four spaces. *)
Example idCacheFile_lines :
  option_map (JS.split JS.newline)
    (Cache.idCacheFile (snd (Cache.setCachedPeerId "eri" "p1" Cache.noFiles)))
  = Some ["{";
          "  " +:+ Json.stringifyString "peers" +:+ ": {";
          "    " +:+ Json.stringifyString "eri" +:+ ": " +:+ Json.stringifyString "p1";
          "  }";
          "}"].
Proof. vm_compute. reflexivity. Qed.

(** Names that every object inherits: a peer called [__proto__] is not
    stored, and the cached id of a peer called [toString] that was never
    set is not [null]. *)
Example inherited_names :
  Cache.idCacheFile (snd (Cache.setCachedPeerId "__proto__" "p1" Examples.cachedIds))
  = Cache.idCacheFile Examples.cachedIds
  /\ performGet (GetPeer "toString") Examples.cachedIds = JS.Unembedded
  /\ performGet (GetPeer "nobody") Examples.cachedIds = JS.Returns (Some Json.Null).
Proof. repeat split; vm_compute; reflexivity. Qed.


(* ===================================================================== *)
(** * A generated summary as work log                                     *)
(* ===================================================================== *)

Lemma prefix_append (needle rest : string) : String.prefix needle (needle +:+ rest) = true.
Proof.
  induction needle as [|c needle IH]; [now destruct rest|].
  cbn [String.append String.prefix]. destruct (ascii_dec c c); [exact IH | contradiction].
Qed.

Lemma includes_prefix (needle hay : string) :
  String.prefix needle hay = true -> JS.includes needle hay = true.
Proof. intros H. destruct hay; cbn [JS.includes]; now rewrite H. Qed.

Lemma includes_at (needle before after : string) :
  JS.includes needle (before +:+ needle +:+ after) = true.
Proof.
  induction before as [|c before IH].
  - cbn [String.append]. apply includes_prefix, prefix_append.
  - cbn [String.append JS.includes]. rewrite IH. apply orb_true_r.
Qed.

Lemma findIndex_found {A : Type} (p : A -> bool) (xs : list A) (x : A) :
  In x xs -> p x = true -> JS.findIndex p xs <> (-1)%Z.
Proof.
  induction xs as [|y xs IH]; [contradiction|]. intros Hin Hx. cbn [JS.findIndex].
  destruct (p y) eqn:Hy; [discriminate|].
  destruct Hin as [->|Hin]; [congruence|]. specialize (IH Hin Hx).
  destruct (Z.eqb_spec (JS.findIndex p xs) (-1)); [contradiction|].
  destruct (findIndex_range p xs); lia.
Qed.

(** A text that goes on with [line] and a line feed has a line that ends
    with [line]. *)
Lemma split_has_line (before line after : string) :
  contains JS.newline line = false ->
  exists start, In (start +:+ line) (JS.split JS.newline (before +:+ line +:+ String JS.newline after)).
Proof.
  intros Hline. induction before as [|c before [start IH]].
  - exists EmptyString. cbn [String.append]. rewrite split_line by assumption. now left.
  - cbn [String.append JS.split]. destruct (Ascii.eqb c JS.newline).
    + exists start. now right.
    + destruct (JS.split JS.newline _) as [|piece pieces]; [contradiction|].
      destruct IH as [->|IH].
      * exists (String c start). now left.
      * exists start. now right.
Qed.

(** X19. A generated summary starts with the title block and ends with the
    activity header, so [appendClawdWork] finds the header in it; saved, it
    is the work log the next call works on. *)
Theorem generated_summary_is_a_work_log
    (now sessionName : string) (workItems assistantMessages : list string)
    (fs : Cache.Files) :
  let summary := Cache.generateClawdSummary now sessionName workItems assistantMessages in
  hasActivityHeader summary
  /\ workLog (Cache.saveClawdLocalContext summary fs) = summary
  /\ exists body,
       summary
       = "# CLAWD Work Context" +:+ JS.nl +:+ JS.nl
         +:+ "Last updated: " +:+ now +:+ JS.nl
         +:+ "Session: " +:+ sessionName +:+ JS.nl +:+ JS.nl
         +:+ "## What CLAWD Was Working On" +:+ JS.nl +:+ JS.nl
         +:+ body +:+ Cache.activityHeader +:+ JS.nl.
Proof.
  cbv zeta.
  assert (Hshape : exists body,
             Cache.generateClawdSummary now sessionName workItems assistantMessages
             = "# CLAWD Work Context" +:+ JS.nl +:+ JS.nl
               +:+ "Last updated: " +:+ now +:+ JS.nl
               +:+ "Session: " +:+ sessionName +:+ JS.nl +:+ JS.nl
               +:+ "## What CLAWD Was Working On" +:+ JS.nl +:+ JS.nl
               +:+ body +:+ Cache.activityHeader +:+ JS.nl).
  { unfold Cache.generateClawdSummary. cbv zeta.
    exists ((if Json.isNil workItems then EmptyString
             else JS.join JS.nl (List.map Cache.listItem workItems) +:+ JS.nl +:+ JS.nl)
            +:+ (if Json.isNil (Cache.collectActions assistantMessages) then EmptyString
                 else "## Recent Actions" +:+ JS.nl +:+ JS.nl
                      +:+ JS.join JS.nl
                            (List.map Cache.listItem
                               (JS.sliceFrom (Cache.collectActions assistantMessages) (-10)))
                      +:+ JS.nl +:+ JS.nl)).
    destruct (Json.isNil workItems);
      destruct (Json.isNil (Cache.collectActions assistantMessages));
      rewrite ?append_assoc; cbn [String.append]; rewrite ?append_assoc; reflexivity. }
  destruct Hshape as [body Hshape]. split; [|split].
  - unfold hasActivityHeader. unfold Cache.generateClawdSummary. cbv zeta.
    match goal with
    | |- JS.findIndex _ (JS.split _ (?before +:+ _ +:+ _)) <> _ =>
        destruct (split_has_line before Cache.activityHeader EmptyString eq_refl)
          as [start Hin]
    end.
    apply (findIndex_found _ _ _ Hin).
    rewrite <- (append_empty_r Cache.activityHeader) at 2. apply includes_at.
  - unfold workLog, Cache.saveClawdLocalContext, Cache.writeClawdContext.
    cbn [Cache.clawdContextFile]. now rewrite Hshape.
  - exists body. exact Hshape.
Qed.
